(** * LightTrails: the synchronization core, embedded and verified

    The development follows the two programs of the repository:
    - the server ([sanitizeSettings], the [clients] registry, [broadcast],
      the heartbeat and the connection, message and [close] handlers);
    - the browser client (the trail store and its per-frame pruning in
      [renderAllTrails], the [clear] message, the outbound sends).

    JavaScript data is modelled as the code uses it: strings are sequences
    of UTF-16 code units, [Map]s are finite maps, the numbers the settings
    code only compares are rationals extended with NaN and the infinities,
    and the numbers the fade filter computes with are IEEE binary64 floats.
    A [forEach] over a [Map] is a fold over its entries where the loop does
    not depend on the order of the visit; the loops that do (the settings
    snapshot of the connection handler, and the trail pass of the client,
    which painting may cut short with an exception) follow the order of
    insertion. *)

From Stdlib Require Import ZArith QArith Floats Uint63 Bool Lia.
From Stdlib Require Import Strings.String Strings.Ascii.
From stdpp Require Import gmap list.

Set Warnings "-inexact-float".

(** ** JavaScript strings *)

Module JsString.

(** A string is its sequence of UTF-16 code units; [length], [slice] and
    [trim] of the source all work on code units. *)
Abbreviation jsstring := (list N).

(** A literal, for readable examples (code units below 256). *)
Definition str (s : string) : jsstring :=
  map N_of_ascii (list_ascii_of_string s).

(** ECMAScript WhiteSpace and LineTerminator code points, the characters
    [String.prototype.trim] strips. *)
Definition isWhiteSpace (c : N) : bool :=
  ((9 <=? c) && (c <=? 13)          (* TAB LF VT FF CR *)
   || (c =? 32)                     (* SPACE *)
   || (c =? 160)                    (* NBSP *)
   || (c =? 5760)                   (* U+1680 *)
   || ((8192 <=? c) && (c <=? 8202)) (* U+2000 .. U+200A *)
   || (c =? 8232) || (c =? 8233)    (* LS PS *)
   || (c =? 8239) || (c =? 8287)    (* U+202F U+205F *)
   || (c =? 12288)                  (* U+3000 *)
   || (c =? 65279))%N.              (* U+FEFF *)

Fixpoint trimStart (s : jsstring) : jsstring :=
  match s with
  | [] => []
  | c :: s' => if isWhiteSpace c then trimStart s' else s
  end.

Definition trimEnd (s : jsstring) : jsstring := rev (trimStart (rev s)).

(** [s.trim()] *)
Definition trim (s : jsstring) : jsstring := trimEnd (trimStart s).

(** [s.slice(0, n)] for [n >= 0] *)
Definition slice_to (n : nat) (s : jsstring) : jsstring := take n s.

Arguments slice_to : simpl never.

(** [s.slice(-n)] for [n > 0]: the last [n] code units, or all of [s]. *)
Definition slice_last (n : nat) (s : jsstring) : jsstring :=
  drop (length s - n) s.

(** Truthiness of a string: non-empty. *)
Definition nonEmpty (s : jsstring) : bool :=
  match s with [] => false | _ :: _ => true end.

(** [s.toUpperCase()] on the ASCII letters; the identities it is applied
    to are built by [generateClientId] from [a-z0-9_]. *)
Definition toUpperCase (s : jsstring) : jsstring :=
  map (fun c => if ((97 <=? c) && (c <=? 122))%N then (c - 32)%N else c) s.

(** A string with no white space at either end. *)
Definition trimmed (s : jsstring) : Prop := trim s = s.

End JsString.

(** ** JavaScript values *)

Module JsValue.
Import JsString.

(** A number: a finite value, NaN or an infinity. The settings code only
    compares numbers (with 0.5 and 3, both binary64 values) and never
    computes with them, so a finite double is represented by the rational
    it denotes. *)
Inductive number :=
| NaN
| PosInf
| NegInf
| Fin (q : Q).

(** A value as [JSON.parse] or a property read yields it; [VUndefined] is
    an absent property, [VObject] any object or array. *)
Inductive value :=
| VUndefined
| VNull
| VBool (b : bool)
| VNum (n : number)
| VStr (s : jsstring)
| VObject.

(** ToBoolean *)
Definition truthy (v : value) : bool :=
  match v with
  | VUndefined | VNull => false
  | VBool b => b
  | VNum NaN => false
  | VNum (Fin q) => negb (Qeq_bool q 0)
  | VNum _ => true
  | VStr s => nonEmpty s
  | VObject => true
  end.

(** [a === b] for two strings *)
Definition strEq (a b : jsstring) : bool := bool_decide (a = b).

(** [Math.max(a, b)] *)
Definition Math_max (a b : number) : number :=
  match a, b with
  | NaN, _ | _, NaN => NaN
  | PosInf, _ | _, PosInf => PosInf
  | NegInf, x | x, NegInf => x
  | Fin p, Fin q => if Qle_bool q p then a else b
  end.

(** [Math.min(a, b)] *)
Definition Math_min (a b : number) : number :=
  match a, b with
  | NaN, _ | _, NaN => NaN
  | NegInf, _ | _, NegInf => NegInf
  | PosInf, x | x, PosInf => x
  | Fin p, Fin q => if Qle_bool p q then a else b
  end.

(** [a ?? b] on a possibly missing number *)
Definition nullish (a : option number) (b : number) : number :=
  match a with Some n => n | None => b end.

(** A finite number within [lo, hi]. *)
Definition within (lo hi : Q) (n : number) : Prop :=
  match n with
  | Fin q => (lo <= q)%Q /\ (q <= hi)%Q
  | _ => False
  end.

(** [WebSocket.readyState], in the browser and in the [ws] library alike. *)
Inductive ReadyState := CONNECTING | OPEN | CLOSING | CLOSED.

End JsValue.

(** ** The server: settings *)

Module Server.
Import JsString JsValue.

(** A settings record as the server stores and sends it: the shape of
    [DEFAULT_SETTINGS] and of what [sanitizeSettings] builds. *)
Record Settings := mkSettings {
  color : jsstring;
  size : number;
  glow : number;
  cursorMode : jsstring;
  username : jsstring
}.

Definition DEFAULT_SETTINGS : Settings :=
  {| color := str "#ff6b6b";
     size := Fin 1;
     glow := Fin (6 # 5);
     cursorMode := str "halo";
     username := [] |}.

(** The [settings] argument: a parsed message, of which five properties
    are read; each may be absent or of any type. *)
Record RawSettings := mkRaw {
  raw_color : value;
  raw_size : value;
  raw_glow : value;
  raw_cursorMode : value;
  raw_username : value
}.

(** The [fallback] argument. At every call it is [DEFAULT_SETTINGS] or a
    record [sanitizeSettings] built, so its string properties are strings
    (an absent one behaves as the empty string under [||] and [&&]) and its
    numeric properties are numbers or absent ([None], what [??] tests). *)
Record Fallback := mkFallback {
  fb_color : jsstring;
  fb_size : option number;
  fb_glow : option number;
  fb_cursorMode : jsstring;
  fb_username : jsstring
}.

Definition as_fallback (s : Settings) : Fallback :=
  {| fb_color := color s;
     fb_size := Some (size s);
     fb_glow := Some (glow s);
     fb_cursorMode := cursorMode s;
     fb_username := username s |}.

(** A settings record read back as an input (all five properties set). *)
Definition as_raw (s : Settings) : RawSettings :=
  {| raw_color := VStr (color s);
     raw_size := VNum (size s);
     raw_glow := VNum (glow s);
     raw_cursorMode := VStr (cursorMode s);
     raw_username := VStr (username s) |}.

(** [const clamp = (value, min, max) => Math.min(Math.max(value, min), max)] *)
Definition clamp (v lo hi : number) : number := Math_min (Math_max v lo) hi.

(** [typeof v === 'number' ? v : fallback], then [?? dflt] *)
Definition numericValue (v : value) (fb : option number) (dflt : number) : number :=
  nullish (match v with VNum n => Some n | _ => fb end) dflt.

(** [typeof v === 'string' && v.trim()] as a condition *)
Definition usableString (v : value) : option jsstring :=
  match v with
  | VStr s => if nonEmpty (trim s) then Some (trim s) else None
  | _ => None
  end.

Definition sanitizeSettings (settings : RawSettings) (fallback : Fallback) : Settings :=
  let sanitized_color :=
    match usableString (raw_color settings) with
    | Some c => c
    | None =>
        if nonEmpty (fb_color fallback) then fb_color fallback
        else color DEFAULT_SETTINGS
    end in
  let sizeValue :=
    numericValue (raw_size settings) (fb_size fallback) (size DEFAULT_SETTINGS) in
  let glowValue :=
    numericValue (raw_glow settings) (fb_glow fallback) (glow DEFAULT_SETTINGS) in
  let cursorModeValue :=
    if truthy (raw_cursorMode settings) then raw_cursorMode settings
    else if nonEmpty (fb_cursorMode fallback) then VStr (fb_cursorMode fallback)
    else VStr (cursorMode DEFAULT_SETTINGS) in
  let sanitized_cursorMode :=
    match cursorModeValue with
    | VStr m => if strEq m (str "star") then str "star" else str "halo"
    | _ => str "halo"
    end in
  let sanitized_username :=
    match usableString (raw_username settings) with
    | Some u => slice_to 18 u
    | None =>
        if nonEmpty (fb_username fallback) && nonEmpty (trim (fb_username fallback))
        then slice_to 18 (trim (fb_username fallback))
        else []
    end in
  {| color := sanitized_color;
     size := clamp sizeValue (Fin (1 # 2)) (Fin 3);
     glow := clamp glowValue (Fin (1 # 2)) (Fin 3);
     cursorMode := sanitized_cursorMode;
     username := sanitized_username |}.

(** The numeric rule as the specification words it: clamp to [0.5, 3]; a raw
    field that is not a finite number gives way to the fallback's value, else
    to the numeric default. *)
Definition spec_numeric (raw : value) (fb : option number) (dflt : number) : number :=
  clamp (match raw with
         | VNum (Fin q) => Fin q
         | _ => nullish fb dflt
         end) (Fin (1 # 2)) (Fin 3).

(** *** The registry, the fan-out and the heartbeat *)

(** A connection: the identity of a [ws] object. *)
Abbreviation conn := nat.

(** What the server serializes and sends. [clientId] of [EvClientLeft] is
    [None] when the property is [undefined], which [JSON.stringify] omits;
    [trail], [x] and [y] are relayed as the sender's message had them. *)
Inductive ServerEvent :=
| EvClientJoined (clientId : jsstring) (clientCount : nat) (settings : Settings)
| EvClientLeft (clientId : option jsstring) (clientCount : nat)
| EvUserSettings (clientId : jsstring) (settings : Settings)
| EvLightTrail (trail : value) (clientId : jsstring) (settings : Settings) (time : Z)
| EvMousePosition (x y : value) (clientId : jsstring) (settings : Settings) (time : Z)
| EvClear (clientId : jsstring) (time : Z).

(** A [ws] object and its transport. [sendThrows] says whether [ws.send]
    throws on this connection; [received] lists the messages [ws.send]
    accepted, oldest first; [failedSends] counts the calls that threw. *)
Record Socket := mkSocket {
  readyState : ReadyState;
  isAlive : bool;
  sendThrows : bool;
  received : list ServerEvent;
  failedSends : nat
}.

(** The value of the [clients] map: [clientInfo.id] and
    [clientInfo.metadata.settings]. *)
Record ClientInfo := mkInfo {
  info_id : jsstring;
  info_settings : Settings
}.

(** The server: the [ws] objects, [wss.clients] (the connections the
    library tracks), the [clients] registry, and the connections whose
    [close] event is due. *)
Record ServerState := mkServer {
  sockets : gmap conn Socket;
  tracked : list conn;
  clients : gmap conn ClientInfo;
  closing : list conn
}.

Definition set_sockets (v : gmap conn Socket) (st : ServerState) : ServerState :=
  mkServer v (tracked st) (clients st) (closing st).

Definition set_tracked (v : list conn) (st : ServerState) : ServerState :=
  mkServer (sockets st) v (clients st) (closing st).

Definition set_clients (v : gmap conn ClientInfo) (st : ServerState) : ServerState :=
  mkServer (sockets st) (tracked st) v (closing st).

Definition set_closing (v : list conn) (st : ServerState) : ServerState :=
  mkServer (sockets st) (tracked st) (clients st) v.

Definition isOPEN (s : ReadyState) : bool :=
  match s with OPEN => true | _ => false end.

(** [ws.send(message)] went through. *)
Definition accept (data : ServerEvent) (sock : Socket) : Socket :=
  mkSocket (readyState sock) (isAlive sock) (sendThrows sock)
           (received sock ++ [data]) (failedSends sock).

(** [ws.send(message)] threw. *)
Definition reject (sock : Socket) : Socket :=
  mkSocket (readyState sock) (isAlive sock) (sendThrows sock)
           (received sock) (S (failedSends sock)).

(** The body of [clients.forEach] in [broadcast]: the server and
    [sentCount] after one entry. *)
Definition broadcastTo (data : ServerEvent) (sender : conn) (ws : conn)
    (clientInfo : ClientInfo) (acc : ServerState * nat) : ServerState * nat :=
  match sockets acc.1 !! ws with
  | Some sock =>
      if bool_decide (ws <> sender) && isOPEN (readyState sock) then
        if sendThrows sock then
          (set_clients (delete ws (clients acc.1))
             (set_sockets (<[ws := reject sock]> (sockets acc.1)) acc.1),
           acc.2)
        else
          (set_sockets (<[ws := accept data sock]> (sockets acc.1)) acc.1,
           S acc.2)
      else acc
  | None => acc
  end.

(** [broadcast(data, sender)]: the server afterwards and [sentCount]. *)
Definition broadcast (data : ServerEvent) (sender : conn) (st : ServerState)
    : ServerState * nat :=
  map_fold (broadcastTo data sender) (st, 0) (clients st).

(** Broadcasts one after the other, each with its own sender. *)
Definition broadcastAll (events : list (ServerEvent * conn)) (st : ServerState)
    : ServerState :=
  foldl (fun st e => (broadcast e.1 e.2 st).1) st events.

(** Is [w] a key of the registry [m]? *)
Definition registered (m : gmap conn ClientInfo) (w : conn) : bool :=
  match m !! w with Some _ => true | None => false end.

(** [broadcast] attempts a send on [w]: it is registered, is not the sender
    and its socket is open. *)
Definition targeted (m : gmap conn ClientInfo) (sender w : conn) (sock : Socket) : bool :=
  registered m w && bool_decide (w <> sender) && isOPEN (readyState sock).

(** The socket after the attempt. *)
Definition attempt (data : ServerEvent) (sock : Socket) : Socket :=
  if sendThrows sock then reject sock else accept data sock.

(** The state of the loop of [broadcast] once the entries of [m] have been
    visited, starting from the server [st]. *)
Definition fanned (data : ServerEvent) (sender : conn) (st : ServerState)
    (m : gmap conn ClientInfo) (acc : ServerState * nat) : Prop :=
  (forall w, sockets acc.1 !! w =
             (fun sock => if targeted m sender w sock then attempt data sock else sock)
               <$> sockets st !! w) /\
  (forall w, clients acc.1 !! w =
             match sockets st !! w with
             | Some sock =>
                 if targeted m sender w sock && sendThrows sock then None
                 else clients st !! w
             | None => clients st !! w
             end) /\
  tracked acc.1 = tracked st /\
  closing acc.1 = closing st.

(** A socket after it accepted the messages [l], in order. *)
Definition accepts (l : list ServerEvent) (sock : Socket) : Socket :=
  mkSocket (readyState sock) (isAlive sock) (sendThrows sock)
           (received sock ++ l) (failedSends sock).

(** The data of the events that [w] did not send itself. *)
Definition addressed_to (w : conn) (events : list (ServerEvent * conn))
    : list ServerEvent :=
  (List.filter (fun e => negb (e.2 =? w)) events).*1.

(** The transport of [w] accepts sends. *)
Definition works (st : ServerState) (w : conn) : bool :=
  match sockets st !! w with
  | Some sock => negb (sendThrows sock)
  | None => true
  end.

(** Every registered connection other than [f] has a working transport. *)
Definition others_deliver (st : ServerState) (f : conn) : Prop :=
  map_Forall (fun w _ => w = f \/ works st w = true) (clients st).

(** [ws.terminate()]: the library destroys the transport; the [close] event
    follows. *)
Definition terminate (ws : conn) (st : ServerState) : ServerState :=
  match sockets st !! ws with
  | Some sock =>
      set_closing (closing st ++ [ws])
        (set_sockets
           (<[ws := mkSocket CLOSING (isAlive sock) (sendThrows sock)
                             (received sock) (failedSends sock)]> (sockets st)) st)
  | None => st
  end.

(** The body of [wss.clients.forEach] in the heartbeat. *)
Definition heartbeatOne (st : ServerState) (ws : conn) : ServerState :=
  match sockets st !! ws with
  | Some sock =>
      if negb (isAlive sock) then
        terminate ws (set_clients (delete ws (clients st)) st)
      else
        set_sockets
          (<[ws := mkSocket (readyState sock) false (sendThrows sock)
                            (received sock) (failedSends sock)]> (sockets st)) st
  | None => st
  end.

(** One run of the [setInterval] callback. *)
Definition heartbeat (st : ServerState) : ServerState :=
  foldl heartbeatOne st (tracked st).

(** [ws.on('pong')]: the probe was answered. *)
Definition on_pong (ws : conn) (st : ServerState) : ServerState :=
  match sockets st !! ws with
  | Some sock =>
      set_sockets
        (<[ws := mkSocket (readyState sock) true (sendThrows sock)
                          (received sock) (failedSends sock)]> (sockets st)) st
  | None => st
  end.

(** [ws.on('close')] *)
Definition on_close (ws : conn) (st : ServerState) : ServerState :=
  let clientInfo := clients st !! ws in
  let st := set_clients (delete ws (clients st)) st in
  (broadcast (EvClientLeft (info_id <$> clientInfo) (base.size (clients st))) ws st).1.

(** The [close] event of a connection: the library marks the socket
    closed, stops tracking it and calls the handler. *)
Definition closeEvent (st : ServerState) (ws : conn) : ServerState :=
  let st :=
    match sockets st !! ws with
    | Some sock =>
        set_sockets
          (<[ws := mkSocket CLOSED (isAlive sock) (sendThrows sock)
                            (received sock) (failedSends sock)]> (sockets st)) st
    | None => st
    end in
  on_close ws (set_tracked (List.filter (fun w => negb (w =? ws)) (tracked st)) st).

(** The [close] events that are due, in order. *)
Definition drainClosing (st : ServerState) : ServerState :=
  foldl closeEvent (set_closing [] st) (closing st).

(** An open connection that has received nothing yet. *)
Definition open_socket (alive throws : bool) : Socket :=
  mkSocket OPEN alive throws [] 0.

Definition info_of (id : string) : ClientInfo := mkInfo (str id) DEFAULT_SETTINGS.

(** Three registered connections; the transport of connection 1 rejects
    every send. *)
Definition three_clients : ServerState :=
  mkServer
    {[ 1 := open_socket true true; 2 := open_socket true false;
       3 := open_socket true false ]}
    [1; 2; 3]
    {[ 1 := info_of "client_a"; 2 := info_of "client_b"; 3 := info_of "client_c" ]}
    [].

(** Two events, neither sent by a registered connection. *)
Definition two_events : list (ServerEvent * conn) :=
  [ (EvClear (str "client_z") 1000, 0); (EvClear (str "client_z") 2000, 0) ].

(** Two registered connections; connection 1 has not answered the last
    probe ([isAlive] is still false), connection 2 has. *)
Definition unresponsive_peer : ServerState :=
  mkServer
    {[ 1 := open_socket false false; 2 := open_socket true false ]}
    [1; 2]
    {[ 1 := info_of "client_a"; 2 := info_of "client_b" ]}
    [].

(** The message [{"size": 1e999}]: [JSON.parse] reads the literal as
    [Infinity]. *)
Definition overflow_size_message : RawSettings :=
  mkRaw VUndefined (VNum PosInf) VUndefined VUndefined VUndefined.

(** The message [{"username": "   "}]: three spaces. *)
Definition blank_username_message : RawSettings :=
  mkRaw VUndefined VUndefined VUndefined VUndefined (VStr (str "   ")).

(** The message [{"username": "  aaaaaaaaaaaaaaaaa"}]: two spaces and
    seventeen letters, nineteen code units. *)
Definition padded_username_message : RawSettings :=
  mkRaw VUndefined VUndefined VUndefined VUndefined
        (VStr (str "  aaaaaaaaaaaaaaaaa")).

(** The message [{"username": "aaaaaaaaaaaaaaaaa b"}]: seventeen letters, a
    space, one more letter. *)
Definition spaced_username_message : RawSettings :=
  mkRaw VUndefined VUndefined VUndefined VUndefined
        (VStr (str "aaaaaaaaaaaaaaaaa b")).

End Server.

(** ** The client *)

Module Client.
Import JsString JsValue Server.

(** The settings object of a server message: the JSON of a record the server
    sanitized. A string property is a string (an absent one reads as the
    empty string, falsy like [undefined]); a numeric property is a number or
    [null]/absent. *)
Record WireSettings := mkWire {
  w_color : jsstring;
  w_size : option number;
  w_glow : option number;
  w_cursorMode : jsstring;
  w_username : jsstring
}.

(** [JSON.stringify] of a settings record: a number that is not finite is
    written [null]. *)
Definition finiteOnly (n : number) : option number :=
  match n with Fin _ => Some n | _ => None end.

Definition toWire (s : Settings) : WireSettings :=
  {| w_color := color s;
     w_size := finiteOnly (size s);
     w_glow := finiteOnly (glow s);
     w_cursorMode := cursorMode s;
     w_username := username s |}.

(** A trail point [{x, y, color, size, glow, timestamp}]; the timestamp is a
    [Date.now()] reading, an integer number of milliseconds. *)
Record TrailPoint := mkPoint {
  pt_x : float;
  pt_y : float;
  pt_color : jsstring;
  pt_size : number;
  pt_glow : number;
  timestamp : Z
}.

(** A cursor sample. Its [color], [size], [glow], [cursorMode] and
    [username] properties always repeat those of its [settings]. *)
Record Cursor := mkCursor {
  cur_x : float;
  cur_y : float;
  cur_settings : Settings;
  cur_timestamp : Z
}.

(** What the client passes to [ws.send]. *)
Inductive Outbound :=
| SendUpdateSettings (s : Settings)
| SendLightTrail (x y : float) (s : Settings)
| SendMousePosition (x y : float) (s : Settings)
| SendClear
| SendPing.

(** The fields of [LightTrailsClient] the synchronization code reads and
    writes. [ws] is [None] for [null], else the socket's [readyState];
    [sent] lists what was handed to [ws.send], oldest first;
    [settingsUpdateTimeout] is [Some d] while a timer that will call
    [sendSettingsUpdate] after [d] ms is armed; [current] gathers
    [currentColor], [currentSize], [currentGlow], [cursorMode] and
    [username]; [viewport] is [window.innerWidth], [window.innerHeight].
    The DOM layers and [lastTrailPoints], the short window the collision
    scan keeps for the sparkles, are outside the model. *)
Record State := mkState {
  ws : option ReadyState;
  sent : list Outbound;
  settingsUpdateTimeout : option Z;
  heartbeatInterval : bool;
  clientId : option jsstring;
  current : Settings;
  userSettings : gmap jsstring Settings;
  allTrails : gmap jsstring (list TrailPoint);
  otherCursors : gmap jsstring Cursor;
  isDrawing : bool;
  trailPoints : list TrailPoint;
  lastMousePosition : option (float * float);
  lastMousePositionSent : Z;
  latestClientCount : nat;
  viewport : float * float
}.

Definition set_ws (v : option ReadyState) (st : State) : State :=
  mkState v (sent st) (settingsUpdateTimeout st) (heartbeatInterval st) (clientId st) (current st) (userSettings st) (allTrails st) (otherCursors st) (isDrawing st) (trailPoints st) (lastMousePosition st) (lastMousePositionSent st) (latestClientCount st) (viewport st).

Definition set_sent (v : list Outbound) (st : State) : State :=
  mkState (ws st) v (settingsUpdateTimeout st) (heartbeatInterval st) (clientId st) (current st) (userSettings st) (allTrails st) (otherCursors st) (isDrawing st) (trailPoints st) (lastMousePosition st) (lastMousePositionSent st) (latestClientCount st) (viewport st).

Definition set_settingsUpdateTimeout (v : option Z) (st : State) : State :=
  mkState (ws st) (sent st) v (heartbeatInterval st) (clientId st) (current st) (userSettings st) (allTrails st) (otherCursors st) (isDrawing st) (trailPoints st) (lastMousePosition st) (lastMousePositionSent st) (latestClientCount st) (viewport st).

Definition set_heartbeatInterval (v : bool) (st : State) : State :=
  mkState (ws st) (sent st) (settingsUpdateTimeout st) v (clientId st) (current st) (userSettings st) (allTrails st) (otherCursors st) (isDrawing st) (trailPoints st) (lastMousePosition st) (lastMousePositionSent st) (latestClientCount st) (viewport st).

Definition set_clientId (v : option jsstring) (st : State) : State :=
  mkState (ws st) (sent st) (settingsUpdateTimeout st) (heartbeatInterval st) v (current st) (userSettings st) (allTrails st) (otherCursors st) (isDrawing st) (trailPoints st) (lastMousePosition st) (lastMousePositionSent st) (latestClientCount st) (viewport st).

Definition set_current (v : Settings) (st : State) : State :=
  mkState (ws st) (sent st) (settingsUpdateTimeout st) (heartbeatInterval st) (clientId st) v (userSettings st) (allTrails st) (otherCursors st) (isDrawing st) (trailPoints st) (lastMousePosition st) (lastMousePositionSent st) (latestClientCount st) (viewport st).

Definition set_userSettings (v : gmap jsstring Settings) (st : State) : State :=
  mkState (ws st) (sent st) (settingsUpdateTimeout st) (heartbeatInterval st) (clientId st) (current st) v (allTrails st) (otherCursors st) (isDrawing st) (trailPoints st) (lastMousePosition st) (lastMousePositionSent st) (latestClientCount st) (viewport st).

Definition set_allTrails (v : gmap jsstring (list TrailPoint)) (st : State) : State :=
  mkState (ws st) (sent st) (settingsUpdateTimeout st) (heartbeatInterval st) (clientId st) (current st) (userSettings st) v (otherCursors st) (isDrawing st) (trailPoints st) (lastMousePosition st) (lastMousePositionSent st) (latestClientCount st) (viewport st).

Definition set_otherCursors (v : gmap jsstring Cursor) (st : State) : State :=
  mkState (ws st) (sent st) (settingsUpdateTimeout st) (heartbeatInterval st) (clientId st) (current st) (userSettings st) (allTrails st) v (isDrawing st) (trailPoints st) (lastMousePosition st) (lastMousePositionSent st) (latestClientCount st) (viewport st).

Definition set_isDrawing (v : bool) (st : State) : State :=
  mkState (ws st) (sent st) (settingsUpdateTimeout st) (heartbeatInterval st) (clientId st) (current st) (userSettings st) (allTrails st) (otherCursors st) v (trailPoints st) (lastMousePosition st) (lastMousePositionSent st) (latestClientCount st) (viewport st).

Definition set_trailPoints (v : list TrailPoint) (st : State) : State :=
  mkState (ws st) (sent st) (settingsUpdateTimeout st) (heartbeatInterval st) (clientId st) (current st) (userSettings st) (allTrails st) (otherCursors st) (isDrawing st) v (lastMousePosition st) (lastMousePositionSent st) (latestClientCount st) (viewport st).

Definition set_lastMousePosition (v : option (float * float)) (st : State) : State :=
  mkState (ws st) (sent st) (settingsUpdateTimeout st) (heartbeatInterval st) (clientId st) (current st) (userSettings st) (allTrails st) (otherCursors st) (isDrawing st) (trailPoints st) v (lastMousePositionSent st) (latestClientCount st) (viewport st).

Definition set_lastMousePositionSent (v : Z) (st : State) : State :=
  mkState (ws st) (sent st) (settingsUpdateTimeout st) (heartbeatInterval st) (clientId st) (current st) (userSettings st) (allTrails st) (otherCursors st) (isDrawing st) (trailPoints st) (lastMousePosition st) v (latestClientCount st) (viewport st).

Definition set_latestClientCount (v : nat) (st : State) : State :=
  mkState (ws st) (sent st) (settingsUpdateTimeout st) (heartbeatInterval st) (clientId st) (current st) (userSettings st) (allTrails st) (otherCursors st) (isDrawing st) (trailPoints st) (lastMousePosition st) (lastMousePositionSent st) v (viewport st).

Definition set_viewport (v : float * float) (st : State) : State :=
  mkState (ws st) (sent st) (settingsUpdateTimeout st) (heartbeatInterval st) (clientId st) (current st) (userSettings st) (allTrails st) (otherCursors st) (isDrawing st) (trailPoints st) (lastMousePosition st) (lastMousePositionSent st) (latestClientCount st) v.


Definition trailFadeTime : Z := 4000.
Definition trailPointSpacing : float := 3%float.
Definition minAlpha : float := 0.05%float.
Definition mousePositionThrottle : Z := 50.

(** An integer number as a double; exact below 2^53, where every
    [Date.now()] reading and every difference of two lies. *)
Definition number_of_Z (z : Z) : float :=
  match z with
  | Z0 => 0%float
  | Zpos _ => PrimFloat.of_uint63 (Uint63.of_Z z)
  | Zneg _ => (- PrimFloat.of_uint63 (Uint63.of_Z (- z)))%float
  end.

(** [1 - age / this.trailFadeTime], the opacity the filter of
    [renderAllTrails] computes. *)
Definition linearAlpha (age : Z) : float :=
  let fadeProgress := (number_of_Z age / number_of_Z trailFadeTime)%float in
  (1 - fadeProgress)%float.

(** The predicate of [trailPoints.filter] in [renderAllTrails]. *)
Definition activePoint (now : Z) (point : TrailPoint) : bool :=
  let age := (now - timestamp point)%Z in
  if (trailFadeTime <=? age)%Z then false
  else (minAlpha <? linearAlpha age)%float.

(** [drawSmoothTrail(activePoints, now, clientId)] and, when it hands back
    a last segment, [checkForCollisions]: canvas and DOM calls and colour
    arithmetic on the points. They write nothing of the store. They return,
    or they throw (a colour that is not hexadecimal makes [parseRgb] read a
    property of [null]; the canvas rejects a colour or a coordinate that is
    not a number), and [renderAllTrails] catches nothing. A painter says
    which, for the trail of an identity, its active points and the time of
    the pass: [true] when the calls return. *)
Definition Painter : Type := jsstring -> list TrailPoint -> Z -> bool.

(** How a call of [renderAllTrails] ends: it returns, or an exception
    thrown while painting leaves it; either way the client is left in a
    state. *)
Inductive Pass :=
| Returned (st : State)
| Thrown (st : State).

(** [this.allTrails.forEach(...)] in [renderAllTrails], over the identities
    in the order of the visit: the store and [clientsToRemove] at the end
    or, when painting throws, the store at that moment ([None]). A trail is
    written back before it is painted; an identity without active points is
    only noted. *)
Fixpoint renderTrails (paint : Painter) (now : Z) (keys : list jsstring)
    (store : gmap jsstring (list TrailPoint)) (clientsToRemove : list jsstring)
    : gmap jsstring (list TrailPoint) * option (list jsstring) :=
  match keys with
  | [] => (store, Some clientsToRemove)
  | clientId :: keys =>
      match store !! clientId with
      | Some trailPoints =>
          let activePoints := List.filter (activePoint now) trailPoints in
          match activePoints with
          | [] => renderTrails paint now keys store (clientsToRemove ++ [clientId])
          | _ :: _ =>
              let store := <[clientId := activePoints]> store in
              if paint clientId activePoints now
              then renderTrails paint now keys store clientsToRemove
              else (store, None)
          end
      | None => renderTrails paint now keys store clientsToRemove
      end
  end.

(** [clientsToRemove.forEach(clientId => this.allTrails.delete(clientId))] *)
Definition deleteAll (ids : list jsstring) (m : gmap jsstring (list TrailPoint))
    : gmap jsstring (list TrailPoint) :=
  foldl (fun m id => delete id m) m ids.

(** [renderAllTrails()], the per-frame tick, with [now] the reading of
    [Date.now()] it starts with and [keys] the identities of the store in
    the order [forEach] visits them, that of their insertion. The deletion
    of the noted identities comes after the loop, so a pass that painting
    cuts short deletes none. *)
Definition renderAllTrails (paint : Painter) (keys : list jsstring) (now : Z)
    (st : State) : Pass :=
  let loop := renderTrails paint now keys (allTrails st) [] in
  match loop.2 with
  | Some clientsToRemove => Returned (set_allTrails (deleteAll clientsToRemove loop.1) st)
  | None => Thrown (set_allTrails loop.1 st)
  end.

(** [keys] lists the identities of the store, each once. *)
Definition keysOf (keys : list jsstring) (st : State) : Prop :=
  NoDup keys /\
  Forall (fun clientId => is_Some (allTrails st !! clientId)) keys /\
  map_Forall (fun clientId _ => clientId ∈ keys) (allTrails st).

(** Painting returns on every trail of the store that has active points at
    [now]. *)
Definition paintable (paint : Painter) (now : Z) (st : State) : Prop :=
  map_Forall
    (fun clientId trailPoints =>
       match List.filter (activePoint now) trailPoints with
       | [] => true
       | activePoints => paint clientId activePoints now
       end = true)
    (allTrails st).

(** What the tick leaves of one trail: its active points, if any. *)
Definition prune (now : Z) (trailPoints : list TrailPoint) : option (list TrailPoint) :=
  match List.filter (activePoint now) trailPoints with
  | [] => None
  | activePoints => Some activePoints
  end.

(** [clamp(value, min, max)] of the client: [min] unless the value is a
    finite number. *)
Definition clamp (v lo hi : number) : number :=
  match v with
  | Fin _ => Math_min hi (Math_max lo v)
  | _ => lo
  end.

Definition isOpen (st : State) : bool :=
  match ws st with Some OPEN => true | _ => false end.

(** [if (this.clientId)]: the field is [null] or a non-empty string. *)
Definition ownId (st : State) : option jsstring :=
  match clientId st with
  | Some id => if nonEmpty id then Some id else None
  | None => None
  end.

(** [data.clientId === this.clientId] for the id of a message *)
Definition isOwnId (st : State) (id : jsstring) : bool :=
  bool_decide (clientId st = Some id).

(** [ws.send(...)] *)
Definition send (m : Outbound) (st : State) : State :=
  set_sent (sent st ++ [m]) st.

Definition getCurrentSettings (st : State) : Settings := current st.


Definition sendSettingsUpdate (st : State) : State :=
  let st := set_settingsUpdateTimeout None st in
  if negb (isOpen st) then set_settingsUpdateTimeout (Some 320%Z) st
  else
    let settings := getCurrentSettings st in
    let st :=
      match ownId st with
      | Some id => set_userSettings (<[id := settings]> (userSettings st)) st
      | None => st
      end in
    send (SendUpdateSettings settings) st.


(** The socket opens and [ws.onopen] runs. *)
Definition onopen (st : State) : State :=
  sendSettingsUpdate (set_heartbeatInterval true (set_ws (Some OPEN) st)).


(** [Math.sqrt(dx * dx + dy * dy) < this.trailPointSpacing] *)
Definition tooClose (x y : float) (lastPoint : TrailPoint) : bool :=
  let dx := (x - pt_x lastPoint)%float in
  let dy := (y - pt_y lastPoint)%float in
  (PrimFloat.sqrt (dx * dx + dy * dy) <? trailPointSpacing)%float.

(** [draw(e)], with the canvas coordinates of the event and the reading of
    [Date.now()]. *)
Definition draw (x y : float) (now : Z) (st : State) : State :=
  if negb (isDrawing st) then st
  else if match last (trailPoints st) with
          | Some lastPoint => tooClose x y lastPoint
          | None => false
          end
  then st
  else
    let point :=
      mkPoint x y (color (current st)) (size (current st)) (glow (current st)) now in
    let st := set_trailPoints (trailPoints st ++ [point]) st in
    let st :=
      match ownId st with
      | Some id =>
          set_allTrails
            (<[id := default [] (allTrails st !! id) ++ [point]]> (allTrails st)) st
      | None => st
      end in
    if isOpen st then send (SendLightTrail x y (getCurrentSettings st)) st else st.

Definition trackMousePosition (x y : float) (now : Z) (st : State) : State :=
  let st := set_lastMousePosition (Some (x, y)) st in
  if (now - lastMousePositionSent st <? mousePositionThrottle)%Z then st
  else
    let st := set_lastMousePositionSent now st in
    if isOpen st then send (SendMousePosition x y (getCurrentSettings st)) st else st.


Definition getFallbackUsername (clientId : jsstring) : jsstring :=
  if negb (nonEmpty clientId) then str "Stellar"
  else str "Star-" ++ toUpperCase (slice_last 4 clientId).

(** The [sanitized] object of [applyRemoteSettings], which the
    [mousePosition] case builds with the same expressions. *)
Definition remoteSettings (clientId : jsstring) (settings : WireSettings) : Settings :=
  {| color := if nonEmpty (w_color settings) then w_color settings else str "#ffffff";
     size := clamp (nullish (w_size settings) (Fin 1)) (Fin (1 # 2)) (Fin 3);
     glow := clamp (nullish (w_glow settings) (Fin 1)) (Fin (1 # 2)) (Fin 3);
     cursorMode :=
       if strEq (w_cursorMode settings) (str "star") then str "star" else str "halo";
     username :=
       if nonEmpty (w_username settings) && nonEmpty (trim (w_username settings))
       then slice_to 18 (trim (w_username settings))
       else getFallbackUsername clientId |}.

Definition applyRemoteSettings (clientId : jsstring) (settings : WireSettings)
    (now : Z) (st : State) : State :=
  if negb (nonEmpty clientId) || isOwnId st clientId then st
  else
    let sanitized := remoteSettings clientId settings in
    let st := set_userSettings (<[clientId := sanitized]> (userSettings st)) st in
    let updatedCursor :=
      match otherCursors st !! clientId with
      | Some existingCursor =>
          mkCursor (cur_x existingCursor) (cur_y existingCursor) sanitized now
      | None =>
          mkCursor ((viewport st).1 * 0.5)%float ((viewport st).2 * 0.5)%float
                   sanitized now
      end in
    set_otherCursors (<[clientId := updatedCursor]> (otherCursors st)) st.

(** [applyLocalSettingsAck(settings = {})]. [None] is an argument that is
    falsy ([null], [false], [0], the empty string), on which the function
    returns at once; an absent argument is the empty object by the default
    parameter. *)
Definition applyLocalSettingsAck (settings : option WireSettings) (st : State) : State :=
  match settings with
  | None => st
  | Some settings =>
  let cur := current st in
  let cur :=
    {| color := if nonEmpty (w_color settings) then w_color settings else color cur;
       size := match w_size settings with
               | Some n => clamp n (Fin (1 # 2)) (Fin 3)
               | None => size cur
               end;
       glow := match w_glow settings with
               | Some n => clamp n (Fin (1 # 2)) (Fin 3)
               | None => glow cur
               end;
       cursorMode :=
         if strEq (w_cursorMode settings) (str "star")
            || strEq (w_cursorMode settings) (str "halo")
         then w_cursorMode settings else cursorMode cur;
       username :=
         if nonEmpty (trim (w_username settings))
         then slice_to 18 (trim (w_username settings))
         else username cur |} in
  let st := set_current cur st in
  match ownId st with
  | Some id => set_userSettings (<[id := getCurrentSettings st]> (userSettings st)) st
  | None => st
  end
  end.

(** [drawTrail(trail)] for a relayed [lightTrail]: the point of [data.trail]
    with its optional [size] and [glow], and the sender's settings. *)
Definition drawTrail (id : jsstring) (x y : float) (tsize tglow : option number)
    (settings : WireSettings) (now : Z) (st : State) : State :=
  let trailArray := default [] (allTrails st !! id) in
  let point :=
    mkPoint x y (w_color settings)
      (clamp (match tsize with Some n => n | None => nullish (w_size settings) (Fin 1) end)
             (Fin (1 # 2)) (Fin 3))
      (clamp (match tglow with Some n => n | None => nullish (w_glow settings) (Fin 1) end)
             (Fin (1 # 2)) (Fin 3))
      now in
  let trailArray := trailArray ++ [point] in
  let trailArray := if 500 <? length trailArray then tail trailArray else trailArray in
  let st := set_allTrails (<[id := trailArray]> (allTrails st)) st in
  if nonEmpty id && negb (isOwnId st id) then
    let previous := userSettings st !! id in
    let sanitizedUsername :=
      if nonEmpty (w_username settings) then slice_to 18 (trim (w_username settings))
      else [] in
    let or_else (a b : jsstring) := if nonEmpty a then a else b in
    let mergedSettings :=
      {| color := or_else (w_color settings)
                    (or_else (from_option color [] previous) (pt_color point));
         size := clamp (match w_size settings with
                        | Some n => n
                        | None => from_option size (pt_size point) previous
                        end) (Fin (1 # 2)) (Fin 3);
         glow := clamp (match w_glow settings with
                        | Some n => n
                        | None => from_option glow (pt_glow point) previous
                        end) (Fin (1 # 2)) (Fin 3);
         cursorMode :=
           if strEq (w_cursorMode settings) (str "star") then str "star"
           else or_else (from_option cursorMode [] previous) (str "halo");
         username :=
           or_else sanitizedUsername
             (or_else (from_option username [] previous) (getFallbackUsername id)) |} in
    let st := set_userSettings (<[id := mergedSettings]> (userSettings st)) st in
    set_otherCursors (<[id := mkCursor x y mergedSettings now]> (otherCursors st)) st
  else st.

(** A parsed server message, by its [type]. An absent [clientId] is the
    empty string; the settings objects are those the server sends.
    [MeteorShower] is the one type whose handler, [startMeteorShower], arms
    timers: one [window.setTimeout] per streak of the animation, which
    touch the page only. *)
Inductive Message :=
| Welcome (id : jsstring) (clientCount : nat) (settings : option WireSettings)
          (allSettings : list (jsstring * WireSettings))
| LightTrail (id : jsstring) (x y : float) (tsize tglow : option number)
             (settings : WireSettings)
| MousePosition (id : jsstring) (x y : float) (settings : WireSettings) (time : Z)
| Clear
| ClientJoined (id : jsstring) (clientCount : nat) (settings : option WireSettings)
| UserSettings (id : jsstring) (settings : WireSettings)
| SettingsAck (settings : WireSettings)
| ClientLeft (id : jsstring) (clientCount : nat)
| Pong
| Error
| MeteorShower
| Unknown.

Definition handleMessage (data : Message) (now : Z) (st : State) : State :=
  match data with
  | Welcome id clientCount settings allSettings =>
      let st :=
        if nonEmpty id then
          set_userSettings (<[id := getCurrentSettings st]> (userSettings st))
            (set_clientId (Some id) st)
        else st in
      let st := set_latestClientCount clientCount st in
      let st :=
        match settings with
        | Some s => applyLocalSettingsAck (Some s) st
        | None => st
        end in
      let st :=
        foldl (fun st entry => applyRemoteSettings entry.1 entry.2 now st) st allSettings in
      sendSettingsUpdate st
  | LightTrail id x y tsize tglow settings =>
      drawTrail id x y tsize tglow settings now st
  | MousePosition id x y settings time =>
      if nonEmpty id && negb (isOwnId st id) then
        let entrySettings := remoteSettings id settings in
        let cursorEntry :=
          mkCursor x y entrySettings (if (time =? 0)%Z then now else time) in
        set_userSettings (<[id := entrySettings]> (userSettings st))
          (set_otherCursors (<[id := cursorEntry]> (otherCursors st)) st)
      else st
  | Clear =>
      set_otherCursors ∅ (set_allTrails ∅ st)
  | ClientJoined id clientCount settings =>
      let st := set_latestClientCount clientCount st in
      match settings with
      | Some s =>
          if nonEmpty id && negb (isOwnId st id) then applyRemoteSettings id s now st
          else st
      | None => st
      end
  | UserSettings id settings =>
      if isOwnId st id then applyLocalSettingsAck (Some settings) st
      else applyRemoteSettings id settings now st
  | SettingsAck settings => applyLocalSettingsAck (Some settings) st
  | ClientLeft id clientCount =>
      let st :=
        if nonEmpty id then
          set_userSettings (delete id (userSettings st))
            (set_allTrails (delete id (allTrails st))
               (set_otherCursors (delete id (otherCursors st)) st))
        else st in
      set_latestClientCount clientCount st
  | Pong | Error | MeteorShower | Unknown => st
  end.




(** The client as its constructor leaves it, connecting, with a generated
    username. *)
Definition fresh : State :=
  mkState (Some CONNECTING) [] None false None
    (mkSettings (str "#ff6b6b") (Fin 1) (Fin (6 # 5)) (str "halo") (str "Nova-123"))
    ∅ ∅ ∅ false [] None 0 0 (1280%float, 720%float).

(** A trail point created at time [t]. *)
Definition point_at (t : Z) : TrailPoint :=
  mkPoint 10%float 10%float (str "#ff6b6b") (Fin 1) (Fin (6 # 5)) t.

(** A client whose store holds one remote trail of one point, created at
    time 0. *)
Definition one_point : State :=
  set_allTrails {[ str "client_a" := [point_at 0] ]} fresh.

(** A painter for the examples: painting throws on a trail with a point of
    the colour [bad] and returns on the others. *)
Definition paintsUnless (bad : jsstring) : Painter :=
  fun _ activePoints _ =>
    negb (existsb (fun point => strEq (pt_color point) bad) activePoints).

(** The one-point store after two trail points of "client_b" arrived at
    times 3900 and 3950 with the colour "xyz", which the server relays as
    it is. On that colour [hexToRgb] yields NaN three times,
    [getGradientColors] builds "rgb(NaN, NaN, NaN)" and [parseRgb], called
    by [blendColors] for the segment between the two points, reads
    [matches[0]] of [null]. *)
Definition two_trails : State :=
  set_allTrails
    {[ str "client_a" := [point_at 0];
       str "client_b" :=
         [ mkPoint 20%float 20%float (str "xyz") (Fin 1) (Fin 1) 3900;
           mkPoint 30%float 30%float (str "xyz") (Fin 1) (Fin 1) 3950 ] ]}
    fresh.

(** The user holds the button down on a connecting client, moves the mouse,
    then picks the star cursor. *)
Definition drawing : State := set_isDrawing true fresh.


(** A connected client, welcomed as "client_me", that has drawn one point
    and received one trail point of "client_b". *)
Definition busy : State :=
  let st := handleMessage (Welcome (str "client_me") 2 None []) 0 (onopen fresh) in
  let st := draw 10%float 10%float 100 (set_isDrawing true st) in
  handleMessage
    (LightTrail (str "client_b") 50%float 60%float None None (toWire DEFAULT_SETTINGS))
    120 st.

(** [point] belongs to the trail of [id]. *)
Definition inTrail (st : State) (id : jsstring) (point : TrailPoint) : Prop :=
  exists trailPoints, allTrails st !! id = Some trailPoints /\ In point trailPoints.

(** The decay curve as the specification words it: opacity
    [1 - (age/fadeDuration)^2] clamped to [0, 1], a point staying while its
    age is below the fade duration and this opacity is above the floor. *)
Definition spec_opacity (age : Z) : float :=
  let r := (number_of_Z age / number_of_Z trailFadeTime)%float in
  let o := (1 - r * r)%float in
  if (o <? 0)%float then 0%float else if (1 <? o)%float then 1%float else o.

Definition spec_activePoint (now : Z) (point : TrailPoint) : bool :=
  let age := (now - timestamp point)%Z in
  (age <? trailFadeTime)%Z && (minAlpha <? spec_opacity age)%float.

End Client.

(** ** Vocabulary for the further properties *)

Module Protocol.
Import JsString JsValue Server Client.

(** A settings record with every field in range. *)
Definition validSettings (s : Settings) : Prop :=
  color s <> [] /\
  within (1 # 2) 3 (size s) /\
  within (1 # 2) 3 (glow s) /\
  (cursorMode s = str "halo" \/ cursorMode s = str "star") /\
  length (username s) <= 18.

(** A valid record that sanitizing has nothing to do on: colour and
    username carry no outer white space and the username is not empty. *)
Definition normalSettings (s : Settings) : Prop :=
  validSettings s /\ trimmed (color s) /\ trimmed (username s) /\ username s <> [].

(** No trail of the store is longer than the cap of [drawTrail]. *)
Definition capped (st : State) : Prop :=
  map_Forall (fun _ trailPoints => length trailPoints <= 500) (allTrails st).

(** No point of the store is stamped after [t]. *)
Definition stampedBy (t : Z) (st : State) : Prop :=
  map_Forall (fun _ trailPoints => Forall (fun p => (timestamp p <= t)%Z) trailPoints)
             (allTrails st).

(** The membership and settings events of the server as the client parses
    them: [JSON.parse] of [JSON.stringify]. *)
Definition decode (e : ServerEvent) : option Message :=
  match e with
  | EvClientJoined id n s => Some (ClientJoined id n (Some (toWire s)))
  | EvClientLeft id n => Some (ClientLeft (default [] id) n)
  | EvUserSettings id s => Some (UserSettings id (toWire s))
  | _ => None
  end.

(** The messages that may touch the local user's own settings: the
    welcome, an acknowledgement, and a [userSettings] carrying the client's
    own identity. *)
Definition addressesSelf (st : State) (data : Message) : bool :=
  match data with
  | Welcome _ _ _ _ | SettingsAck _ => true
  | UserSettings id _ => isOwnId st id
  | _ => false
  end.

(** Mouse moves over the canvas, each with its coordinates and the clock
    reading [trackMousePosition] takes. *)
Definition mouseMoves (moves : list (float * float * Z)) (st : State) : State :=
  foldl (fun st m => trackMousePosition m.1.1 m.1.2 m.2 st) st moves.

(** Mouse moves while the button is held, each with its coordinates and
    the clock reading [draw] takes. *)
Definition strokes (moves : list (float * float * Z)) (st : State) : State :=
  foldl (fun st m => draw m.1.1 m.1.2 m.2 st) st moves.

(** The [lightTrail] message [draw] sends for a point. *)
Definition pointMessage (s : Settings) (p : TrailPoint) : Outbound :=
  SendLightTrail (pt_x p) (pt_y p) s.

(** [broadcast] gets a message through to [w]: the connection is not the
    sender, its socket is open and its transport accepts the send. *)
Definition reaches (st : ServerState) (sender w : conn) : bool :=
  match sockets st !! w with
  | Some sock =>
      bool_decide (w <> sender) && isOPEN (readyState sock) && negb (sendThrows sock)
  | None => false
  end.

(** What one run of the heartbeat does to a socket it visits. *)
Definition probed (sock : Socket) : Socket :=
  if isAlive sock
  then mkSocket (readyState sock) false (sendThrows sock) (received sock)
                (failedSends sock)
  else mkSocket CLOSING false (sendThrows sock) (received sock) (failedSends sock).

End Protocol.

(** ** The server: connections and messages *)

Module Handlers.
Import JsString JsValue Server Protocol.

(** What the server sends to one connection alone, outside [broadcast]:
    the welcome with the snapshot of the others' settings, the settings
    acknowledgement, the answer to a ping, and the error report. *)
Inductive Reply :=
| RWelcome (clientId : jsstring) (clientCount : nat) (settings : Settings)
           (allSettings : list (jsstring * Settings))
| RSettingsAck (settings : Settings)
| RPong (time : Z)
| RError.

(** A text message that [JSON.parse] read, by its [type]. The settings
    properties are read off the message object itself. *)
Inductive ClientMessage :=
| MsgUpdateSettings (data : RawSettings)
| MsgLightTrail (trail : value) (data : RawSettings)
| MsgPing
| MsgClear
| MsgMousePosition (x y : value) (data : RawSettings)
| MsgOther.

(** What the [message] event carries: a binary frame, a text on which
    [JSON.parse] or the read of [data.type] throws, or a parsed message. *)
Inductive Inbound :=
| Binary
| Malformed
| Parsed (data : ClientMessage).

(** The server with what the handlers of each connection close over.
    [infos] holds the [clientInfo] object of every connection made, the same
    object the registry holds while the connection is registered; [order]
    lists the connections in the order they were added to the registry,
    which is the order [clients.forEach] visits those still in it;
    [replies] lists the direct sends each connection accepted, oldest
    first. *)
Record Hub := mkHub {
  server : ServerState;
  infos : gmap conn ClientInfo;
  order : list conn;
  replies : gmap conn (list Reply)
}.

Definition noHub : Hub := mkHub (mkServer ∅ [] ∅ []) ∅ [] ∅.

Definition onServer (f : ServerState -> ServerState) (hub : Hub) : Hub :=
  mkHub (f (server hub)) (infos hub) (order hub) (replies hub).

Definition withSettings (s : Settings) (info : ClientInfo) : ClientInfo :=
  mkInfo (info_id info) s.

(** An assignment to [metadata.settings] of the [clientInfo] object of
    [ws]: seen through the closure and through the registry. *)
Definition storeSettings (ws : conn) (s : Settings) (hub : Hub) : Hub :=
  mkHub (set_clients (alter (withSettings s) ws (clients (server hub))) (server hub))
        (alter (withSettings s) ws (infos hub)) (order hub) (replies hub).

(** The direct sends [ws] accepted so far. *)
Definition repliesTo (hub : Hub) (ws : conn) : list Reply :=
  default [] (replies hub !! ws).

(** [ws.send(JSON.stringify(r))] outside any [try] of its own: the hub
    afterwards, and whether the call threw. A handler runs for a [ws]
    object only, so the last case does not occur. *)
Definition reply (ws : conn) (r : Reply) (hub : Hub) : Hub * bool :=
  match sockets (server hub) !! ws with
  | Some sock =>
      if sendThrows sock then
        (onServer (fun st => set_sockets (<[ws := reject sock]> (sockets st)) st) hub,
         true)
      else
        (mkHub (server hub) (infos hub) (order hub)
               (<[ws := repliesTo hub ws ++ [r]]> (replies hub)),
         false)
  | None => (hub, false)
  end.

(** [broadcast(data, sender)] as a statement: the count is dropped. *)
Definition announce (data : ServerEvent) (sender : conn) (hub : Hub) : Hub :=
  onServer (fun st => (broadcast data sender st).1) hub.

(** The [catch] block of the message handler. [None]: the exception of its
    own send leaves the handler. *)
Definition onError (ws : conn) (hub : Hub) : option Hub :=
  match sockets (server hub) !! ws with
  | Some sock =>
      if isOPEN (readyState sock) then
        let r := reply ws RError hub in
        if r.2 then None else Some r.1
      else Some hub
  | None => Some hub
  end.

(** [ws.on('message')] of the connection [ws] at the clock reading [now].
    [None]: an exception leaves the handler. The [clientInfo] and
    [clientId] the handler closes over are those of [infos]; they stay in
    use after the registry dropped the connection. A connection that was
    never made has no handler. *)
Definition onMessage (ws : conn) (message : Inbound) (now : Z) (hub : Hub)
    : option Hub :=
  match infos hub !! ws with
  | None => Some hub
  | Some clientInfo =>
      let clientId := info_id clientInfo in
      match message with
      | Binary => Some hub
      | Malformed => onError ws hub
      | Parsed (MsgUpdateSettings data) =>
          let previousSettings := info_settings clientInfo in
          let sanitizedSettings :=
            sanitizeSettings data (as_fallback previousSettings) in
          let hub := storeSettings ws sanitizedSettings hub in
          let r := reply ws (RSettingsAck sanitizedSettings) hub in
          if r.2 then onError ws r.1
          else Some (announce (EvUserSettings clientId sanitizedSettings) ws r.1)
      | Parsed (MsgLightTrail trail data) =>
          let sanitizedSettings :=
            sanitizeSettings data (as_fallback (info_settings clientInfo)) in
          let hub := storeSettings ws sanitizedSettings hub in
          Some (announce (EvLightTrail trail clientId sanitizedSettings now) ws hub)
      | Parsed MsgPing =>
          let r := reply ws (RPong now) hub in
          if r.2 then onError ws r.1 else Some r.1
      | Parsed MsgClear => Some (announce (EvClear clientId now) ws hub)
      | Parsed (MsgMousePosition x y data) =>
          let sanitizedSettings :=
            sanitizeSettings data (as_fallback (info_settings clientInfo)) in
          let hub := storeSettings ws sanitizedSettings hub in
          Some (announce (EvMousePosition x y clientId sanitizedSettings now) ws hub)
      | Parsed MsgOther => Some hub
      end
  end.

(** The object [{}]. *)
Definition noSettings : RawSettings :=
  mkRaw VUndefined VUndefined VUndefined VUndefined VUndefined.

(** What the snapshot loop stores for, and reports of, a registered
    [clientInfo]. *)
Definition resanitized (info : ClientInfo) : Settings :=
  sanitizeSettings (as_raw (info_settings info)) (as_fallback DEFAULT_SETTINGS).

(** The body of the snapshot loop of the connection handler. *)
Definition snapshotOne (clientId : jsstring)
    (acc : Hub * list (jsstring * Settings)) (w : conn)
    : Hub * list (jsstring * Settings) :=
  match clients (server acc.1) !! w with
  | Some info =>
      if strEq (info_id info) clientId then acc
      else
        (storeSettings w (resanitized info) acc.1,
         acc.2 ++ [(info_id info, resanitized info)])
  | None => acc
  end.

(** The library made the [ws] object: open, tracked, [isAlive] not set. *)
Definition arrive (ws : conn) (throws : bool) (st : ServerState) : ServerState :=
  set_tracked (tracked st ++ [ws])
    (set_sockets (<[ws := mkSocket OPEN false throws [] 0]> (sockets st)) st).

(** [wss.on('connection')] for the new object [ws], whose transport throws
    on a send or not, with the identity [generateClientId] returned.
    [None]: the exception of the welcome send leaves the handler. *)
Definition onConnection (ws : conn) (throws : bool) (clientId : jsstring)
    (hub : Hub) : option Hub :=
  let clientInfo :=
    mkInfo clientId (sanitizeSettings noSettings (as_fallback DEFAULT_SETTINGS)) in
  let st := arrive ws throws (server hub) in
  let st := set_clients (<[ws := clientInfo]> (clients st)) st in
  let st := set_sockets (<[ws := mkSocket OPEN true throws [] 0]> (sockets st)) st in
  let hub := mkHub st (<[ws := clientInfo]> (infos hub)) (order hub ++ [ws])
                   (replies hub) in
  let loop := foldl (snapshotOne clientId) (hub, []) (order hub) in
  let clientCount := base.size (clients (server loop.1)) in
  let r := reply ws (RWelcome clientId clientCount (info_settings clientInfo) loop.2)
                 loop.1 in
  if r.2 then None
  else Some (announce (EvClientJoined clientId clientCount (info_settings clientInfo))
                      ws r.1).

(** What happens to the server. *)
Inductive Input :=
| Connection (ws : conn) (throws : bool) (clientId : jsstring)
| Incoming (ws : conn) (message : Inbound) (now : Z)
| PongFrame (ws : conn)
| Closed (ws : conn)
| HeartbeatDue.

Definition step (hub : Hub) (i : Input) : option Hub :=
  match i with
  | Connection ws throws clientId => onConnection ws throws clientId hub
  | Incoming ws message now => onMessage ws message now hub
  | PongFrame ws => Some (onServer (on_pong ws) hub)
  | Closed ws =>
      Some (onServer
              (fun st =>
                 set_closing (List.filter (fun w => negb (w =? ws)) (closing st))
                             (closeEvent st ws))
              hub)
  | HeartbeatDue => Some (onServer heartbeat hub)
  end.

(** The server after the inputs, in order, unless an exception left a
    handler. *)
Definition run (inputs : list Input) (hub : Hub) : option Hub :=
  foldl (fun acc i => acc ≫= fun hub => step hub i) (Some hub) inputs.

(** A number [JSON.parse] can produce: any but NaN. *)
Definition parsedSettings (data : RawSettings) : Prop :=
  raw_size data <> VNum NaN /\ raw_glow data <> VNum NaN.

Definition parsedMessage (message : Inbound) : Prop :=
  match message with
  | Parsed (MsgUpdateSettings data) | Parsed (MsgLightTrail _ data)
  | Parsed (MsgMousePosition _ _ data) => parsedSettings data
  | _ => True
  end.

Definition parsedInput (i : Input) : Prop :=
  match i with
  | Incoming _ message _ => parsedMessage message
  | _ => True
  end.

Definition validEvent (e : ServerEvent) : Prop :=
  match e with
  | EvClientJoined _ _ s | EvUserSettings _ s | EvLightTrail _ _ s _
  | EvMousePosition _ _ _ s _ => validSettings s
  | _ => True
  end.

Definition validReply (r : Reply) : Prop :=
  match r with
  | RWelcome _ _ s allSettings =>
      validSettings s /\ Forall (fun e => validSettings e.2) allSettings
  | RSettingsAck s => validSettings s
  | _ => True
  end.

(** Every settings record of the registry, and of every message a socket
    accepted from [broadcast], is in range. *)
Definition validServer (st : ServerState) : Prop :=
  map_Forall (fun _ info => validSettings (info_settings info)) (clients st) /\
  map_Forall (fun _ sock => Forall validEvent (received sock)) (sockets st).

(** Every settings record the server holds, has fanned out or has sent to
    one connection is in range. *)
Definition validHub (hub : Hub) : Prop :=
  map_Forall (fun _ info => validSettings (info_settings info)) (infos hub) /\
  validServer (server hub) /\
  map_Forall (fun _ l => Forall validReply l) (replies hub).

(** What handling a message of [ws] may change. Nothing of another
    connection's direct replies or [clientInfo]; no registration; not what
    the socket of [ws] received from [broadcast], not the identity of [ws],
    not the order, the tracking or the pending [close] events. *)
Definition confined (ws : conn) (hub hub' : Hub) : Prop :=
  (forall w, w <> ws ->
     repliesTo hub' w = repliesTo hub w /\ infos hub' !! w = infos hub !! w) /\
  (forall w info, w <> ws ->
     clients (server hub') !! w = Some info -> clients (server hub) !! w = Some info) /\
  received <$> sockets (server hub') !! ws = received <$> sockets (server hub) !! ws /\
  info_id <$> infos hub' !! ws = info_id <$> infos hub !! ws /\
  info_id <$> clients (server hub') !! ws = info_id <$> clients (server hub) !! ws /\
  order hub' = order hub /\
  tracked (server hub') = tracked (server hub) /\
  closing (server hub') = closing (server hub).

(** The snapshot the welcome carries when no registered identity equals
    the newcomer's: one entry for each registered connection, in the order
    of the registry. *)
Definition snapshotOf (hub : Hub) : list (jsstring * Settings) :=
  omap (fun w => (fun info => (info_id info, resanitized info))
                   <$> clients (server hub) !! w)
       (order hub).

(** The [clientInfo] of a registered connection once the snapshot loop has
    visited it, and its entry in the snapshot, if any. *)
Definition snapshotStored (clientId : jsstring) (info : ClientInfo) : ClientInfo :=
  if strEq (info_id info) clientId then info
  else withSettings (resanitized info) info.

Definition snapshotEntry (clientId : jsstring) (info : ClientInfo)
    : option (jsstring * Settings) :=
  if strEq (info_id info) clientId then None
  else Some (info_id info, resanitized info).

(** The registry and its order agree: no connection is listed twice and
    every registered connection is listed. *)
Definition ordered (hub : Hub) : Prop :=
  NoDup (order hub) /\
  map_Forall (fun w _ => w ∈ order hub) (clients (server hub)).

(** A direct reply as the client parses it. *)
Definition decodeReply (r : Reply) : Client.Message :=
  match r with
  | RWelcome id n s allSettings =>
      Client.Welcome id n (Some (Client.toWire s))
                     (map (fun e => (e.1, Client.toWire e.2)) allSettings)
  | RSettingsAck s => Client.SettingsAck (Client.toWire s)
  | RPong _ => Client.Pong
  | RError => Client.Error
  end.

(** No transport of the server throws on a send. *)
Definition allWork (st : ServerState) : Prop :=
  map_Forall (fun _ sock => sendThrows sock = false) (sockets st).

(** No connection comes with a transport that throws on a send. *)
Definition reliable (inputs : list Input) : Prop :=
  Forall (fun i => match i with Connection _ throws _ => throws = false | _ => True end)
         inputs.

(** Two connections; a settings update whose size overflows, a trail point
    with a padded username, a text that is not JSON, a ping; two heartbeats
    of which connection 1 answers the first; the close of connection 2. *)
Definition session : list Input :=
  [ Connection 1 false (str "client_a");
    Connection 2 false (str "client_b");
    Incoming 1 (Parsed (MsgUpdateSettings overflow_size_message)) 1000;
    Incoming 2 (Parsed (MsgLightTrail VObject padded_username_message)) 1100;
    Incoming 2 Malformed 1200;
    Incoming 1 (Parsed MsgPing) 1300;
    HeartbeatDue;
    PongFrame 1;
    HeartbeatDue;
    Closed 2 ].

(** One registered connection with settings of its own. *)
Definition one_client : Hub :=
  mkHub (mkServer {[ 1 := open_socket true false ]} [1]
                  {[ 1 := mkInfo (str "client_a")
                                 (mkSettings (str "#00ff00") (Fin 2) (Fin 1)
                                             (str "star") (str "ann")) ]}
                  [])
        {[ 1 := mkInfo (str "client_a")
                       (mkSettings (str "#00ff00") (Fin 2) (Fin 1)
                                   (str "star") (str "ann")) ]}
        [1]
        ∅.

End Handlers.

(** * Theorems *)

(** ** Facts about strings *)

Module JsStringFacts.
Import JsString.

Lemma nonEmpty_true (s : jsstring) : nonEmpty s = true <-> s <> [].
Proof. destruct s; simpl; split; congruence. Qed.

Lemma nonEmpty_false (s : jsstring) : nonEmpty s = false <-> s = [].
Proof. destruct s; simpl; split; congruence. Qed.

Lemma trimStart_idem (s : jsstring) : trimStart (trimStart s) = trimStart s.
Proof.
  induction s as [|c s IH]; simpl; [done|].
  destruct (isWhiteSpace c) eqn:E; [done|]. simpl. by rewrite E.
Qed.

Lemma trimStart_length (s : jsstring) : length (trimStart s) <= length s.
Proof.
  induction s as [|c s IH]; simpl; [lia|].
  destruct (isWhiteSpace c); simpl; lia.
Qed.

(** What [trimStart] leaves starts with a visible character. *)
Lemma trimStart_head (s : jsstring) c t :
  trimStart s = c :: t -> isWhiteSpace c = false.
Proof.
  induction s as [|d s IH]; simpl; [done|].
  destruct (isWhiteSpace d) eqn:E; [done|]. congruence.
Qed.

Lemma trimStart_visible c (s : jsstring) :
  isWhiteSpace c = false -> trimStart (c :: s) = c :: s.
Proof. intros E. simpl. by rewrite E. Qed.

Lemma trimEnd_length (s : jsstring) : length (trimEnd s) <= length s.
Proof.
  unfold trimEnd. rewrite length_rev.
  etransitivity; [apply trimStart_length|]. by rewrite length_rev.
Qed.

Lemma trim_length (s : jsstring) : length (trim s) <= length s.
Proof.
  unfold trim. etransitivity; [apply trimEnd_length|apply trimStart_length].
Qed.

(** Stripping the end does not touch a visible first character. *)
Lemma trimEnd_cons_visible c (s : jsstring) :
  isWhiteSpace c = false -> exists t, trimEnd (c :: s) = c :: t.
Proof.
  intros E. unfold trimEnd. simpl.
  induction (rev s) as [|d r IH]; simpl.
  - rewrite E. simpl. by eexists.
  - destruct (isWhiteSpace d).
    + exact IH.
    + simpl. rewrite rev_app_distr. simpl. by eexists.
Qed.

Lemma trimEnd_trimStart_fix (s : jsstring) :
  trimStart (trimEnd (trimStart s)) = trimEnd (trimStart s).
Proof.
  destruct (trimStart s) as [|c t] eqn:E; [done|].
  pose proof (trimStart_head _ _ _ E) as Hc.
  destruct (trimEnd_cons_visible c t Hc) as [t' ->].
  by apply trimStart_visible.
Qed.

Lemma trimEnd_idem (s : jsstring) : trimEnd (trimEnd s) = trimEnd s.
Proof.
  unfold trimEnd. rewrite rev_involutive. by rewrite trimStart_idem.
Qed.

(** [trim] is idempotent. *)
Lemma trim_idem (s : jsstring) : trim (trim s) = trim s.
Proof.
  unfold trim. rewrite trimEnd_trimStart_fix. apply trimEnd_idem.
Qed.

Lemma trim_nil : trim [] = [].
Proof. reflexivity. Qed.

(** A non-empty trimmed string starts with a visible character. *)
Lemma trim_head (s : jsstring) c t :
  trim s = c :: t -> isWhiteSpace c = false.
Proof.
  unfold trim. intros H.
  destruct (trimStart s) as [|d u] eqn:E; [done|].
  pose proof (trimStart_head _ _ _ E) as Hd.
  destruct (trimEnd_cons_visible d u Hd) as [u' Hu].
  rewrite Hu in H. congruence.
Qed.

(** A string that starts with a visible character keeps it under [trim],
    so its trim is not empty. *)
Lemma trim_cons_visible c (s : jsstring) :
  isWhiteSpace c = false -> exists t, trim (c :: s) = c :: t.
Proof.
  intros E. unfold trim. rewrite (trimStart_visible _ _ E).
  by apply trimEnd_cons_visible.
Qed.

(** A prefix of a trimmed string, when not empty, has a non-empty trim. *)
Lemma trim_slice_nonempty n (s : jsstring) :
  trim s <> [] -> n <> 0 -> trim (slice_to n (trim s)) <> [].
Proof.
  intros Hs Hn. unfold slice_to. destruct (trim s) as [|c t] eqn:E; [done|].
  destruct n as [|n]; [done|]. simpl.
  destruct (trim_cons_visible c (take n t) (trim_head _ _ _ E)) as [t' ->].
  done.
Qed.

Lemma slice_to_length n (s : jsstring) : length (slice_to n s) <= n.
Proof. unfold slice_to. rewrite length_take. lia. Qed.

Lemma slice_to_short n (s : jsstring) : length s <= n -> slice_to n s = s.
Proof. intros H. unfold slice_to. by apply take_ge. Qed.

Lemma slice_to_long n (s : jsstring) :
  n <= length s -> length (slice_to n s) = n.
Proof. intros H. unfold slice_to. rewrite length_take. lia. Qed.

End JsStringFacts.

(** ** Facts about [sanitizeSettings] *)

Module SettingsFacts.
Import JsString JsValue Server JsStringFacts.

(** The bounds of size and glow, 0.5 and 3. *)
Abbreviation lo := (Fin (1 # 2)).
Abbreviation hi := (Fin 3).

Lemma Qle_bool_false (p q : Q) : Qle_bool p q = false -> (q <= p)%Q.
Proof.
  intros H. apply Qlt_le_weak, Qnot_le_lt. intros Hle.
  apply Qle_bool_iff in Hle. congruence.
Qed.

Ltac qconst := unfold Qle; simpl; lia.

(** Every number but NaN is clamped into [0.5, 3]. *)
Lemma clamp_within (v : number) : v <> NaN -> within (1 # 2) 3 (clamp v lo hi).
Proof.
  intros Hv. destruct v as [| | |q]; try done; unfold clamp, within; simpl.
  destruct (Qle_bool (1 # 2) q) eqn:E1; simpl.
  - destruct (Qle_bool q 3) eqn:E2; simpl.
    + split; by apply Qle_bool_iff.
    + split; qconst.
  - split; qconst.
Qed.

(** A number already in [0.5, 3] is left as it is. *)
Lemma clamp_fixed (v : number) : within (1 # 2) 3 v -> clamp v lo hi = v.
Proof.
  destruct v as [| | |q]; try done. intros [H1 H2]. unfold clamp. simpl.
  apply Qle_bool_iff in H1, H2. rewrite H1. simpl. by rewrite H2.
Qed.

(** [clamp] is idempotent, NaN included. *)
Lemma clamp_idem (v : number) : clamp (clamp v lo hi) lo hi = clamp v lo hi.
Proof.
  destruct v as [| | |q]; try done.
  by apply clamp_fixed, clamp_within.
Qed.

(** Outside the range the result is the nearest bound. *)
Lemma clamp_nearest (q : Q) :
  ((q < 1 # 2)%Q -> clamp (Fin q) lo hi = lo) /\
  ((3 < q)%Q -> clamp (Fin q) lo hi = hi).
Proof.
  unfold clamp; simpl; split; intros H.
  - destruct (Qle_bool (1 # 2) q) eqn:E1; simpl; [|reflexivity].
    apply Qle_bool_iff in E1. exfalso. by apply (Qlt_not_le _ _ H).
  - destruct (Qle_bool (1 # 2) q) eqn:E1; simpl.
    + destruct (Qle_bool q 3) eqn:E2; [|reflexivity].
      apply Qle_bool_iff in E2. exfalso. by apply (Qlt_not_le _ _ H).
    + apply Qle_bool_false in E1. exfalso. apply (Qlt_not_le _ _ H).
      eapply Qle_trans; [exact E1|qconst].
Qed.

Lemma usableString_spec (v : value) (t : jsstring) :
  usableString v = Some t ->
  exists s, v = VStr s /\ t = trim s /\ t <> [].
Proof.
  destruct v as [| | | |s|]; simpl; try done.
  destruct (nonEmpty (trim s)) eqn:E; [|done].
  intros [= <-]. exists s. split; [done|]. split; [done|].
  by apply nonEmpty_true.
Qed.

(** The colour of a sanitized record is never empty. *)
Lemma sanitized_color_nonempty raw fb : color (sanitizeSettings raw fb) <> [].
Proof.
  unfold sanitizeSettings; simpl.
  destruct (usableString (raw_color raw)) as [c|] eqn:E.
  - by destruct (usableString_spec _ _ E) as (s & _ & _ & ?).
  - destruct (nonEmpty (fb_color fb)) eqn:En; [by apply nonEmpty_true|done].
Qed.

Lemma sanitized_cursorMode raw fb :
  cursorMode (sanitizeSettings raw fb) = str "halo" \/
  cursorMode (sanitizeSettings raw fb) = str "star".
Proof.
  unfold sanitizeSettings; simpl.
  repeat match goal with
         | |- context [match ?x with _ => _ end] => destruct x
         end; auto.
Qed.

Lemma sanitized_username_length raw fb :
  length (username (sanitizeSettings raw fb)) <= 18.
Proof.
  unfold sanitizeSettings; cbn [username].
  destruct (usableString (raw_username raw)); [apply slice_to_length|].
  match goal with |- context [if ?b then _ else _] => destruct b end;
    [apply slice_to_length|simpl; lia].
Qed.


(** The first pass leaves a username that is empty or has a visible first
    character. *)
Lemma sanitized_username_visible raw fb :
  username (sanitizeSettings raw fb) <> [] ->
  trim (username (sanitizeSettings raw fb)) <> [].
Proof.
  unfold sanitizeSettings; cbn [username].
  destruct (usableString (raw_username raw)) as [t|] eqn:E.
  - destruct (usableString_spec _ _ E) as (s & _ & -> & Hne).
    intros _. by apply trim_slice_nonempty.
  - destruct (nonEmpty (fb_username fb) && nonEmpty (trim (fb_username fb))) eqn:Ec;
      [|done].
    apply andb_true_iff in Ec as [_ Ec]. apply nonEmpty_true in Ec.
    intros _. by apply trim_slice_nonempty.
Qed.

(** Second pass, colour: the first colour trimmed, unless that is blank. *)
Lemma resanitize_color raw fb :
  color (sanitizeSettings (as_raw (sanitizeSettings raw fb)) fb) =
  if nonEmpty (trim (color (sanitizeSettings raw fb)))
  then trim (color (sanitizeSettings raw fb))
  else color (sanitizeSettings raw fb).
Proof.
  set (r := sanitizeSettings raw fb).
  unfold sanitizeSettings at 1. cbn [color as_raw raw_color usableString].
  destruct (nonEmpty (trim (color r))) eqn:E; [done|].
  subst r. revert E. unfold sanitizeSettings. cbn [color].
  destruct (usableString (raw_color raw)) as [c|] eqn:Ec; [|done].
  destruct (usableString_spec _ _ Ec) as (s & _ & -> & Hne).
  rewrite trim_idem. apply nonEmpty_true in Hne. congruence.
Qed.

(** Second pass, username: the first username trimmed. *)
Lemma resanitize_username raw fb :
  username (sanitizeSettings (as_raw (sanitizeSettings raw fb)) fb) =
  trim (username (sanitizeSettings raw fb)).
Proof.
  pose proof (sanitized_username_visible raw fb) as Hvis.
  pose proof (sanitized_username_length raw fb) as Hlen.
  set (r := sanitizeSettings raw fb) in *.
  unfold sanitizeSettings at 1. cbn [username as_raw raw_username usableString].
  destruct (nonEmpty (trim (username r))) eqn:E.
  - apply slice_to_short. etransitivity; [apply trim_length|done].
  - apply nonEmpty_false in E.
    assert (Hu : username r = []).
    { destruct (username r) as [|c u] eqn:Eu; [done|]. by destruct Hvis. }
    rewrite Hu. rewrite trim_nil. revert Hu. subst r.
    unfold sanitizeSettings. cbn [username].
    destruct (usableString (raw_username raw)) as [t|] eqn:Et; [|done].
    destruct (usableString_spec _ _ Et) as (s & _ & -> & Hne).
    intros Hu. exfalso. apply (trim_slice_nonempty 18 s); [done..|].
    by rewrite Hu.
Qed.

(** Second pass, numbers and cursor mode: unchanged. *)
Lemma resanitize_size raw fb :
  size (sanitizeSettings (as_raw (sanitizeSettings raw fb)) fb) =
  size (sanitizeSettings raw fb).
Proof. unfold sanitizeSettings. cbn. apply clamp_idem. Qed.

Lemma resanitize_glow raw fb :
  glow (sanitizeSettings (as_raw (sanitizeSettings raw fb)) fb) =
  glow (sanitizeSettings raw fb).
Proof. unfold sanitizeSettings. cbn. apply clamp_idem. Qed.

Lemma resanitize_cursorMode raw fb :
  cursorMode (sanitizeSettings (as_raw (sanitizeSettings raw fb)) fb) =
  cursorMode (sanitizeSettings raw fb).
Proof.
  destruct (sanitized_cursorMode raw fb) as [E|E];
    unfold sanitizeSettings at 1;
    cbn [cursorMode as_raw raw_cursorMode]; by rewrite E.
Qed.

Lemma settings_eq (a b : Settings) :
  a = b <->
  color a = color b /\ size a = size b /\ glow a = glow b /\
  cursorMode a = cursorMode b /\ username a = username b.
Proof.
  split; [by intros ->|].
  destruct a, b; simpl. intros (-> & -> & -> & -> & ->). done.
Qed.


(** *** The record invariant *)

(** C1, counterexample. The message [{"size": 1e999}] carries [Infinity],
    which is not a finite number; by the specification's rule the size would
    be the fallback's value (1 for the default record), while
    [sanitizeSettings] tests [typeof settings.size === 'number'], keeps the
    raw value and clamps it to 3. *)
Lemma sanitizeSettings_keeps_infinite_size :
  size (sanitizeSettings overflow_size_message (as_fallback DEFAULT_SETTINGS)) = Fin 3 /\
  spec_numeric (raw_size overflow_size_message)
               (fb_size (as_fallback DEFAULT_SETTINGS)) (size DEFAULT_SETTINGS) = Fin 1 /\
  size (sanitizeSettings overflow_size_message (as_fallback DEFAULT_SETTINGS)) <>
  spec_numeric (raw_size overflow_size_message)
               (fb_size (as_fallback DEFAULT_SETTINGS)) (size DEFAULT_SETTINGS).
Proof. repeat split; [reflexivity..|discriminate]. Qed.

(** The raw number NaN, which no JSON text denotes, passes the [typeof]
    test and comes out as NaN. *)
Example sanitizeSettings_nan_size :
  size (sanitizeSettings
          (mkRaw VUndefined (VNum NaN) VUndefined VUndefined VUndefined)
          (as_fallback DEFAULT_SETTINGS)) = NaN.
Proof. reflexivity. Qed.

(** C1, as amended. For every raw input and every fallback whose numbers
    are not NaN, [sanitizeSettings] returns a record with every field in
    range: a non-empty colour, size and glow finite and within [0.5, 3],
    cursor mode "halo" or "star", a username of at most 18 code units. A raw
    size or glow of type number (the infinities included) is clamped itself;
    one of any other type gives way to the fallback's value, else to the
    default (1 for size, 1.2 for glow), which is then clamped. *)
Theorem sanitizeSettings_in_range (settings : RawSettings) (fallback : Fallback) :
  raw_size settings <> VNum NaN ->
  raw_glow settings <> VNum NaN ->
  fb_size fallback <> Some NaN ->
  fb_glow fallback <> Some NaN ->
  let r := sanitizeSettings settings fallback in
  color r <> [] /\
  within (1 # 2) 3 (size r) /\
  within (1 # 2) 3 (glow r) /\
  (cursorMode r = str "halo" \/ cursorMode r = str "star") /\
  length (username r) <= 18 /\
  (forall n, raw_size settings = VNum n -> size r = clamp n lo hi) /\
  ((forall n, raw_size settings <> VNum n) ->
   size r = clamp (nullish (fb_size fallback) (Fin 1)) lo hi) /\
  (forall n, raw_glow settings = VNum n -> glow r = clamp n lo hi) /\
  ((forall n, raw_glow settings <> VNum n) ->
   glow r = clamp (nullish (fb_glow fallback) (Fin (6 # 5))) lo hi).
Proof.
  intros Hs Hg Hfs Hfg r.
  assert (Hnum : forall v fb d, v <> VNum NaN -> fb <> Some NaN -> d <> NaN ->
                 numericValue v fb d <> NaN).
  { intros v fb d Hv Hfb Hd. unfold numericValue, nullish.
    destruct v as [| | |n| |]; destruct fb as [m|]; congruence. }
  split; [apply sanitized_color_nonempty|].
  split; [apply clamp_within, Hnum; done|].
  split; [apply clamp_within, Hnum; done|].
  split; [apply sanitized_cursorMode|].
  split; [apply sanitized_username_length|].
  subst r. unfold sanitizeSettings, numericValue; cbn [size glow DEFAULT_SETTINGS].
  split; [by intros n ->|].
  split; [intros Hn; destruct (raw_size settings); try done; by destruct (Hn n)|].
  split; [by intros n ->|].
  intros Hn; destruct (raw_glow settings); try done; by destruct (Hn n).
Qed.

(** The theorem at the message [{"size": 1e999}] and the default record. *)
Lemma sanitizeSettings_in_range_witness :
  let r := sanitizeSettings overflow_size_message (as_fallback DEFAULT_SETTINGS) in
  color r <> [] /\
  within (1 # 2) 3 (size r) /\
  within (1 # 2) 3 (glow r) /\
  (cursorMode r = str "halo" \/ cursorMode r = str "star") /\
  length (username r) <= 18 /\
  (forall n, raw_size overflow_size_message = VNum n -> size r = clamp n lo hi) /\
  ((forall n, raw_size overflow_size_message <> VNum n) ->
   size r = clamp (nullish (fb_size (as_fallback DEFAULT_SETTINGS)) (Fin 1)) lo hi) /\
  (forall n, raw_glow overflow_size_message = VNum n -> glow r = clamp n lo hi) /\
  ((forall n, raw_glow overflow_size_message <> VNum n) ->
   glow r = clamp (nullish (fb_glow (as_fallback DEFAULT_SETTINGS)) (Fin (6 # 5))) lo hi).
Proof.
  apply (sanitizeSettings_in_range overflow_size_message (as_fallback DEFAULT_SETTINGS));
    simpl; discriminate.
Defined.

(** *** Idempotence *)

(** C2, counterexample. With the default record as fallback, the username
    "aaaaaaaaaaaaaaaaa b" is cut after its 18th code unit, the space; a
    second pass trims that space away. *)
Lemma sanitizeSettings_not_idempotent :
  username (sanitizeSettings spaced_username_message (as_fallback DEFAULT_SETTINGS))
    = str "aaaaaaaaaaaaaaaaa " /\
  username (sanitizeSettings
              (as_raw (sanitizeSettings spaced_username_message
                                        (as_fallback DEFAULT_SETTINGS)))
              (as_fallback DEFAULT_SETTINGS))
    = str "aaaaaaaaaaaaaaaaa" /\
  sanitizeSettings
    (as_raw (sanitizeSettings spaced_username_message (as_fallback DEFAULT_SETTINGS)))
    (as_fallback DEFAULT_SETTINGS)
  <> sanitizeSettings spaced_username_message (as_fallback DEFAULT_SETTINGS).
Proof. repeat split; [reflexivity..|discriminate]. Qed.

(** When a second pass gives the first result back. *)
Lemma resanitize_iff (settings : RawSettings) (fallback : Fallback) :
  sanitizeSettings (as_raw (sanitizeSettings settings fallback)) fallback =
    sanitizeSettings settings fallback <->
  trimmed (username (sanitizeSettings settings fallback)) /\
  (trimmed (color (sanitizeSettings settings fallback)) \/
   trim (color (sanitizeSettings settings fallback)) = []).
Proof.
  rewrite settings_eq.
  rewrite resanitize_color, resanitize_username, resanitize_size,
    resanitize_glow, resanitize_cursorMode.
  unfold trimmed.
  destruct (nonEmpty (trim (color (sanitizeSettings settings fallback)))) eqn:E.
  - apply nonEmpty_true in E. split.
    + intros (Hc & _ & _ & _ & Hu). split; [done|by left].
    + intros [Hu [Hc|Hc]]; [done|by destruct E].
  - apply nonEmpty_false in E. split.
    + intros (_ & _ & _ & _ & Hu). split; [done|by right].
    + by intros [Hu _].
Qed.

(** C2, as amended. For every raw input and every fallback, a second pass
    with the same fallback returns the first result whenever the first
    result's username has no white space at its end (cutting at 18 code
    units can leave some) and its colour is untouched by trimming, or
    entirely blank (which only a fallback colour can be). *)
Theorem sanitizeSettings_idempotent (settings : RawSettings) (fallback : Fallback) :
  let r := sanitizeSettings settings fallback in
  trimmed (username r) ->
  trimmed (color r) \/ trim (color r) = [] ->
  sanitizeSettings (as_raw r) fallback = r.
Proof. intros r Hu Hc. by apply resanitize_iff. Qed.

(** The theorem at the padded username "  aaaaaaaaaaaaaaaaa" and the
    default record. *)
Lemma sanitizeSettings_idempotent_witness :
  sanitizeSettings
    (as_raw (sanitizeSettings padded_username_message (as_fallback DEFAULT_SETTINGS)))
    (as_fallback DEFAULT_SETTINGS)
  = sanitizeSettings padded_username_message (as_fallback DEFAULT_SETTINGS).
Proof.
  apply (sanitizeSettings_idempotent padded_username_message
           (as_fallback DEFAULT_SETTINGS)).
  - reflexivity.
  - left. reflexivity.
Defined.

(** In particular the second pass changes nothing when the fallback is the
    default record and the trimmed username fits in 18 code units. *)
Corollary sanitizeSettings_idempotent_short (settings : RawSettings) (s : jsstring) :
  raw_username settings = VStr s ->
  length (trim s) <= 18 ->
  let r := sanitizeSettings settings (as_fallback DEFAULT_SETTINGS) in
  sanitizeSettings (as_raw r) (as_fallback DEFAULT_SETTINGS) = r.
Proof.
  intros Hu Hlen r. apply resanitize_iff. split.
  - unfold trimmed. subst r. unfold sanitizeSettings; cbn [username].
    rewrite Hu. cbn [usableString].
    destruct (nonEmpty (trim s)) eqn:E.
    + rewrite slice_to_short by done. apply trim_idem.
    + reflexivity.
  - left. unfold trimmed. subst r. unfold sanitizeSettings; cbn [color].
    destruct (usableString (raw_color settings)) as [c|] eqn:Ec.
    + destruct (usableString_spec _ _ Ec) as (t & _ & -> & _). apply trim_idem.
    + reflexivity.
Qed.

End SettingsFacts.

(** ** Usernames, on the server and in the client's mirror *)

Module UsernameFacts.
Import JsString JsValue Server Client JsStringFacts SettingsFacts.

Lemma usableString_none (v : value) :
  usableString v = None <-> (forall s, v = VStr s -> trim s = []).
Proof.
  destruct v as [| | | |t|]; simpl; try (split; [intros _ s; discriminate|done]).
  destruct (nonEmpty (trim t)) eqn:E.
  - apply nonEmpty_true in E. split; [done|]. intros H. by destruct E, (H t).
  - apply nonEmpty_false in E. split; [|done]. by intros _ s [= <-].
Qed.

Lemma usableString_some (s : jsstring) :
  trim s <> [] -> usableString (VStr s) = Some (trim s).
Proof. intros H. simpl. apply nonEmpty_true in H. by rewrite H. Qed.

(** C3, counterexample. With the default record as fallback, a username of
    three spaces is sanitized to the empty string: the server has no
    placeholder. And a username of nineteen code units, two of them leading
    spaces, comes out seventeen code units long, not eighteen. *)
Lemma sanitizeSettings_username_can_be_empty :
  username (sanitizeSettings blank_username_message (as_fallback DEFAULT_SETTINGS)) = [] /\
  (exists s, raw_username padded_username_message = VStr s /\ length s = 19) /\
  length (username (sanitizeSettings padded_username_message
                                     (as_fallback DEFAULT_SETTINGS))) = 17.
Proof.
  split; [reflexivity|]. split; [|reflexivity].
  eexists. split; reflexivity.
Qed.

(** C3, as amended. [sanitizeSettings] trims the raw username and keeps its
    first 18 code units: exactly 18 when the trimmed name is longer, the
    trimmed name itself otherwise, never the empty string. A raw username
    that is not a string, or is blank once trimmed, gives way to the
    fallback's username, trimmed and cut the same way, and to the empty
    string when that is blank too. The placeholder is the client's: the
    record it mirrors for a remote identity ([applyRemoteSettings]) has the
    server's username trimmed, or "Star-" followed by the last four code
    units of the identity in upper case when the server sent an empty one; the
    mirrored username is never empty. *)
Theorem username_normalized (settings : RawSettings) (fallback : Fallback) :
  let r := sanitizeSettings settings fallback in
  (forall s, raw_username settings = VStr s -> trim s <> [] ->
     username r = slice_to 18 (trim s) /\
     username r <> [] /\
     (18 < length (trim s) -> length (username r) = 18) /\
     (length (trim s) <= 18 -> username r = trim s)) /\
  ((forall s, raw_username settings = VStr s -> trim s = []) ->
     (trim (fb_username fallback) <> [] ->
        username r = slice_to 18 (trim (fb_username fallback)) /\ username r <> []) /\
     (trim (fb_username fallback) = [] -> username r = [])) /\
  (forall clientId : jsstring, clientId <> [] ->
     let mirrored := username (remoteSettings clientId (toWire r)) in
     mirrored <> [] /\
     (username r = [] ->
        mirrored = str "Star-" ++ toUpperCase (slice_last 4 clientId)) /\
     (username r <> [] -> mirrored = trim (username r))).
Proof.
  intros r. split; [|split].
  - intros s Hs Hne.
    assert (Hr : username r = slice_to 18 (trim s)).
    { subst r. unfold sanitizeSettings; cbn [username].
      by rewrite Hs, usableString_some. }
    split; [done|]. split; [|split].
    + rewrite Hr. intros Hnil.
      apply (trim_slice_nonempty 18 s); [done..|]. by rewrite Hnil.
    + intros Hlong. rewrite Hr. apply slice_to_long. lia.
    + intros Hshort. rewrite Hr. by apply slice_to_short.
  - intros Hblank. apply usableString_none in Hblank.
    subst r. unfold sanitizeSettings; cbn [username]. rewrite Hblank.
    split.
    + intros Hfb.
      assert (Hfb' : fb_username fallback <> []) by (intros E; by rewrite E in Hfb).
      apply nonEmpty_true in Hfb as Hb, Hfb' as Hb'. rewrite Hb, Hb'. simpl.
      split; [done|]. intros Hnil.
      apply (trim_slice_nonempty 18 (fb_username fallback)); [done..|].
      by rewrite Hnil.
    + intros Hfb. rewrite Hfb. simpl. by rewrite andb_false_r.
  - intros clientId Hid mirrored. subst mirrored.
    pose proof (sanitized_username_visible settings fallback) as Hvis.
    pose proof (sanitized_username_length settings fallback) as Hlen.
    fold r in Hvis, Hlen. clearbody r.
    unfold remoteSettings; cbn [username toWire w_username].
    destruct (username r) as [|c u] eqn:Eu.
    + simpl. unfold getFallbackUsername.
      apply nonEmpty_true in Hid. rewrite Hid. simpl.
      split; [done|]. split; [done|]. by intros [].
    + assert (Hne : trim (c :: u) <> []) by by apply Hvis.
      apply nonEmpty_true in Hne as Hb. rewrite Hb. cbn [nonEmpty andb].
      rewrite slice_to_short
        by (etransitivity; [apply trim_length|exact Hlen]).
      split; [done|]. split; [done|]. done.
Qed.

(** The theorem at a blank username, the default record as fallback and a
    generated identity: the server's username is empty and the client shows
    "Star-2AB7". *)
Lemma username_normalized_witness :
  username (sanitizeSettings blank_username_message (as_fallback DEFAULT_SETTINGS)) = [] /\
  username (remoteSettings (str "client_1700000000000_k3x9q2ab7")
              (toWire (sanitizeSettings blank_username_message
                                        (as_fallback DEFAULT_SETTINGS))))
    = str "Star-2AB7".
Proof.
  destruct (username_normalized blank_username_message (as_fallback DEFAULT_SETTINGS))
    as (_ & Hblank & Hclient).
  destruct Hblank as [_ Hempty].
  { intros s [= <-]. reflexivity. }
  split; [apply Hempty; reflexivity|].
  destruct (Hclient (str "client_1700000000000_k3x9q2ab7")) as (_ & Hplace & _).
  { discriminate. }
  rewrite Hplace; [reflexivity|].
  apply Hempty. reflexivity.
Defined.

End UsernameFacts.

(** ** The trail store and its tick *)

Module TrailFacts.
Import JsString JsValue Server Client.

Lemma deleteAll_lookup (ids : list jsstring) (m : gmap jsstring (list TrailPoint)) k :
  deleteAll ids m !! k = if decide (k ∈ ids) then None else m !! k.
Proof.
  unfold deleteAll. revert m.
  induction ids as [|i ids IH]; intros m; cbn [foldl].
  - rewrite decide_False; [done|]. by intros H%elem_of_nil.
  - rewrite IH. destruct (decide (k = i)) as [->|Hne].
    + rewrite lookup_delete_eq.
      rewrite (decide_True (P := i ∈ i :: ids)) by left.
      by destruct (decide (i ∈ ids)).
    + rewrite lookup_delete_ne by done.
      destruct (decide (k ∈ ids)) as [Hin|Hin].
      * rewrite (decide_True (P := k ∈ i :: ids)); [done|by right].
      * rewrite (decide_False (P := k ∈ i :: ids)); [done|].
        intros [?|?]%elem_of_cons; done.
Qed.

Lemma prune_Some now pts a :
  prune now pts = Some a <-> a = List.filter (activePoint now) pts /\ a <> [].
Proof.
  unfold prune. destruct (List.filter (activePoint now) pts) as [|p l]; split.
  - done.
  - by intros [-> ?].
  - by intros [= <-].
  - by intros [-> _].
Qed.

(** The loop of [renderAllTrails] when painting returns on every trail it
    visits: it runs to its end, every trail visited is reduced to its active
    points unless it has none, and the identities without active points
    are noted. *)
Lemma renderTrails_returns paint now keys :
  NoDup keys ->
  forall store rem,
    (forall id pts a,
       id ∈ keys -> store !! id = Some pts -> prune now pts = Some a ->
       paint id a now = true) ->
    exists rem',
      (renderTrails paint now keys store rem).2 = Some rem' /\
      (forall id, id ∈ keys ->
         (renderTrails paint now keys store rem).1 !! id =
         (fun pts => default pts (prune now pts)) <$> store !! id) /\
      (forall id, id ∉ keys ->
         (renderTrails paint now keys store rem).1 !! id = store !! id) /\
      (forall id, id ∈ rem' <->
         id ∈ rem \/
         (id ∈ keys /\ exists pts, store !! id = Some pts /\ prune now pts = None)).
Proof.
  induction 1 as [|k keys Hk Hnd IH]; intros store rem Hpaint.
  - exists rem. cbn. split; [done|]. split; [by intros id ?%elem_of_nil|].
    split; [done|]. intros id. split; [by left|].
    by intros [?|[?%elem_of_nil _]].
  - cbn [renderTrails].
    destruct (store !! k) as [pts|] eqn:Ek.
    + destruct (List.filter (activePoint now) pts) as [|p l] eqn:Ef.
      * destruct (IH store (rem ++ [k])) as (rem' & Hr & Hin & Hout & Hrem).
        { intros id pts' a Hid. apply Hpaint. by right. }
        exists rem'. split; [done|]. split; [|split].
        -- intros id [->|Hid]%elem_of_cons; [|by apply Hin].
           rewrite Hout by done. rewrite Ek. simpl. unfold prune. by rewrite Ef.
        -- intros id Hid. apply Hout. intros ?. apply Hid. by right.
        -- intros id. rewrite Hrem, elem_of_app, list_elem_of_singleton. split.
           ++ intros [[?| ->]|(Hid & pts' & H1 & H2)].
              ** by left.
              ** right. split; [by left|]. exists pts. split; [done|].
                 unfold prune. by rewrite Ef.
              ** right. split; [by right|]. by exists pts'.
           ++ intros [?|([->|Hid]%elem_of_cons & pts' & H1 & H2)].
              ** by left; left.
              ** by left; right.
              ** right. split; [done|]. by exists pts'.
      * assert (Hp : prune now pts = Some (p :: l)) by (unfold prune; by rewrite Ef).
        rewrite (Hpaint k pts (p :: l)); [|by left|done|done].
        assert (Hother : forall id, id ∈ keys ->
                  <[k := p :: l]> store !! id = store !! id).
        { intros id Hid. apply lookup_insert_ne. by intros ->. }
        destruct (IH (<[k := p :: l]> store) rem) as (rem' & Hr & Hin & Hout & Hrem).
        { intros id pts' a Hid. rewrite Hother by done. apply Hpaint. by right. }
        exists rem'. split; [done|]. split; [|split].
        -- intros id [->|Hid]%elem_of_cons.
           ++ rewrite Hout by done. rewrite lookup_insert_eq, Ek. simpl.
              by rewrite Hp.
           ++ rewrite Hin by done. by rewrite Hother.
        -- intros id Hid. rewrite Hout by (intros ?; apply Hid; by right).
           apply lookup_insert_ne. intros ->. apply Hid. by left.
        -- intros id. rewrite Hrem. split.
           ++ intros [?|(Hid & pts' & H1 & H2)]; [by left|].
              right. split; [by right|]. exists pts'. by rewrite <-Hother.
           ++ intros [?|([->|Hid]%elem_of_cons & pts' & H1 & H2)].
              ** by left.
              ** congruence.
              ** right. split; [done|]. exists pts'. by rewrite Hother.
    + destruct (IH store rem) as (rem' & Hr & Hin & Hout & Hrem).
      { intros id pts' a Hid. apply Hpaint. by right. }
      exists rem'. split; [done|]. split; [|split].
      * intros id [->|Hid]%elem_of_cons; [|by apply Hin].
        rewrite Hout by done. by rewrite Ek.
      * intros id Hid. apply Hout. intros ?. apply Hid. by right.
      * intros id. rewrite Hrem. split.
        -- intros [?|(Hid & pts' & H1 & H2)]; [by left|].
           right. split; [by right|]. by exists pts'.
        -- intros [?|([->|Hid]%elem_of_cons & pts' & H1 & H2)].
           ++ by left.
           ++ congruence.
           ++ right. split; [done|]. by exists pts'.
Qed.

Lemma paintable_prune paint now st id pts a :
  paintable paint now st ->
  allTrails st !! id = Some pts -> prune now pts = Some a -> paint id a now = true.
Proof.
  intros Hp Hid Ha. specialize (Hp id pts Hid). cbn in Hp.
  apply prune_Some in Ha as [-> Hne].
  by destruct (List.filter (activePoint now) pts).
Qed.

(** A pass on which painting returns throughout runs to its end and leaves
    every trail reduced to its active points, and no trail without any. *)
Lemma renderAllTrails_returns paint keys now st :
  keysOf keys st -> paintable paint now st ->
  renderAllTrails paint keys now st =
  Returned (set_allTrails (omap (prune now) (allTrails st)) st).
Proof.
  intros (Hnd & Hin & Hall) Hpaint. unfold renderAllTrails. cbn zeta.
  destruct (renderTrails_returns paint now keys Hnd (allTrails st) [])
    as (rem' & -> & Hvis & Hout & Hrem).
  { intros id pts a _. by apply paintable_prune. }
  f_equal. f_equal. apply map_eq. intros id.
  rewrite deleteAll_lookup, lookup_omap.
  destruct (allTrails st !! id) as [pts|] eqn:E; simpl.
  - assert (Hid : id ∈ keys) by apply (Hall id pts E).
    destruct (prune now pts) as [a|] eqn:Ep.
    + rewrite decide_False.
      * rewrite Hvis by done. rewrite E. simpl. by rewrite Ep.
      * rewrite Hrem. intros [?%elem_of_nil|(_ & pts' & H1 & H2)]; [done|].
        congruence.
    + rewrite decide_True; [done|]. apply Hrem. right. split; [done|]. by exists pts.
  - case_decide as Hd; [done|].
    destruct (decide (id ∈ keys)) as [Hk|Hk].
    + rewrite Forall_forall in Hin. destruct (Hin id Hk) as [? ?]. congruence.
    + by rewrite Hout.
Qed.



Lemma inTrail_pruned now st id p :
  inTrail (set_allTrails (omap (prune now) (allTrails st)) st) id p <->
  inTrail st id p /\ activePoint now p = true.
Proof.
  unfold inTrail. cbn [allTrails set_allTrails]. rewrite lookup_omap. split.
  - intros (a & Ha & Hin).
    destruct (allTrails st !! id) as [pts|]; [|done]. simpl in Ha.
    apply prune_Some in Ha as [-> _]. apply filter_In in Hin as [Hin Hact].
    split; [|done]. by exists pts.
  - intros [(pts & -> & Hin) Hact]. simpl.
    assert (Hf : In p (List.filter (activePoint now) pts))
      by (apply filter_In; done).
    exists (List.filter (activePoint now) pts). split; [|done].
    apply prune_Some. split; [done|]. intros E. by rewrite E in Hf.
Qed.

Lemma keysOf_one_point : keysOf [str "client_a"] one_point.
Proof.
  split; [|split]; apply (bool_decide_unpack _); vm_compute; exact I.
Qed.

(** The floor, over every age from 0 up to the fade time, by evaluating the
    double arithmetic: the linear opacity is above 0.05 up to 3800 ms
    ([1 - 3800/4000] is 0.050000000000000044 in binary64) and not after. *)
Lemma linearAlpha_floor_table :
  forallb (fun age => Bool.eqb (minAlpha <? linearAlpha age)%float (age <=? 3800)%Z)
          (seqZ 0 4000) = true.
Proof. vm_compute. reflexivity. Qed.

Lemma linearAlpha_floor (age : Z) :
  (0 <= age < 4000)%Z ->
  (minAlpha <? linearAlpha age)%float = (age <=? 3800)%Z.
Proof.
  intros H. pose proof linearAlpha_floor_table as T.
  rewrite forallb_forall in T. apply eqb_prop, T.
  apply list_elem_of_In, elem_of_seqZ. lia.
Qed.

(** A point not from the future is active up to the age of 3800 ms. *)
Lemma activePoint_threshold now p :
  (timestamp p <= now)%Z ->
  activePoint now p = (now - timestamp p <=? 3800)%Z.
Proof.
  intros H. unfold activePoint, trailFadeTime.
  destruct (4000 <=? now - timestamp p)%Z eqn:E.
  - symmetry. apply Z.leb_gt. apply Z.leb_le in E. lia.
  - apply Z.leb_gt in E. apply linearAlpha_floor. lia.
Qed.


Lemma activePoint_iff now point :
  activePoint now point = true <->
  (now - timestamp point < trailFadeTime)%Z /\
  (minAlpha <? linearAlpha (now - timestamp point))%float = true.
Proof.
  unfold activePoint.
  destruct (trailFadeTime <=? now - timestamp point)%Z eqn:E.
  - apply Z.leb_le in E. split; [done|]. intros [? _]. lia.
  - apply Z.leb_gt in E. split; [done|]. by intros [_ ?].
Qed.

(** *** Which points a tick keeps *)

(** C4, counterexample. A point of age 3850 ms has opacity
    [1 - (3850/4000)^2 = 0.0736] on the curve the specification names, above
    the floor of 0.05 and so to be kept; the filter of [renderAllTrails]
    computes [1 - 3850/4000 = 0.0375] and drops it, and its trail with it.
    Nothing is painted in this pass. *)
Lemma render_drops_point_above_spec_floor :
  spec_activePoint 3850 (point_at 0) = true /\
  inTrail one_point (str "client_a") (point_at 0) /\
  exists st',
    renderAllTrails (paintsUnless (str "xyz")) [str "client_a"] 3850 one_point
      = Returned st' /\
    allTrails st' !! str "client_a" = None /\
    ~ inTrail st' (str "client_a") (point_at 0).
Proof.
  split; [vm_compute; reflexivity|].
  split; [exists [point_at 0]; split; [vm_compute; reflexivity|by left]|].
  eexists. split; [vm_compute; reflexivity|].
  split; [vm_compute; reflexivity|].
  intros (pts & H & _). vm_compute in H. discriminate.
Qed.

(** C4, as amended. A tick at time [now] on which painting returns
    throughout runs to its end, and after it a point is in the trail of an
    identity exactly when it was there before, its age [now - timestamp]
    is below the fade time of 4000 ms and the linear opacity
    [1 - age/4000] the filter computes is above the floor 0.05. A point of
    age 4000 ms or more is never in the trail after such a tick. For a
    point not stamped in the future this keeps exactly the ages up to
    3800 ms. *)
Theorem render_keeps_active_points (paint : Painter) (keys : list jsstring)
    (now : Z) (st : State) (id : jsstring) (point : TrailPoint) :
  keysOf keys st ->
  paintable paint now st ->
  exists st',
    renderAllTrails paint keys now st = Returned st' /\
    (inTrail st' id point <->
     inTrail st id point /\
     (now - timestamp point < trailFadeTime)%Z /\
     (minAlpha <? linearAlpha (now - timestamp point))%float = true) /\
    ((trailFadeTime <= now - timestamp point)%Z -> ~ inTrail st' id point) /\
    ((timestamp point <= now)%Z ->
     (inTrail st' id point <->
      inTrail st id point /\ (now - timestamp point <= 3800)%Z)).
Proof.
  intros Hkeys Hpaint. eexists.
  split; [by apply renderAllTrails_returns|]. split; [|split].
  - rewrite inTrail_pruned. by rewrite activePoint_iff.
  - intros Hold [_ H]%inTrail_pruned. apply activePoint_iff in H as [? _]. lia.
  - intros Hpast. rewrite inTrail_pruned, activePoint_threshold by done.
    by rewrite Z.leb_le.
Qed.

(** The theorem at the one-point store: the point is there after a tick at
    time 3000, which paints it, and gone after a tick at time 4000. *)
Lemma render_keeps_active_points_witness :
  (exists st',
     renderAllTrails (paintsUnless (str "xyz")) [str "client_a"] 3000 one_point
       = Returned st' /\
     inTrail st' (str "client_a") (point_at 0)) /\
  (exists st',
     renderAllTrails (paintsUnless (str "xyz")) [str "client_a"] 4000 one_point
       = Returned st' /\
     ~ inTrail st' (str "client_a") (point_at 0)).
Proof.
  split.
  - destruct (render_keeps_active_points (paintsUnless (str "xyz")) [str "client_a"]
                3000 one_point (str "client_a") (point_at 0))
      as (st' & Hr & _ & _ & H).
    + apply keysOf_one_point.
    + apply (bool_decide_unpack _). vm_compute. exact I.
    + exists st'. split; [exact Hr|]. apply H; [simpl; lia|].
      split; [|simpl; lia].
      exists [point_at 0]. split; [vm_compute; reflexivity|left; reflexivity].
  - destruct (render_keeps_active_points (paintsUnless (str "xyz")) [str "client_a"]
                4000 one_point (str "client_a") (point_at 0))
      as (st' & Hr & _ & H & _).
    + apply keysOf_one_point.
    + apply (bool_decide_unpack _). vm_compute. exact I.
    + exists st'. split; [exact Hr|]. apply H. vm_compute. discriminate.
Defined.

(** C5, counterexample. The point created at time 0 is gone after the tick
    at time 3999: its linear opacity is 0.00025 there, under the floor.
    Nothing is painted in this pass. *)
Lemma point_absent_after_tick_at_3999 :
  inTrail one_point (str "client_a") (point_at 0) /\
  exists st',
    renderAllTrails (paintsUnless (str "xyz")) [str "client_a"] 3999 one_point
      = Returned st' /\
    allTrails st' !! str "client_a" = None /\
    ~ inTrail st' (str "client_a") (point_at 0).
Proof.
  split; [exists [point_at 0]; split; [vm_compute; reflexivity|by left]|].
  eexists. split; [vm_compute; reflexivity|].
  split; [vm_compute; reflexivity|].
  intros (pts & H & _). vm_compute in H. discriminate.
Qed.

(** C5, as amended. A trail point created at time 0 is still in the store's
    trail after a tick at any time up to 3800, and is absent after a tick at
    any time from 3801 on, so at 3999 and at 4001; the ticks being those on
    which painting returns throughout, which run to their end. *)
Theorem point_created_at_zero (paint : Painter) (keys : list jsstring)
    (st : State) (id : jsstring) (point : TrailPoint) :
  keysOf keys st ->
  inTrail st id point ->
  timestamp point = 0%Z ->
  (forall now, (0 <= now <= 3800)%Z -> paintable paint now st ->
     exists st', renderAllTrails paint keys now st = Returned st' /\
                 inTrail st' id point) /\
  (forall now, (3801 <= now)%Z -> paintable paint now st ->
     exists st', renderAllTrails paint keys now st = Returned st' /\
                 ~ inTrail st' id point).
Proof.
  intros Hkeys Hin Ht. split; intros now Hnow Hpaint; eexists;
    (split; [by apply renderAllTrails_returns|]).
  - apply inTrail_pruned. split; [done|].
    rewrite activePoint_threshold by lia. apply Z.leb_le. lia.
  - intros [_ H]%inTrail_pruned.
    rewrite activePoint_threshold in H by lia. apply Z.leb_le in H. lia.
Qed.

(** The theorem at the one-point store. *)
Lemma point_created_at_zero_witness :
  (exists st',
     renderAllTrails (paintsUnless (str "xyz")) [str "client_a"] 3799 one_point
       = Returned st' /\
     inTrail st' (str "client_a") (point_at 0)) /\
  (exists st',
     renderAllTrails (paintsUnless (str "xyz")) [str "client_a"] 3999 one_point
       = Returned st' /\
     ~ inTrail st' (str "client_a") (point_at 0)) /\
  (exists st',
     renderAllTrails (paintsUnless (str "xyz")) [str "client_a"] 4001 one_point
       = Returned st' /\
     ~ inTrail st' (str "client_a") (point_at 0)).
Proof.
  destruct (point_created_at_zero (paintsUnless (str "xyz")) [str "client_a"]
              one_point (str "client_a") (point_at 0))
    as [Hkept Hgone].
  - apply keysOf_one_point.
  - exists [point_at 0]. split; [vm_compute; reflexivity|left; reflexivity].
  - reflexivity.
  - split; [|split].
    + apply Hkept; [lia|]. apply (bool_decide_unpack _). vm_compute. exact I.
    + apply Hgone; [lia|]. apply (bool_decide_unpack _). vm_compute. exact I.
    + apply Hgone; [lia|]. apply (bool_decide_unpack _). vm_compute. exact I.
Defined.

(** *** Empty trails *)

(** C6. The deletion of the identities without active points comes after
    the loop that paints, and painting is not guarded. On the store of two
    trails, ticked at time 4000 with the trail of "client_a" visited first:
    the only point of "client_a" has faded and the identity is noted for
    removal; painting the trail of "client_b" throws; the pass ends there,
    and "client_a" is still mapped to its faded point. Where nothing throws
    (the one-point store at the same time) the same code removes the
    identity. *)
Lemma thrown_pass_keeps_faded_trail :
  keysOf [str "client_a"; str "client_b"] two_trails /\
  List.filter (activePoint 4000) [point_at 0] = [] /\
  (exists st',
     renderAllTrails (paintsUnless (str "xyz")) [str "client_a"; str "client_b"]
                     4000 two_trails = Thrown st' /\
     allTrails st' !! str "client_a" = Some [point_at 0]) /\
  (exists st',
     renderAllTrails (paintsUnless (str "xyz")) [str "client_a"] 4000 one_point
       = Returned st' /\
     allTrails st' !! str "client_a" = None).
Proof.
  split.
  { split; [|split]; apply (bool_decide_unpack _); vm_compute; exact I. }
  split; [vm_compute; reflexivity|].
  split; eexists; (split; [vm_compute; reflexivity|]); vm_compute; reflexivity.
Qed.

End TrailFacts.

(** ** The client: sends and the [clear] message *)

Module ClientFacts.
Import JsString JsValue Server Client.

Lemma isOpen_set_timeout v st :
  isOpen (set_settingsUpdateTimeout v st) = isOpen st.
Proof. done. Qed.





(** On an open socket [sendSettingsUpdate] sends the current settings and
    leaves no timer armed. *)
Lemma sendSettingsUpdate_open st :
  isOpen st = true ->
  sent (sendSettingsUpdate st) = sent st ++ [SendUpdateSettings (current st)] /\
  settingsUpdateTimeout (sendSettingsUpdate st) = None.
Proof.
  intros Hopen. unfold sendSettingsUpdate.
  rewrite isOpen_set_timeout, Hopen. cbn [negb].
  by destruct (ownId _).
Qed.




(** *** Messages while the socket is not open *)




(** *** The [clear] message *)

(** C10. Handling a [clear] message empties the trail store, the local
    user's own trail included, and the remote cursors, and leaves the
    settings mirror as it was. *)
Theorem clear_message_effect (now : Z) (st : State) :
  let st' := handleMessage Clear now st in
  (forall id, allTrails st' !! id = None) /\
  (forall id, otherCursors st' !! id = None) /\
  allTrails st' = ∅ /\
  otherCursors st' = ∅ /\
  userSettings st' = userSettings st /\
  clientId st' = clientId st /\
  current st' = current st /\
  sent st' = sent st.
Proof.
  intros st'. subst st'. cbn.
  split; [intros id; apply lookup_empty|].
  split; [intros id; apply lookup_empty|]. done.
Qed.

(** On a client that holds its own trail, a remote trail, a remote cursor
    and two mirrored settings records. *)
Example clear_on_busy_client :
  base.size (allTrails busy) = 2 /\
  is_Some (allTrails busy !! str "client_me") /\
  base.size (otherCursors busy) = 1 /\
  base.size (userSettings busy) = 2 /\
  base.size (allTrails (handleMessage Clear 130 busy)) = 0 /\
  base.size (otherCursors (handleMessage Clear 130 busy)) = 0 /\
  base.size (userSettings (handleMessage Clear 130 busy)) = 2.
Proof.
  repeat split; try (vm_compute; reflexivity).
  eexists. vm_compute. reflexivity.
Qed.

End ClientFacts.

(** ** The server: fan-out and liveness *)

Module ServerFacts.
Import JsString JsValue Server.

Lemma registered_insert_eq m w x : registered (<[w := x]> m) w = true.
Proof. unfold registered. by rewrite lookup_insert_eq. Qed.

Lemma registered_insert_ne m w i x :
  w <> i -> registered (<[i := x]> m) w = registered m w.
Proof. intros H. unfold registered. by rewrite lookup_insert_ne. Qed.

Lemma targeted_insert_ne m sender w i x sock :
  w <> i -> targeted (<[i := x]> m) sender w sock = targeted m sender w sock.
Proof. intros H. unfold targeted. by rewrite registered_insert_ne. Qed.

Lemma targeted_fresh m sender w sock :
  m !! w = None -> targeted m sender w sock = false.
Proof. intros H. unfold targeted, registered. by rewrite H. Qed.

Lemma targeted_insert_eq m sender w x sock :
  targeted (<[w := x]> m) sender w sock =
  bool_decide (w <> sender) && isOPEN (readyState sock).
Proof. unfold targeted. by rewrite registered_insert_eq. Qed.

Lemma broadcast_fanned data sender st m :
  fanned data sender st m (map_fold (broadcastTo data sender) (st, 0) m).
Proof.
  apply (map_fold_weak_ind (fun acc m => fanned data sender st m acc)).
  - repeat split; intros w; cbn.
    + destruct (sockets st !! w); by simpl.
    + by destruct (sockets st !! w).
  - intros i x m' r Hi (Hs & Hc & Ht & Hcl).
    assert (Hsi : sockets r.1 !! i = sockets st !! i).
    { rewrite Hs. destruct (sockets st !! i) as [sock|]; [|done]. simpl.
      by rewrite targeted_fresh. }
    unfold broadcastTo. rewrite Hsi.
    destruct (sockets st !! i) as [sock|] eqn:Esock.
    + destruct (bool_decide (i <> sender) && isOPEN (readyState sock)) eqn:Ecall.
      * destruct (sendThrows sock) eqn:Ethrow.
        -- repeat split; try done; intros w; cbn.
           ++ destruct (decide (w = i)) as [->|Hne].
              ** rewrite lookup_insert_eq, Esock. simpl.
                 rewrite targeted_insert_eq, Ecall. unfold attempt.
                 by rewrite Ethrow.
              ** rewrite lookup_insert_ne by done. rewrite Hs.
                 destruct (sockets st !! w); [|done]. simpl.
                 by rewrite targeted_insert_ne.
           ++ destruct (decide (w = i)) as [->|Hne].
              ** rewrite lookup_delete_eq, Esock.
                 by rewrite targeted_insert_eq, Ecall, Ethrow.
              ** rewrite lookup_delete_ne by done. rewrite Hc.
                 destruct (sockets st !! w); [|done].
                 by rewrite targeted_insert_ne.
        -- repeat split; try done; intros w; cbn.
           ++ destruct (decide (w = i)) as [->|Hne].
              ** rewrite lookup_insert_eq, Esock. simpl.
                 rewrite targeted_insert_eq, Ecall. unfold attempt.
                 by rewrite Ethrow.
              ** rewrite lookup_insert_ne by done. rewrite Hs.
                 destruct (sockets st !! w); [|done]. simpl.
                 by rewrite targeted_insert_ne.
           ++ rewrite Hc. destruct (decide (w = i)) as [->|Hne].
              ** rewrite Esock, Ethrow, !andb_false_r. done.
              ** destruct (sockets st !! w); [|done].
                 by rewrite targeted_insert_ne.
      * repeat split; try done; intros w.
        -- rewrite Hs. destruct (decide (w = i)) as [->|Hne].
           ++ rewrite Esock. simpl.
              by rewrite targeted_insert_eq, Ecall, targeted_fresh.
           ++ destruct (sockets st !! w); [|done]. simpl.
              by rewrite targeted_insert_ne.
        -- rewrite Hc. destruct (decide (w = i)) as [->|Hne].
           ++ rewrite Esock.
              by rewrite targeted_insert_eq, Ecall, targeted_fresh.
           ++ destruct (sockets st !! w); [|done].
              by rewrite targeted_insert_ne.
    + repeat split; try done; intros w.
      * rewrite Hs. destruct (decide (w = i)) as [->|Hne].
        -- by rewrite Esock.
        -- destruct (sockets st !! w); [|done]. simpl.
           by rewrite targeted_insert_ne.
      * rewrite Hc. destruct (decide (w = i)) as [->|Hne].
        -- by rewrite Esock.
        -- destruct (sockets st !! w); [|done].
           by rewrite targeted_insert_ne.
Qed.

(** The sockets after [broadcast]: a send was attempted on every
    registered, open connection but the sender. *)
Lemma broadcast_sockets data sender st w :
  sockets (broadcast data sender st).1 !! w =
  (fun sock => if targeted (clients st) sender w sock then attempt data sock else sock)
    <$> sockets st !! w.
Proof. apply broadcast_fanned. Qed.

(** The registry after [broadcast]: the connections whose send threw are
    gone, the others are as before. *)
Lemma broadcast_clients data sender st w :
  clients (broadcast data sender st).1 !! w =
  match sockets st !! w with
  | Some sock =>
      if targeted (clients st) sender w sock && sendThrows sock then None
      else clients st !! w
  | None => clients st !! w
  end.
Proof. apply broadcast_fanned. Qed.


Lemma others_deliver_lookup st f w sock :
  others_deliver st f ->
  w <> f -> is_Some (clients st !! w) -> sockets st !! w = Some sock ->
  sendThrows sock = false.
Proof.
  intros Hst Hne [info Hinfo] Hsock.
  destruct (Hst w info Hinfo) as [?|Hw]; [done|].
  unfold works in Hw. rewrite Hsock in Hw. by destruct (sendThrows sock).
Qed.

Lemma accepts_nil sock : accepts [] sock = sock.
Proof. destruct sock. unfold accepts. simpl. by rewrite app_nil_r. Qed.

Lemma accepts_accept data l sock :
  accepts l (accept data sock) = accepts (data :: l) sock.
Proof. unfold accepts, accept. simpl. by rewrite <-app_assoc. Qed.

Lemma attempt_transport data sock :
  sendThrows (attempt data sock) = sendThrows sock /\
  readyState (attempt data sock) = readyState sock.
Proof.
  destruct sock as [rs al th rc fs]. unfold attempt. simpl. by destruct th.
Qed.

(** [broadcast] registers nobody. *)
Lemma broadcast_registered data sender st w :
  is_Some (clients (broadcast data sender st).1 !! w) -> is_Some (clients st !! w).
Proof.
  rewrite broadcast_clients. destruct (sockets st !! w) as [sock|]; [|done].
  destruct (_ && _); [|done]. by intros [? ?].
Qed.

Lemma broadcast_unregistered data sender st w :
  clients st !! w = None ->
  clients (broadcast data sender st).1 !! w = None /\
  sockets (broadcast data sender st).1 !! w = sockets st !! w.
Proof.
  intros H. split.
  - rewrite broadcast_clients. destruct (sockets st !! w); [|done].
    by destruct (_ && _).
  - rewrite broadcast_sockets. destruct (sockets st !! w) as [sock|]; [|done].
    simpl. unfold targeted, registered. by rewrite H.
Qed.

Lemma broadcast_others_deliver data sender st f :
  others_deliver st f -> others_deliver (broadcast data sender st).1 f.
Proof.
  intros Hst w info1 Hinfo1.
  destruct (decide (w = f)) as [?|Hne]; [by left|right].
  assert (Hreg : is_Some (clients st !! w)).
  { apply (broadcast_registered data sender). by eexists. }
  unfold works. rewrite broadcast_sockets.
  destruct (sockets st !! w) as [sock|] eqn:E; [|done]. simpl.
  pose proof (others_deliver_lookup st f w sock Hst Hne Hreg E) as Hok.
  destruct (targeted _ _ _ _); [|by rewrite Hok].
  by rewrite (proj1 (attempt_transport data sock)), Hok.
Qed.

(** One broadcast, seen from an open connection with a working transport:
    it stays registered and has the message unless it sent it. *)
Lemma broadcast_receiver data sender st w sock :
  is_Some (clients st !! w) ->
  sockets st !! w = Some sock ->
  readyState sock = OPEN ->
  sendThrows sock = false ->
  clients (broadcast data sender st).1 !! w = clients st !! w /\
  sockets (broadcast data sender st).1 !! w =
    Some (if negb (sender =? w) then accept data sock else sock).
Proof.
  intros Hreg Hsock Hopen Hok. split.
  - rewrite broadcast_clients, Hsock, Hok. by rewrite andb_false_r.
  - rewrite broadcast_sockets, Hsock. simpl. f_equal.
    unfold targeted, registered, attempt. destruct Hreg as [info ->].
    rewrite Hopen, Hok. simpl. rewrite andb_true_r.
    destruct (Nat.eqb_spec sender w) as [->|Hne]; simpl.
    + by rewrite bool_decide_eq_false_2 by (intros H; by apply H).
    + by rewrite bool_decide_eq_true_2 by congruence.
Qed.

(** Any number of broadcasts, seen from such a connection. *)
Lemma broadcastAll_receiver events st f w sock :
  others_deliver st f ->
  w <> f ->
  is_Some (clients st !! w) ->
  sockets st !! w = Some sock ->
  readyState sock = OPEN ->
  clients (broadcastAll events st) !! w = clients st !! w /\
  sockets (broadcastAll events st) !! w = Some (accepts (addressed_to w events) sock).
Proof.
  unfold broadcastAll. revert st sock.
  induction events as [|[data sender] events IH]; intros st sock Hst Hne Hreg Hsock Hopen.
  - cbn. by rewrite accepts_nil.
  - cbn [foldl fst snd].
    pose proof (others_deliver_lookup st f w sock Hst Hne Hreg Hsock) as Hok.
    destruct (broadcast_receiver data sender st w sock Hreg Hsock Hopen Hok)
      as [Hc Hs].
    destruct (IH (broadcast data sender st).1
                 (if negb (sender =? w) then accept data sock else sock))
      as [Hc' Hs'].
    + by apply broadcast_others_deliver.
    + done.
    + by rewrite Hc.
    + done.
    + by destruct (negb (sender =? w)).
    + split; [congruence|]. rewrite Hs'. f_equal.
      unfold addressed_to. cbn [List.filter snd].
      destruct (negb (sender =? w)); [|done].
      cbn [fmap list_fmap fst]. apply accepts_accept.
Qed.

(** Once out of the registry, a connection is not touched again. *)
Lemma broadcastAll_unregistered events st w :
  clients st !! w = None ->
  clients (broadcastAll events st) !! w = None /\
  sockets (broadcastAll events st) !! w = sockets st !! w.
Proof.
  unfold broadcastAll. revert st.
  induction events as [|[data sender] events IH]; intros st H; [done|].
  cbn [foldl fst snd].
  destruct (broadcast_unregistered data sender st w H) as [Hc Hs].
  destruct (IH _ Hc) as [Hc' Hs']. split; [done|congruence].
Qed.

(** Any number of broadcasts, seen from the connection whose transport
    fails: the first one not its own finds it, fails once and deletes it. *)
Lemma broadcastAll_failing events st f sf :
  is_Some (clients st !! f) ->
  sockets st !! f = Some sf ->
  readyState sf = OPEN ->
  sendThrows sf = true ->
  Exists (fun e => e.2 <> f) events ->
  clients (broadcastAll events st) !! f = None /\
  sockets (broadcastAll events st) !! f = Some (reject sf).
Proof.
  revert st.
  induction events as [|[data sender] events IH]; intros st Hreg Hsock Hopen Hthrow Hex.
  - by apply Exists_nil in Hex.
  - change (broadcastAll ((data, sender) :: events) st)
      with (broadcastAll events (broadcast data sender st).1).
    pose proof (broadcast_clients data sender st f) as Hc.
    pose proof (broadcast_sockets data sender st f) as Hs.
    rewrite Hsock in Hc, Hs. simpl in Hs.
    unfold targeted, registered, attempt in Hc, Hs.
    destruct Hreg as [info Hinfo]. rewrite Hinfo, Hopen, Hthrow in Hc, Hs.
    simpl in Hc, Hs. rewrite !andb_true_r in Hc. rewrite andb_true_r in Hs.
    destruct (decide (f = sender)) as [<-|Hne].
    + rewrite bool_decide_eq_false_2 in Hc, Hs by (intros H; by apply H).
      apply IH; [by rewrite Hc|by rewrite Hs|done|done|].
      apply Exists_cons in Hex as [H|H]; [by destruct H|done].
    + rewrite bool_decide_eq_true_2 in Hc, Hs by done.
      destruct (broadcastAll_unregistered events _ f Hc) as [Hc' Hs'].
      split; [done|]. by rewrite Hs'.
Qed.


Lemma addressed_to_all w events :
  Forall (fun e => e.2 <> w) events -> addressed_to w events = events.*1.
Proof.
  unfold addressed_to. induction 1 as [|[data sender] events Hne _ IH]; [done|].
  cbn [List.filter snd]. simpl in Hne.
  destruct (Nat.eqb_spec sender w) as [?|_]; [done|].
  cbn. by rewrite IH.
Qed.

(** *** Fan-out past a failing connection *)

(** C7. Let [f] be the one registered connection whose transport rejects
    every send, its socket open. After broadcasting any events one after
    the other, every other registered open connection is still registered
    and has received, in order, every event it did not send itself (all of
    them when it sent none), with no failed send; and as soon as one event
    is not sent by [f] itself, [f] is out of the registry after exactly one
    failed send. *)
Theorem broadcast_past_failing_connection (events : list (ServerEvent * conn))
    (st : ServerState) (f : conn) (sf : Socket) :
  is_Some (clients st !! f) ->
  sockets st !! f = Some sf ->
  readyState sf = OPEN ->
  sendThrows sf = true ->
  others_deliver st f ->
  let st' := broadcastAll events st in
  (forall w sock,
     w <> f -> is_Some (clients st !! w) -> sockets st !! w = Some sock ->
     readyState sock = OPEN ->
     clients st' !! w = clients st !! w /\
     sockets st' !! w = Some (accepts (addressed_to w events) sock) /\
     (Forall (fun e => e.2 <> w) events ->
      sockets st' !! w = Some (accepts events.*1 sock))) /\
  (Exists (fun e => e.2 <> f) events ->
   clients st' !! f = None /\ sockets st' !! f = Some (reject sf)).
Proof.
  intros Hreg Hsock Hopen Hthrow Hothers st'. split.
  - intros w sock Hne Hw Hs Ho.
    destruct (broadcastAll_receiver events st f w sock Hothers Hne Hw Hs Ho)
      as [Hc Hr].
    split; [done|]. split; [done|].
    intros Hall. by rewrite <-(addressed_to_all w events Hall).
  - intros Hex. by apply broadcastAll_failing.
Qed.

(** The theorem at three connections, the first failing, and two events. *)
Lemma broadcast_past_failing_connection_witness :
  clients (broadcastAll two_events three_clients) !! 1 = None /\
  sockets (broadcastAll two_events three_clients) !! 1 =
    Some (mkSocket OPEN true true [] 1) /\
  sockets (broadcastAll two_events three_clients) !! 2 =
    Some (mkSocket OPEN true false
            [EvClear (str "client_z") 1000; EvClear (str "client_z") 2000] 0) /\
  sockets (broadcastAll two_events three_clients) !! 3 =
    Some (mkSocket OPEN true false
            [EvClear (str "client_z") 1000; EvClear (str "client_z") 2000] 0).
Proof.
  destruct (broadcast_past_failing_connection two_events three_clients 1
              (open_socket true true)) as [Hrecv Hfail].
  - eexists. vm_compute. reflexivity.
  - vm_compute. reflexivity.
  - reflexivity.
  - reflexivity.
  - unfold others_deliver. apply (bool_decide_unpack _). vm_compute. exact I.
  - destruct Hfail as [Hc Hs].
    { apply Exists_cons_hd. simpl. lia. }
    destruct (Hrecv 2 (open_socket true false)) as (_ & _ & H2);
      [lia|eexists; vm_compute; reflexivity|vm_compute; reflexivity|reflexivity|].
    destruct (Hrecv 3 (open_socket true false)) as (_ & _ & H3);
      [lia|eexists; vm_compute; reflexivity|vm_compute; reflexivity|reflexivity|].
    split; [exact Hc|]. split; [exact Hs|].
    split; [apply H2|apply H3]; repeat constructor; simpl; lia.
Defined.

(** *** The heartbeat and the [clientLeft] event *)

(** The heartbeat deletes an unresponsive connection from the registry
    before it terminates it. *)
Lemma heartbeatOne_unregisters st ws sock :
  sockets st !! ws = Some sock ->
  isAlive sock = false ->
  clients (heartbeatOne st ws) !! ws = None /\
  closing (heartbeatOne st ws) = closing st ++ [ws].
Proof.
  intros Hsock Hdead. unfold heartbeatOne. rewrite Hsock, Hdead. cbn [negb].
  unfold terminate. cbn [sockets set_clients]. rewrite Hsock. cbn.
  by rewrite lookup_delete_eq.
Qed.

(** The [close] handler of a connection that is no longer in the registry
    broadcasts a [clientLeft] without a [clientId]. *)
Lemma on_close_unregistered st ws :
  clients st !! ws = None ->
  on_close ws st =
  (broadcast (EvClientLeft None (base.size (clients st))) ws st).1.
Proof.
  intros H. unfold on_close. rewrite H. cbn [fmap option_fmap option_map].
  rewrite delete_id by done. by destruct st.
Qed.

(** The [close] handler of a registered connection broadcasts its id. *)
Lemma on_close_registered st ws info :
  clients st !! ws = Some info ->
  on_close ws st =
  (broadcast (EvClientLeft (Some (info_id info)) (base.size (delete ws (clients st))))
             ws (set_clients (delete ws (clients st)) st)).1.
Proof. intros H. unfold on_close. by rewrite H. Qed.

(** C8, on the code. Connection 1 ("client_a") has not answered the last
    probe. The heartbeat takes it out of the registry and terminates it, and
    its [close] event makes the server broadcast a [clientLeft] with the new
    count 1, but without a [clientId]: the handler looks the connection up
    in the registry the heartbeat has just deleted it from. When the same
    connection closes by itself, the event carries "client_a". *)
Lemma heartbeat_clientLeft_lacks_id :
  clients (drainClosing (heartbeat unresponsive_peer)) !! 1 = None /\
  readyState <$> sockets (drainClosing (heartbeat unresponsive_peer)) !! 1
    = Some CLOSED /\
  received <$> sockets (drainClosing (heartbeat unresponsive_peer)) !! 2
    = Some [EvClientLeft None 1] /\
  received <$> sockets (closeEvent unresponsive_peer 1) !! 2
    = Some [EvClientLeft (Some (str "client_a")) 1].
Proof. repeat split; vm_compute; reflexivity. Qed.

End ServerFacts.

(** ** Further properties of the trail store *)

Module TrailExtra.
Import JsString JsValue Server Client Protocol TrailFacts.

Lemma set_allTrails_twice m1 m2 st :
  set_allTrails m1 (set_allTrails m2 st) = set_allTrails m1 st.
Proof. done. Qed.

Lemma filter_twice {A} (f g : A -> bool) (l : list A) :
  (forall x, In x l -> g x = true -> f x = true) ->
  List.filter g (List.filter f l) = List.filter g l.
Proof.
  induction l as [|x l IH]; intros H; [done|]. cbn [List.filter].
  destruct (f x) eqn:Ef.
  - cbn [List.filter]. destruct (g x); [f_equal|]; apply IH;
      intros y Hy; apply H; by right.
  - assert (Eg : g x = false).
    { destruct (g x) eqn:Eg; [|done]. rewrite H in Ef; [done|by left|done]. }
    rewrite Eg. apply IH. intros y Hy. apply H. by right.
Qed.

(** Pruning for a later tick after pruning for an earlier one. *)
Lemma prune_twice t1 t2 pts :
  (forall p, In p pts -> activePoint t2 p = true -> activePoint t1 p = true) ->
  prune t1 pts ≫= prune t2 = prune t2 pts.
Proof.
  intros H.
  pose proof (filter_twice (activePoint t1) (activePoint t2) pts H) as Hf.
  unfold prune.
  destruct (List.filter (activePoint t1) pts) as [|a l] eqn:E;
    cbn [mbind option_bind].
  - by rewrite <-Hf.
  - by rewrite Hf.
Qed.

Lemma pruned_twice t1 t2 st :
  (forall id pts p, allTrails st !! id = Some pts -> In p pts ->
     activePoint t2 p = true -> activePoint t1 p = true) ->
  set_allTrails
    (omap (prune t2)
       (allTrails (set_allTrails (omap (prune t1) (allTrails st)) st)))
    (set_allTrails (omap (prune t1) (allTrails st)) st) =
  set_allTrails (omap (prune t2) (allTrails st)) st.
Proof.
  intros H. cbn [allTrails set_allTrails]. rewrite set_allTrails_twice. f_equal.
  apply map_eq. intros id. rewrite !lookup_omap.
  destruct (allTrails st !! id) as [pts|] eqn:E; [|done]. simpl.
  apply prune_twice. intros p. by apply (H id pts).
Qed.

(** X1. A tick on which painting returns throughout runs to its end, and a
    second tick at the same instant, if painting returns on it too, changes
    nothing. *)
Theorem renderAllTrails_idempotent (paint : Painter) (keys : list jsstring)
    (now : Z) (st : State) :
  keysOf keys st ->
  paintable paint now st ->
  exists st1,
    renderAllTrails paint keys now st = Returned st1 /\
    forall paint2 keys2,
      keysOf keys2 st1 -> paintable paint2 now st1 ->
      renderAllTrails paint2 keys2 now st1 = Returned st1.
Proof.
  intros Hkeys Hpaint. eexists. split; [by apply renderAllTrails_returns|].
  intros paint2 keys2 Hkeys2 Hpaint2.
  rewrite (renderAllTrails_returns paint2 keys2 now _ Hkeys2 Hpaint2).
  f_equal. by apply pruned_twice.
Qed.

(** The theorem at the one-point store and two ticks at time 3000. *)
Lemma renderAllTrails_idempotent_witness :
  exists st1,
    renderAllTrails (paintsUnless (str "xyz")) [str "client_a"] 3000 one_point
      = Returned st1 /\
    renderAllTrails (paintsUnless (str "xyz")) [str "client_a"] 3000 st1
      = Returned st1.
Proof.
  destruct (renderAllTrails_idempotent (paintsUnless (str "xyz")) [str "client_a"]
              3000 one_point)
    as (st1 & Hr & Hagain).
  - apply keysOf_one_point.
  - apply (bool_decide_unpack _). vm_compute. exact I.
  - exists st1. split; [exact Hr|].
    vm_compute in Hr. injection Hr as <-. apply Hagain.
    + split; [|split]; apply (bool_decide_unpack _); vm_compute; exact I.
    + apply (bool_decide_unpack _). vm_compute. exact I.
Defined.

(** X2. On a store none of whose points is stamped after [t1], a tick at
    [t1] followed by a tick at a later [t2] leaves what the tick at [t2]
    alone leaves, the ticks being those on which painting returns
    throughout: pruning loses nothing by running often. *)
Theorem renderAllTrails_later_tick (paint : Painter) (keys : list jsstring)
    (t1 t2 : Z) (st : State) :
  (t1 <= t2)%Z ->
  stampedBy t1 st ->
  keysOf keys st ->
  paintable paint t1 st ->
  exists st1,
    renderAllTrails paint keys t1 st = Returned st1 /\
    forall paint2 keys2 paint3,
      keysOf keys2 st1 -> paintable paint2 t2 st1 -> paintable paint3 t2 st ->
      exists st2,
        renderAllTrails paint2 keys2 t2 st1 = Returned st2 /\
        renderAllTrails paint3 keys t2 st = Returned st2.
Proof.
  intros Ht Hpast Hkeys Hpaint. eexists.
  split; [by apply renderAllTrails_returns|].
  intros paint2 keys2 paint3 Hkeys2 Hpaint2 Hpaint3. eexists.
  split; [|by apply renderAllTrails_returns].
  rewrite (renderAllTrails_returns paint2 keys2 t2 _ Hkeys2 Hpaint2).
  f_equal. apply pruned_twice. intros id pts p E Hp.
  pose proof (Hpast id pts E) as Hpts. rewrite Forall_forall in Hpts.
  assert (Hts : (timestamp p <= t1)%Z) by (apply Hpts; by apply list_elem_of_In).
  rewrite !activePoint_threshold by lia.
  rewrite !Z.leb_le. lia.
Qed.

(** The theorem at the one-point store, for ticks at 1000 and 3000. *)
Lemma renderAllTrails_later_tick_witness :
  exists st1 st2,
    renderAllTrails (paintsUnless (str "xyz")) [str "client_a"] 1000 one_point
      = Returned st1 /\
    renderAllTrails (paintsUnless (str "xyz")) [str "client_a"] 3000 st1
      = Returned st2 /\
    renderAllTrails (paintsUnless (str "xyz")) [str "client_a"] 3000 one_point
      = Returned st2.
Proof.
  destruct (renderAllTrails_later_tick (paintsUnless (str "xyz")) [str "client_a"]
              1000 3000 one_point)
    as (st1 & Hr & Hlater).
  - lia.
  - unfold stampedBy. apply (bool_decide_unpack _). vm_compute. exact I.
  - apply keysOf_one_point.
  - apply (bool_decide_unpack _). vm_compute. exact I.
  - destruct (Hlater (paintsUnless (str "xyz")) [str "client_a"]
                     (paintsUnless (str "xyz")))
      as (st2 & H2 & H3).
    + vm_compute in Hr. injection Hr as <-.
      split; [|split]; apply (bool_decide_unpack _); vm_compute; exact I.
    + vm_compute in Hr. injection Hr as <-.
      apply (bool_decide_unpack _). vm_compute. exact I.
    + apply (bool_decide_unpack _). vm_compute. exact I.
    + exists st1, st2. split; [exact Hr|]. split; [exact H2|exact H3].
Defined.



End TrailExtra.

(** ** Further properties of the client *)

Module ClientExtra.
Import JsString JsValue Server Client Protocol JsStringFacts.

Abbreviation lo := (Fin (1 # 2)).
Abbreviation hi := (Fin 3).

(** *** The client's [clamp] *)

Lemma client_clamp_within (v : number) : within (1 # 2) 3 (Client.clamp v lo hi).
Proof.
  destruct v as [| | |q]; try (split; unfold Qle; simpl; lia).
  unfold Client.clamp, Math_max, Math_min, within.
  destruct (Qle_bool q (1 # 2)) eqn:E1.
  - cbn. split; unfold Qle; simpl; lia.
  - destruct (Qle_bool 3 q) eqn:E2.
    + split; unfold Qle; simpl; lia.
    + split.
      * apply Qlt_le_weak, Qnot_le_lt. intros H. apply Qle_bool_iff in H. congruence.
      * apply Qlt_le_weak, Qnot_le_lt. intros H. apply Qle_bool_iff in H. congruence.
Qed.

(** X3. The client's [clamp] sends every number into [0.5, 3]: a finite
    one to itself or the nearer bound, and NaN and both infinities to the
    lower bound 0.5 (the server's [clamp] sends +Infinity to 3). *)
Theorem client_clamp_total (v : number) :
  within (1 # 2) 3 (Client.clamp v lo hi) /\
  (forall q, v = Fin q -> (1 # 2 <= q)%Q -> (q <= 3)%Q ->
     exists q', Client.clamp v lo hi = Fin q' /\ (q' == q)%Q) /\
  ((forall q, v <> Fin q) -> Client.clamp v lo hi = lo) /\
  Client.clamp PosInf lo hi = lo /\ Server.clamp PosInf lo hi = hi.
Proof.
  split; [apply client_clamp_within|]. split; [|split; [|done]].
  - intros q -> H1 H2. unfold Client.clamp, Math_max, Math_min.
    destruct (Qle_bool q (1 # 2)) eqn:E1.
    + apply Qle_bool_iff in E1. exists (1 # 2)%Q. split; [done|].
      by apply Qle_antisym.
    + destruct (Qle_bool 3 q) eqn:E2.
      * apply Qle_bool_iff in E2. exists 3%Q. split; [done|].
        by apply Qle_antisym.
      * by exists q.
  - intros H. destruct v as [| | |q]; try done. by destruct (H q).
Qed.

(** *** The mirror of a remote identity *)

Lemma toUpperCase_length (s : jsstring) : length (toUpperCase s) = length s.
Proof. unfold toUpperCase. apply length_map. Qed.

Lemma slice_last_length n (s : jsstring) : length (slice_last n s) <= n.
Proof. unfold slice_last. rewrite length_drop. lia. Qed.

Lemma getFallbackUsername_shape (id : jsstring) :
  getFallbackUsername id <> [] /\ length (getFallbackUsername id) <= 9.
Proof.
  unfold getFallbackUsername. destruct (negb (nonEmpty id)).
  - split; [done|]. vm_compute. lia.
  - split; [done|]. rewrite length_app, toUpperCase_length.
    pose proof (slice_last_length 4 id). change (length (str "Star-")) with 5. lia.
Qed.

Lemma strEq_true (a b : jsstring) : strEq a b = true -> a = b.
Proof. unfold strEq. apply bool_decide_eq_true_1. Qed.

(** X4. Whatever settings object a message carries and whatever the
    identity, the record the client mirrors for a remote identity
    ([applyRemoteSettings], the [mousePosition] case) has every field in
    range, and its username is never empty. *)
Theorem remoteSettings_valid (clientId : jsstring) (settings : WireSettings) :
  validSettings (remoteSettings clientId settings) /\
  username (remoteSettings clientId settings) <> [].
Proof.
  assert (Hname : username (remoteSettings clientId settings) <> [] /\
                  length (username (remoteSettings clientId settings)) <= 18).
  { unfold remoteSettings; cbn [username].
    destruct (nonEmpty (w_username settings) && nonEmpty (trim (w_username settings)))
      eqn:E.
    - apply andb_true_iff in E as [_ E]. apply nonEmpty_true in E. split.
      + intros H. apply (trim_slice_nonempty 18 (w_username settings)); [done..|].
        by rewrite H.
      + apply slice_to_length.
    - destruct (getFallbackUsername_shape clientId). split; [done|lia]. }
  split; [|apply Hname].
  unfold validSettings, remoteSettings; cbn [color size glow cursorMode].
  split.
  { destruct (nonEmpty (w_color settings)) eqn:E; [by apply nonEmpty_true|done]. }
  split; [apply client_clamp_within|]. split; [apply client_clamp_within|].
  split; [|apply Hname].
  destruct (strEq _ _); auto.
Qed.

(** *** What a message leaves alone *)

Lemma applyRemoteSettings_frame id s now st :
  allTrails (applyRemoteSettings id s now st) = allTrails st /\
  current (applyRemoteSettings id s now st) = current st /\
  clientId (applyRemoteSettings id s now st) = clientId st /\
  sent (applyRemoteSettings id s now st) = sent st /\
  ws (applyRemoteSettings id s now st) = ws st /\
  settingsUpdateTimeout (applyRemoteSettings id s now st) = settingsUpdateTimeout st.
Proof. unfold applyRemoteSettings. by destruct (_ || _). Qed.

Lemma applyRemoteSettings_all_frame (l : list (jsstring * WireSettings)) now st :
  let st' := foldl (fun st entry => applyRemoteSettings entry.1 entry.2 now st) st l in
  allTrails st' = allTrails st /\ current st' = current st /\
  clientId st' = clientId st /\ sent st' = sent st /\ ws st' = ws st.
Proof.
  revert st. induction l as [|[id s] l IH]; intros st; [done|]. cbn [foldl fst snd].
  destruct (applyRemoteSettings_frame id s now st) as (H1 & H2 & H3 & H4 & H5 & _).
  destruct (IH (applyRemoteSettings id s now st)) as (I1 & I2 & I3 & I4 & I5).
  repeat split; congruence.
Qed.

Lemma applyLocalSettingsAck_frame s st :
  allTrails (applyLocalSettingsAck s st) = allTrails st /\
  otherCursors (applyLocalSettingsAck s st) = otherCursors st /\
  clientId (applyLocalSettingsAck s st) = clientId st /\
  sent (applyLocalSettingsAck s st) = sent st /\
  ws (applyLocalSettingsAck s st) = ws st.
Proof.
  unfold applyLocalSettingsAck. destruct s as [s|]; [|done]. by destruct (ownId _).
Qed.

Lemma sendSettingsUpdate_frame st :
  allTrails (sendSettingsUpdate st) = allTrails st /\
  otherCursors (sendSettingsUpdate st) = otherCursors st /\
  current (sendSettingsUpdate st) = current st /\
  clientId (sendSettingsUpdate st) = clientId st.
Proof.
  unfold sendSettingsUpdate. destruct (negb _); [done|]. by destruct (ownId _).
Qed.

Lemma drawTrail_frame id x y ts tg s now st :
  current (drawTrail id x y ts tg s now st) = current st /\
  clientId (drawTrail id x y ts tg s now st) = clientId st /\
  sent (drawTrail id x y ts tg s now st) = sent st /\
  ws (drawTrail id x y ts tg s now st) = ws st /\
  settingsUpdateTimeout (drawTrail id x y ts tg s now st) = settingsUpdateTimeout st.
Proof. unfold drawTrail. by destruct (_ && _). Qed.

(** X5. A message about the peers (anything but the welcome, an
    acknowledgement or a [userSettings] with the client's own identity)
    never changes the local user's settings or identity, sends nothing, and
    leaves the socket and the settings timer as they were. *)
Theorem peer_message_frame (data : Message) (now : Z) (st : State) :
  addressesSelf st data = false ->
  current (handleMessage data now st) = current st /\
  clientId (handleMessage data now st) = clientId st /\
  sent (handleMessage data now st) = sent st /\
  ws (handleMessage data now st) = ws st /\
  settingsUpdateTimeout (handleMessage data now st) = settingsUpdateTimeout st.
Proof.
  intros H.
  destruct data as [| id x y ts tg s | id x y s t | | id n os | id s | |id n | | | |];
    try discriminate H; cbn [handleMessage].
  - destruct (drawTrail_frame id x y ts tg s now st) as (?&?&?&?&?). done.
  - by destruct (_ && _).
  - done.
  - destruct os as [s|]; [|done]. destruct (_ && _); [|done].
    destruct (applyRemoteSettings_frame id s now (set_latestClientCount n st))
      as (_&?&?&?&?&?). done.
  - cbn in H. rewrite H.
    destruct (applyRemoteSettings_frame id s now st) as (_&?&?&?&?&?). done.
  - by destruct (nonEmpty id).
  - done.
  - done.
  - done.
  - done.
Qed.

(** The theorem at a [clientLeft] received by the busy client. *)
Lemma peer_message_frame_witness :
  current (handleMessage (ClientLeft (str "client_b") 1) 200 busy) = current busy /\
  sent (handleMessage (ClientLeft (str "client_b") 1) 200 busy) = sent busy.
Proof.
  destruct (peer_message_frame (ClientLeft (str "client_b") 1) 200 busy)
    as (H1 & _ & H3 & _).
  - reflexivity.
  - split; [exact H1|exact H3].
Defined.


(** *** The cap on a remote trail *)

Lemma capped_trail (old : list TrailPoint) (p : TrailPoint) :
  length old <= 500 ->
  let arr := old ++ [p] in
  length (if 500 <? length arr then tail arr else arr) <= 500 /\
  last (if 500 <? length arr then tail arr else arr) = Some p.
Proof.
  intros H arr. subst arr.
  destruct (500 <? length (old ++ [p])) eqn:E.
  - apply Nat.ltb_lt in E. rewrite length_app in E. simpl in E.
    destruct old as [|a old]; [simpl in E; lia|]. simpl in *. split.
    + rewrite length_app. simpl. lia.
    + apply last_snoc.
  - apply Nat.ltb_ge in E. split; [done|]. apply last_snoc.
Qed.

Lemma shifted_trail (old : list TrailPoint) (p : TrailPoint) :
  length old <= 500 ->
  (if 500 <? length (old ++ [p]) then tail (old ++ [p]) else old ++ [p]) =
  (if length old <? 500 then old ++ [p] else tail old ++ [p]).
Proof.
  intros H. rewrite length_app. cbn [length].
  destruct (length old <? 500) eqn:E.
  - apply Nat.ltb_lt in E. rewrite (proj2 (Nat.ltb_ge _ _)) by lia. done.
  - apply Nat.ltb_ge in E. rewrite (proj2 (Nat.ltb_lt _ _)) by lia.
    destruct old as [|a old]; [simpl in E; lia|]. done.
Qed.

(** X6. No message makes a trail longer than 500 points: on a store whose
    trails are within the cap, handling any message leaves them within it.
    A relayed [lightTrail] appends its point, stamped with the local clock,
    to the sender's trail: the points already there are kept, in order,
    but for the oldest when the trail held 500; the other trails are as
    they were. *)
Theorem handleMessage_capped (data : Message) (now : Z) (st : State) :
  capped st ->
  capped (handleMessage data now st) /\
  (forall id x y ts tg s,
     data = LightTrail id x y ts tg s ->
     exists p,
       timestamp p = now /\ pt_x p = x /\ pt_y p = y /\ pt_color p = w_color s /\
       allTrails (handleMessage data now st) !! id =
         Some (if length (default [] (allTrails st !! id)) <? 500
               then default [] (allTrails st !! id) ++ [p]
               else tail (default [] (allTrails st !! id)) ++ [p]) /\
       forall id', id' <> id ->
         allTrails (handleMessage data now st) !! id' = allTrails st !! id').
Proof.
  intros Hcap. split.
  - unfold capped in *.
    destruct data as [id n os l| id x y ts tg s | id x y s t | | id n os | id s | s
                     |id n | | | |]; cbn [handleMessage]; try done.
    + match goal with
      | |- context [sendSettingsUpdate ?a] =>
          destruct (sendSettingsUpdate_frame a) as (-> & _)
      end.
      match goal with
      | |- context [foldl ?f ?a l] =>
          destruct (applyRemoteSettings_all_frame l now a) as (-> & _)
      end.
      destruct os as [s|].
      * match goal with
        | |- context [applyLocalSettingsAck ?o ?a] =>
            destruct (applyLocalSettingsAck_frame o a) as (-> & _)
        end.
        by destruct (nonEmpty id).
      * by destruct (nonEmpty id).
    + unfold drawTrail.
      assert (Hold : length (default [] (allTrails st !! id)) <= 500).
      { destruct (allTrails st !! id) as [pts|] eqn:E; simpl; [|lia].
        by apply (Hcap id pts). }
      match goal with
      | |- context [mkPoint ?a ?b ?c ?d ?e ?f] =>
          destruct (capped_trail _ (mkPoint a b c d e f) Hold) as [Hlen _]
      end.
      destruct (_ && _); cbn [allTrails set_otherCursors set_userSettings set_allTrails];
        by apply map_Forall_insert_2.
    + by destruct (_ && _).
    + destruct os as [s|]; [|done]. destruct (_ && _); [|done].
      by destruct (applyRemoteSettings_frame id s now (set_latestClientCount n st))
        as (-> & _).
    + destruct (isOwnId st id).
      * by destruct (applyLocalSettingsAck_frame (Some s) st) as (-> & _).
      * by destruct (applyRemoteSettings_frame id s now st) as (-> & _).
    + by destruct (applyLocalSettingsAck_frame (Some s) st) as (-> & _).
    + destruct (nonEmpty id); [|done]. cbn. by apply map_Forall_delete.
  - intros id x y ts tg s ->. cbn [handleMessage]. unfold drawTrail.
    assert (Hold : length (default [] (allTrails st !! id)) <= 500).
    { destruct (allTrails st !! id) as [pts|] eqn:E; simpl; [|lia].
      by apply (Hcap id pts). }
    match goal with
    | |- context [mkPoint ?a ?b ?c ?d ?e ?f] =>
        pose proof (shifted_trail _ (mkPoint a b c d e f) Hold) as Hshift;
        exists (mkPoint a b c d e f)
    end.
    cbn zeta. rewrite Hshift.
    split; [done|]. split; [done|]. split; [done|]. split; [done|]. split.
    + destruct (_ && _);
        cbn [allTrails set_otherCursors set_userSettings set_allTrails];
        apply lookup_insert_eq.
    + intros id' Hne.
      destruct (_ && _);
        cbn [allTrails set_otherCursors set_userSettings set_allTrails];
        by apply lookup_insert_ne.
Qed.

(** The theorem at the busy client and one more point of "client_b". *)
Lemma handleMessage_capped_witness :
  capped
    (handleMessage
       (LightTrail (str "client_b") 51%float 61%float None None (toWire DEFAULT_SETTINGS))
       140 busy) /\
  length <$>
    (allTrails
       (handleMessage
          (LightTrail (str "client_b") 51%float 61%float None None
                      (toWire DEFAULT_SETTINGS))
          140 busy) !! str "client_b") = Some 2.
Proof.
  split; [|vm_compute; reflexivity].
  apply handleMessage_capped.
  unfold capped. apply (bool_decide_unpack _). vm_compute. exact I.
Defined.


(** *** The acknowledged settings *)

Lemma ownId_set_current cur st : ownId (set_current cur st) = ownId st.
Proof. done. Qed.

(** X7. Applying a settings acknowledgement keeps the local settings in
    range when they were, whatever the argument: an object of the shape
    the server sends (strings for colour, cursor mode and username, a number
    or [null] for size and glow, each possibly absent) or a falsy value. On
    an object the client's own entry of the mirror is left equal to the
    local settings; on a falsy value the function returns at once and
    nothing changes, the mirror included. *)
Theorem applyLocalSettingsAck_valid (settings : option WireSettings) (st : State) :
  validSettings (current st) ->
  validSettings (current (applyLocalSettingsAck settings st)) /\
  (forall id, is_Some settings -> ownId st = Some id ->
     userSettings (applyLocalSettingsAck settings st) !! id =
     Some (current (applyLocalSettingsAck settings st))) /\
  (settings = None -> applyLocalSettingsAck settings st = st).
Proof.
  intros Hvalid. destruct settings as [settings|]; cbn [applyLocalSettingsAck].
  2:{ split; [done|]. split; [|done]. by intros id [? ?]. }
  destruct Hvalid as (Hc & Hs & Hg & Hm & Hu).
  rewrite ownId_set_current.
  match goal with
  | |- context [set_current ?c st] => set (cur := c)
  end.
  assert (Hcur : validSettings cur).
  { subst cur. unfold validSettings; cbn [color size glow cursorMode username].
    split.
    { destruct (nonEmpty (w_color settings)) eqn:E; [by apply nonEmpty_true|done]. }
    split.
    { destruct (w_size settings); [apply client_clamp_within|done]. }
    split.
    { destruct (w_glow settings); [apply client_clamp_within|done]. }
    split.
    { destruct (strEq (w_cursorMode settings) (str "star")) eqn:E1.
      - right. by apply strEq_true.
      - destruct (strEq (w_cursorMode settings) (str "halo")) eqn:E2; [|done].
        left. by apply strEq_true. }
    destruct (nonEmpty (trim (w_username settings))); [apply slice_to_length|done]. }
  destruct (ownId st) as [own|] eqn:Eo.
  - split; [done|]. split; [|done]. intros id _ [= <-]. cbn. apply lookup_insert_eq.
  - split; [done|]. split; [|done]. by intros id.
Qed.

(** The theorem at the busy client: an acknowledgement that sets the star
    cursor and an oversized glow, and a [null] one. *)
Lemma applyLocalSettingsAck_valid_witness :
  validSettings
    (current (applyLocalSettingsAck
                (Some (mkWire [] None (Some (Fin 9)) (str "star") [])) busy)) /\
  userSettings
    (applyLocalSettingsAck
       (Some (mkWire [] None (Some (Fin 9)) (str "star") [])) busy)
    !! str "client_me" =
  Some (mkSettings (str "#ff6b6b") (Fin 1) (Fin 3) (str "star") (str "Nova-123")) /\
  applyLocalSettingsAck None busy = busy.
Proof.
  assert (Hbusy : validSettings (current busy)).
  { repeat split; try (unfold Qle; simpl; lia); try discriminate.
    left. reflexivity. }
  destruct (applyLocalSettingsAck_valid
              (Some (mkWire [] None (Some (Fin 9)) (str "star") [])) busy Hbusy)
    as (H1 & H2 & _).
  split; [exact H1|]. split.
  - rewrite (H2 (str "client_me")); [vm_compute; reflexivity|by eexists|reflexivity].
  - reflexivity.
Defined.

(** *** The throttle on cursor messages *)

Lemma trackMousePosition_cases x y now st :
  let st' := trackMousePosition x y now st in
  (sent st' = sent st /\ lastMousePositionSent st' = lastMousePositionSent st) \/
  (length (sent st') <= S (length (sent st)) /\ lastMousePositionSent st' = now).
Proof.
  unfold trackMousePosition. cbn.
  destruct (_ <? _)%Z; [by left|]. right.
  unfold isOpen; cbn. destruct (ws st) as [[]|]; cbn; rewrite ?length_app; simpl; lia.
Qed.

Lemma trackMousePosition_throttled x y now st :
  (now - lastMousePositionSent st < 50)%Z ->
  sent (trackMousePosition x y now st) = sent st /\
  lastMousePositionSent (trackMousePosition x y now st) = lastMousePositionSent st.
Proof.
  intros H. unfold trackMousePosition, mousePositionThrottle. cbn.
  apply Z.ltb_lt in H. by rewrite H.
Qed.

Lemma mouseMoves_throttled t0 moves st :
  Forall (fun m => (t0 <= m.2 < t0 + 50)%Z) moves ->
  (t0 <= lastMousePositionSent st)%Z ->
  sent (mouseMoves moves st) = sent st.
Proof.
  unfold mouseMoves. intros Hall. revert st.
  induction Hall as [|[[x y] t] moves Ht _ IH]; intros st Hlast; [done|].
  cbn [foldl fst snd]. simpl in Ht.
  destruct (trackMousePosition_throttled x y t st) as [Hs Hl]; [lia|].
  rewrite IH by lia. done.
Qed.

(** X8. However many times the mouse moves within one window of 50 ms, at
    most one [mousePosition] message is sent. *)
Theorem mouseMoves_one_message (t0 : Z) (moves : list (float * float * Z))
    (st : State) :
  Forall (fun m => (t0 <= m.2 < t0 + 50)%Z) moves ->
  length (sent (mouseMoves moves st)) <= S (length (sent st)).
Proof.
  intros Hall. revert st.
  induction Hall as [|[[x y] t] moves Ht Hall IH]; intros st; [simpl; lia|].
  change (mouseMoves ((x, y, t) :: moves) st)
    with (mouseMoves moves (trackMousePosition x y t st)).
  simpl in Ht.
  destruct (trackMousePosition_cases x y t st) as [[Hs Hl]|[Hs Hl]].
  - rewrite <-Hs. apply IH.
  - rewrite (mouseMoves_throttled t0) by (done || lia). done.
Qed.

(** The theorem at three moves within 30 ms on an open socket. *)
Lemma mouseMoves_one_message_witness :
  length (sent (mouseMoves
                  [ (1%float, 1%float, 1000%Z); (2%float, 2%float, 1010%Z);
                    (3%float, 3%float, 1030%Z) ]
                  (onopen fresh))) <= 2.
Proof.
  apply (mouseMoves_one_message 1000).
  repeat constructor; simpl; lia.
Defined.

End ClientExtra.

(** ** Further properties of the server *)

Module ServerExtra.
Import JsString JsValue Server Client Protocol JsStringFacts SettingsFacts ServerFacts.

(** *** Records that need no sanitizing *)

(** X9. A record that is already in range, with colour and username free of
    outer white space and a username that is not empty, comes back from
    [sanitizeSettings] unchanged, whatever the fallback: what a client
    sends from valid settings is what the server stores and acknowledges. *)
Theorem sanitizeSettings_fixes_normal (s : Settings) (fallback : Fallback) :
  normalSettings s ->
  sanitizeSettings (as_raw s) fallback = s.
Proof.
  intros ((Hc & Hs & Hg & Hm & Hu) & Htc & Htu & Hne).
  apply settings_eq. unfold sanitizeSettings, numericValue, nullish.
  cbn [color size glow cursorMode username as_raw raw_color raw_size raw_glow
       raw_cursorMode raw_username usableString truthy].
  unfold trimmed in Htc, Htu. rewrite Htc, Htu.
  apply nonEmpty_true in Hc as Hcb, Hne as Hub. rewrite Hcb, Hub.
  split; [done|]. split; [by apply clamp_fixed|]. split; [by apply clamp_fixed|].
  split.
  - destruct Hm as [-> | ->]; reflexivity.
  - by apply slice_to_short.
Qed.

(** The theorem at a record with a star cursor and the name "Lyra-204". *)
Lemma sanitizeSettings_fixes_normal_witness :
  sanitizeSettings
    (as_raw (mkSettings (str "#112233") (Fin 2) (Fin (1 # 2)) (str "star")
                        (str "Lyra-204")))
    (as_fallback DEFAULT_SETTINGS)
  = mkSettings (str "#112233") (Fin 2) (Fin (1 # 2)) (str "star") (str "Lyra-204").
Proof.
  apply sanitizeSettings_fixes_normal.
  repeat split; try (unfold Qle; simpl; lia); try discriminate.
  right. reflexivity.
Defined.


(** *** What [broadcast] returns *)

Lemma broadcast_count_fold data sender st (m : gmap conn ClientInfo) :
  (map_fold (broadcastTo data sender) (st, 0) m).2 =
  base.size (filter (fun kv => reaches st sender kv.1 = true) m).
Proof.
  induction m as [|i x m Hi Hfirst IH] using map_first_key_ind.
  - by rewrite map_fold_empty, map_filter_empty, map_size_empty.
  - rewrite map_fold_insert_first_key by done.
    pose proof (broadcast_fanned data sender st m) as (Hs & _).
    set (r := map_fold (broadcastTo data sender) (st, 0) m) in *.
    assert (Hsi : sockets r.1 !! i = sockets st !! i).
    { rewrite Hs. destruct (sockets st !! i) as [sock|]; [|done]. simpl.
      by rewrite targeted_fresh. }
    unfold broadcastTo. rewrite Hsi.
    destruct (sockets st !! i) as [sock|] eqn:Esock.
    + destruct (bool_decide (i <> sender) && isOPEN (readyState sock)) eqn:Ecall.
      * destruct (sendThrows sock) eqn:Ethrow; cbn [snd].
        -- rewrite map_filter_insert_False, delete_id by
             (done || (cbn; unfold reaches; rewrite Esock, Ecall, Ethrow; done)).
           exact IH.
        -- rewrite map_filter_insert_True
             by (cbn; unfold reaches; by rewrite Esock, Ecall, Ethrow).
           rewrite map_size_insert_None; [by rewrite IH|].
           apply map_lookup_filter_None. by left.
      * rewrite map_filter_insert_False, delete_id by
          (done || (cbn; unfold reaches; rewrite Esock, Ecall; done)).
        exact IH.
    + rewrite map_filter_insert_False, delete_id by
        (done || (cbn; unfold reaches; rewrite Esock; done)).
      exact IH.
Qed.

(** X10. [broadcast] returns the number of registered connections the
    message got through to, and those are the connections whose socket has
    one more message, the broadcast one; the socket of the sender, of a
    connection that is not open and of one outside the registry is left as
    it was. *)
Theorem broadcast_count (data : ServerEvent) (sender : conn) (st : ServerState) :
  (broadcast data sender st).2 =
    base.size (filter (fun kv => reaches st sender kv.1 = true) (clients st)) /\
  (forall w sock,
     sockets st !! w = Some sock ->
     sockets (broadcast data sender st).1 !! w =
       Some (if registered (clients st) w && reaches st sender w
             then accept data sock
             else if targeted (clients st) sender w sock then reject sock else sock)) /\
  sockets (broadcast data sender st).1 !! sender = sockets st !! sender.
Proof.
  split; [apply broadcast_count_fold|]. split.
  - intros w sock Hsock. rewrite broadcast_sockets, Hsock. simpl. f_equal.
    unfold targeted, reaches, attempt. rewrite Hsock.
    destruct (registered (clients st) w); [|done]. simpl.
    destruct (bool_decide (w <> sender)); [|done]. simpl.
    destruct (isOPEN (readyState sock)); [|done]. simpl.
    by destruct (sendThrows sock).
  - rewrite broadcast_sockets.
    destruct (sockets st !! sender) as [sock|]; [|done]. simpl.
    unfold targeted. rewrite bool_decide_eq_false_2 by (intros H; by apply H).
    by rewrite andb_false_r.
Qed.

(** *** Closing *)

(** X11. When a registered connection closes, it leaves the registry, and
    every other registered connection with an open socket and a working
    transport stays registered and receives one [clientLeft] carrying the
    identity of the one that left and the size of the registry without it.
    A client that handles this event forgets the trail, the cursor and the
    mirrored settings of that identity, and of no other. *)
Theorem close_is_announced (ws : conn) (info : ClientInfo) (st : ServerState) :
  clients st !! ws = Some info ->
  let event := EvClientLeft (Some (info_id info)) (base.size (clients st) - 1) in
  clients (on_close ws st) !! ws = None /\
  (forall peer sock,
     peer <> ws -> is_Some (clients st !! peer) ->
     sockets st !! peer = Some sock -> readyState sock = OPEN ->
     sendThrows sock = false ->
     clients (on_close ws st) !! peer = clients st !! peer /\
     sockets (on_close ws st) !! peer = Some (accept event sock)) /\
  (forall (now : Z) (c : State),
     info_id info <> [] ->
     exists m, decode event = Some m /\
     allTrails (handleMessage m now c) = delete (info_id info) (allTrails c) /\
     otherCursors (handleMessage m now c) = delete (info_id info) (otherCursors c) /\
     userSettings (handleMessage m now c) = delete (info_id info) (userSettings c) /\
     latestClientCount (handleMessage m now c) = base.size (clients st) - 1).
Proof.
  intros Hinfo event. rewrite (on_close_registered st ws info Hinfo).
  rewrite map_size_delete_Some by by eexists.
  replace (Nat.pred (base.size (clients st))) with (base.size (clients st) - 1) by lia.
  fold event. split; [|split].
  - rewrite broadcast_clients. cbn [sockets set_clients clients].
    rewrite lookup_delete_eq. destruct (sockets st !! ws); [|done].
    by destruct (_ && _).
  - intros peer sock Hne Hreg Hsock Hopen Hok.
    destruct (broadcast_receiver event ws
                (set_clients (delete ws (clients st)) st) peer sock)
      as [Hc Hs]; try done.
    { cbn. by rewrite lookup_delete_ne. }
    split.
    + rewrite Hc. cbn. by rewrite lookup_delete_ne.
    + rewrite Hs. destruct (Nat.eqb_spec ws peer) as [?|_]; [congruence|done].
  - intros now c Hid. eexists. split; [reflexivity|].
    cbn. apply nonEmpty_true in Hid. rewrite Hid. done.
Qed.

(** The theorem at the close of connection 2 of the three. *)
Lemma close_is_announced_witness :
  clients (on_close 2 three_clients) !! 2 = None /\
  sockets (on_close 2 three_clients) !! 3 =
    Some (mkSocket OPEN true false [EvClientLeft (Some (str "client_b")) 2] 0).
Proof.
  destruct (close_is_announced 2 (info_of "client_b") three_clients)
    as (Hgone & Hpeers & _).
  - vm_compute. reflexivity.
  - split; [exact Hgone|].
    destruct (Hpeers 3 (open_socket true false)) as [_ Hs];
      [lia|eexists; vm_compute; reflexivity|vm_compute; reflexivity
      |reflexivity|reflexivity|].
    exact Hs.
Defined.


(** *** The liveness monitor *)

Lemma heartbeatOne_spec st w w' :
  sockets (heartbeatOne st w) !! w' =
    (if decide (w' = w) then probed <$> sockets st !! w' else sockets st !! w') /\
  clients (heartbeatOne st w) !! w' =
    (if decide (w' = w)
     then match sockets st !! w' with
          | Some sock => if isAlive sock then clients st !! w' else None
          | None => clients st !! w'
          end
     else clients st !! w') /\
  tracked (heartbeatOne st w) = tracked st /\
  (forall c, c ∈ closing (heartbeatOne st w) <->
             c ∈ closing st \/
             (c = w /\ exists sock, sockets st !! w = Some sock /\ isAlive sock = false)).
Proof.
  unfold heartbeatOne.
  destruct (sockets st !! w) as [sock|] eqn:E.
  - destruct (isAlive sock) eqn:Ea; cbn [negb].
    + cbn. repeat split.
      * destruct (decide (w' = w)) as [->|Hne].
        -- rewrite lookup_insert_eq, E. simpl. unfold probed. by rewrite Ea.
        -- by rewrite lookup_insert_ne.
      * destruct (decide (w' = w)) as [->|Hne]; [by rewrite E, Ea|done].
      * by left.
      * intros [? | (-> & s & Hs & Hd)]; [done|]. congruence.
    + unfold terminate. cbn [sockets set_clients]. rewrite E. cbn. repeat split.
      * destruct (decide (w' = w)) as [->|Hne].
        -- rewrite lookup_insert_eq, E. simpl. unfold probed. by rewrite Ea.
        -- by rewrite lookup_insert_ne.
      * destruct (decide (w' = w)) as [->|Hne].
        -- by rewrite lookup_delete_eq, E, Ea.
        -- by rewrite lookup_delete_ne.
      * rewrite elem_of_app, list_elem_of_singleton.
        intros [? | ->]; [by left|right]. split; [done|]. by exists sock.
      * rewrite elem_of_app, list_elem_of_singleton.
        intros [? | (-> & _)]; [by left|by right].
  - repeat split.
    + destruct (decide (w' = w)) as [->|Hne]; [by rewrite E|done].
    + destruct (decide (w' = w)) as [->|Hne]; [by rewrite E|done].
    + by left.
    + intros [? | (-> & s & Hs & _)]; [done|]. congruence.
Qed.

Lemma heartbeat_fold l st :
  NoDup l ->
  forall w',
    sockets (foldl heartbeatOne st l) !! w' =
      (if decide (w' ∈ l) then probed <$> sockets st !! w' else sockets st !! w') /\
    clients (foldl heartbeatOne st l) !! w' =
      (if decide (w' ∈ l)
       then match sockets st !! w' with
            | Some sock => if isAlive sock then clients st !! w' else None
            | None => clients st !! w'
            end
       else clients st !! w') /\
    tracked (foldl heartbeatOne st l) = tracked st /\
    (w' ∈ l -> forall sock, sockets st !! w' = Some sock -> isAlive sock = false ->
     w' ∈ closing (foldl heartbeatOne st l)) /\
    (w' ∈ closing st -> w' ∈ closing (foldl heartbeatOne st l)).
Proof.
  intros Hnd. revert st.
  induction Hnd as [|a l Ha Hnd IH]; intros st w'; cbn [foldl].
  - rewrite decide_False by apply not_elem_of_nil.
    repeat split; try done. by intros ?%elem_of_nil.
  - destruct (heartbeatOne_spec st a w') as (Hs & Hc & Ht & Hcl).
    destruct (IH (heartbeatOne st a) w') as (Is & Ic & It & Icl & Ikeep).
    split; [|split; [|split; [|split]]].
    + rewrite Is, Hs. destruct (decide (w' = a)) as [->|Hne].
      * rewrite (decide_False (P := a ∈ l)) by done.
        by rewrite (decide_True (P := a ∈ a :: l)) by left.
      * destruct (decide (w' ∈ l)) as [Hin|Hin].
        -- by rewrite (decide_True (P := w' ∈ a :: l)) by by right.
        -- by rewrite (decide_False (P := w' ∈ a :: l))
             by (intros [?|?]%elem_of_cons; done).
    + rewrite Ic, Hs, Hc. destruct (decide (w' = a)) as [->|Hne].
      * rewrite (decide_False (P := a ∈ l)) by done.
        by rewrite (decide_True (P := a ∈ a :: l)) by left.
      * destruct (decide (w' ∈ l)) as [Hin|Hin].
        -- by rewrite (decide_True (P := w' ∈ a :: l)) by by right.
        -- by rewrite (decide_False (P := w' ∈ a :: l))
             by (intros [?|?]%elem_of_cons; done).
    + by rewrite It, Ht.
    + intros Hin sock Hsock Hdead. destruct (decide (w' = a)) as [->|Hne].
      * apply Ikeep, Hcl. right. split; [done|]. by exists sock.
      * apply elem_of_cons in Hin as [?|Hin]; [done|].
        apply (Icl Hin sock); [|done]. rewrite Hs. by rewrite ?decide_False.
    + intros Hcur. apply Ikeep, Hcl. by left.
Qed.

Lemma on_pong_spec w st w' :
  sockets (on_pong w st) !! w' =
    (if decide (w' = w)
     then (fun sock => mkSocket (readyState sock) true (sendThrows sock)
                                (received sock) (failedSends sock))
            <$> sockets st !! w'
     else sockets st !! w') /\
  clients (on_pong w st) = clients st /\
  tracked (on_pong w st) = tracked st.
Proof.
  unfold on_pong. destruct (sockets st !! w) as [sock|] eqn:E; cbn.
  - repeat split. destruct (decide (w' = w)) as [->|Hne].
    + by rewrite lookup_insert_eq, E.
    + by rewrite lookup_insert_ne.
  - repeat split. destruct (decide (w' = w)) as [->|Hne]; [by rewrite E|done].
Qed.

(** X12. The liveness monitor, for a connection the library tracks (a set,
    so without repetition). If the connection was alive at a heartbeat and
    answers the probe before the next one, both heartbeats leave it
    registered with its socket state unchanged. If two heartbeats pass with
    no answer in between, it is out of the registry, its socket is being
    closed and its [close] event is due. *)
Theorem heartbeat_liveness (st : ServerState) (w : conn) (sock : Socket) :
  NoDup (tracked st) ->
  w ∈ tracked st ->
  sockets st !! w = Some sock ->
  (isAlive sock = true ->
   clients (heartbeat st) !! w = clients st !! w /\
   isAlive <$> sockets (heartbeat st) !! w = Some false /\
   clients (heartbeat (on_pong w (heartbeat st))) !! w = clients st !! w /\
   readyState <$> sockets (heartbeat (on_pong w (heartbeat st))) !! w
     = Some (readyState sock)) /\
  (clients (heartbeat (heartbeat st)) !! w = None /\
   readyState <$> sockets (heartbeat (heartbeat st)) !! w = Some CLOSING /\
   w ∈ closing (heartbeat (heartbeat st))).
Proof.
  intros Hnd Hin Hsock.
  destruct (heartbeat_fold (tracked st) st Hnd w) as (H1s & H1c & H1t & H1cl & _).
  fold (heartbeat st) in H1s, H1c, H1t, H1cl.
  rewrite decide_True in H1s by done. rewrite decide_True in H1c by done.
  rewrite Hsock in H1s, H1c.
  simpl in H1s. split.
  - intros Halive. rewrite Halive in H1c.
    assert (Hp : probed sock = mkSocket (readyState sock) false (sendThrows sock)
                                        (received sock) (failedSends sock))
      by (unfold probed; by rewrite Halive).
    rewrite Hp in H1s.
    split; [done|]. split; [by rewrite H1s|].
    destruct (on_pong_spec w (heartbeat st) w) as (Ps & Pc & Pt).
    rewrite decide_True, H1s in Ps by done. simpl in Ps.
    set (st2 := on_pong w (heartbeat st)) in *.
    assert (Hnd2 : NoDup (tracked st2)) by (by rewrite Pt, H1t).
    destruct (heartbeat_fold (tracked st2) st2 Hnd2 w) as (H2s & H2c & _).
    fold (heartbeat st2) in H2s, H2c.
    rewrite decide_True in H2s by (by rewrite Pt, H1t).
    rewrite decide_True in H2c by (by rewrite Pt, H1t).
    rewrite Ps in H2s, H2c. simpl in H2s, H2c.
    split; [by rewrite H2c, Pc|]. by rewrite H2s.
  - set (st1 := heartbeat st) in *.
    assert (Hnd1 : NoDup (tracked st1)) by (by rewrite H1t).
    destruct (heartbeat_fold (tracked st1) st1 Hnd1 w) as (H2s & H2c & _ & H2cl & H2k).
    fold (heartbeat st1) in H2s, H2c, H2cl, H2k.
    rewrite decide_True in H2s by (by rewrite H1t).
    rewrite decide_True in H2c by (by rewrite H1t).
    rewrite H1s in H2s, H2c. simpl in H2s, H2c.
    assert (Hdead : isAlive (probed sock) = false)
      by (unfold probed; by destruct (isAlive sock)).
    rewrite Hdead in H2c. split; [done|]. split.
    + rewrite H2s. simpl. unfold probed at 1. by rewrite Hdead.
    + apply (H2cl ltac:(by rewrite H1t) (probed sock)); done.
Qed.

(** The theorem at connection 2 of the two, which answered the last
    probe. *)
Lemma heartbeat_liveness_witness :
  clients (heartbeat (on_pong 2 (heartbeat unresponsive_peer))) !! 2
    = Some (info_of "client_b") /\
  clients (heartbeat (heartbeat unresponsive_peer)) !! 2 = None.
Proof.
  destruct (heartbeat_liveness unresponsive_peer 2 (open_socket true false))
    as [Hkept (Hgone & _)].
  - apply (bool_decide_unpack _). vm_compute. exact I.
  - apply (bool_decide_unpack _). vm_compute. exact I.
  - vm_compute. reflexivity.
  - destruct (Hkept eq_refl) as (_ & _ & H & _). split; [exact H|exact Hgone].
Defined.

End ServerExtra.

(** ** Further properties of the server: connections and messages *)

Module HandlerFacts.
Import JsString JsValue Server Protocol Handlers.
Import JsStringFacts SettingsFacts ServerFacts ServerExtra.

(** *** Sanitized records are in range *)

Lemma numericValue_number v fb dflt :
  v <> VNum NaN -> fb <> Some NaN -> dflt <> NaN -> numericValue v fb dflt <> NaN.
Proof.
  intros Hv Hfb Hd. unfold numericValue, nullish.
  destruct v as [| | |n| |]; destruct fb as [m|]; congruence.
Qed.

Lemma sanitize_valid data fb :
  parsedSettings data -> fb_size fb <> Some NaN -> fb_glow fb <> Some NaN ->
  validSettings (sanitizeSettings data fb).
Proof.
  intros [Hs Hg] Hfs Hfg. unfold validSettings.
  split; [apply sanitized_color_nonempty|].
  split; [|split; [|split; [apply sanitized_cursorMode|apply sanitized_username_length]]].
  - apply clamp_within. by apply numericValue_number.
  - apply clamp_within. by apply numericValue_number.
Qed.

Lemma within_number lo hi n : within lo hi n -> n <> NaN.
Proof. by destruct n. Qed.

Lemma sanitize_valid_update data s :
  parsedSettings data -> validSettings s ->
  validSettings (sanitizeSettings data (as_fallback s)).
Proof.
  intros Hd (_ & Hs & Hg & _). apply sanitize_valid; [done| |]; simpl.
  - intros [= H]. by apply within_number in Hs.
  - intros [= H]. by apply within_number in Hg.
Qed.

Lemma resanitized_valid info :
  validSettings (info_settings info) -> validSettings (resanitized info).
Proof.
  intros (_ & Hs & Hg & _). apply sanitize_valid; [|done|done].
  split; simpl; intros [= H]; [by apply within_number in Hs|by apply within_number in Hg].
Qed.

Lemma default_valid : validSettings DEFAULT_SETTINGS.
Proof.
  unfold validSettings; simpl. repeat split; try qconst; try done.
  by left.
Qed.

Lemma newcomer_settings :
  sanitizeSettings noSettings (as_fallback DEFAULT_SETTINGS) = DEFAULT_SETTINGS.
Proof. reflexivity. Qed.


(** *** The registry and the sockets stay valid *)

Lemma received_attempt data sock :
  received (attempt data sock) = received sock \/
  received (attempt data sock) = received sock ++ [data].
Proof. unfold attempt. destruct (sendThrows sock); [by left|by right]. Qed.

Lemma valid_broadcast data sender st :
  validServer st -> validEvent data -> validServer (broadcast data sender st).1.
Proof.
  intros [Hc Hs] Hd. split.
  - intros w info. rewrite broadcast_clients.
    destruct (sockets st !! w) as [sock|]; [|by apply Hc].
    destruct (_ && _); [done|by apply Hc].
  - intros w sock'. rewrite broadcast_sockets.
    destruct (sockets st !! w) as [sock|] eqn:E; [|done]. simpl.
    intros [= <-]. specialize (Hs w sock E). simpl in Hs.
    destruct (targeted _ _ _ _); [|done].
    destruct (received_attempt data sock) as [-> | ->]; [done|].
    apply Forall_app. split; [done|]. by constructor.
Qed.

Lemma valid_heartbeatOne st w : validServer st -> validServer (heartbeatOne st w).
Proof.
  intros [Hc Hs]. split.
  - intros w' info. rewrite (proj1 (proj2 (heartbeatOne_spec st w w'))).
    destruct (decide (w' = w)); [|by apply Hc].
    destruct (sockets st !! w') as [sock|]; [|by apply Hc].
    destruct (isAlive sock); [by apply Hc|done].
  - intros w' sock'. rewrite (proj1 (heartbeatOne_spec st w w')).
    destruct (decide (w' = w)); [|by apply Hs].
    destruct (sockets st !! w') as [sock|] eqn:E; [|done]. simpl.
    intros [= <-]. specialize (Hs w' sock E). simpl in Hs.
    unfold probed. by destruct (isAlive sock).
Qed.

Lemma valid_heartbeat st : validServer st -> validServer (heartbeat st).
Proof.
  unfold heartbeat. generalize (tracked st). intros l. revert st.
  induction l as [|w l IH]; intros st H; [done|].
  simpl. by apply IH, valid_heartbeatOne.
Qed.

Lemma valid_on_pong ws st : validServer st -> validServer (on_pong ws st).
Proof.
  intros [Hc Hs]. split.
  - by rewrite (proj1 (proj2 (on_pong_spec ws st ws))).
  - intros w' sock'. rewrite (proj1 (on_pong_spec ws st w')).
    destruct (decide (w' = ws)); [|by apply Hs].
    destruct (sockets st !! w') as [sock|] eqn:E; [|done]. simpl.
    intros [= <-]. by apply (Hs w' sock E).
Qed.

Lemma valid_closeEvent st ws : validServer st -> validServer (closeEvent st ws).
Proof.
  intros [Hc Hs]. unfold closeEvent, on_close. apply valid_broadcast; [|done].
  split.
  - cbn. apply map_Forall_delete.
    by destruct (sockets st !! ws).
  - cbn. destruct (sockets st !! ws) as [sock|] eqn:E; [|done]. cbn.
    apply map_Forall_insert_2; [|done]. by apply (Hs ws sock E).
Qed.

Lemma valid_set_closing l st : validServer st -> validServer (set_closing l st).
Proof. by intros [Hc Hs]. Qed.

(** *** The hub stays valid *)

Lemma valid_storeSettings ws s hub :
  validHub hub -> validSettings s -> validHub (storeSettings ws s hub).
Proof.
  intros (Hi & [Hc Hs] & Hr) Hv. split; [|split; [split|]]; try done.
  - intros w info. cbn. rewrite lookup_alter_Some.
    intros [(-> & x & _ & ->) | (_ & H)]; [done|by apply (Hi w)].
  - intros w info. cbn. rewrite lookup_alter_Some.
    intros [(-> & x & _ & ->) | (_ & H)]; [done|by apply (Hc w)].
Qed.

Lemma repliesTo_valid hub ws :
  map_Forall (fun _ l => Forall validReply l) (replies hub) ->
  Forall validReply (repliesTo hub ws).
Proof.
  intros Hr. unfold repliesTo. destruct (replies hub !! ws) as [l|] eqn:E; [|done].
  by apply (Hr ws l E).
Qed.

Lemma valid_reply ws r hub :
  validHub hub -> validReply r -> validHub (reply ws r hub).1.
Proof.
  intros (Hi & [Hc Hs] & Hr) Hv. unfold reply.
  destruct (sockets (server hub) !! ws) as [sock|] eqn:E; [|done].
  destruct (sendThrows sock); cbn.
  - split; [done|]. split; [|done]. split; [done|]. cbn.
    apply map_Forall_insert_2; [|done]. by apply (Hs ws sock E).
  - split; [done|]. split; [done|]. cbn.
    apply map_Forall_insert_2; [|done].
    apply Forall_app. split; [by apply repliesTo_valid|by constructor].
Qed.

Lemma valid_announce data sender hub :
  validHub hub -> validEvent data -> validHub (announce data sender hub).
Proof.
  intros (Hi & Hsrv & Hr) Hv. split; [done|]. split; [|done].
  by apply valid_broadcast.
Qed.

Lemma valid_onError ws hub hub' :
  validHub hub -> onError ws hub = Some hub' -> validHub hub'.
Proof.
  intros Hv. unfold onError.
  destruct (sockets (server hub) !! ws) as [sock|]; [|by intros [= <-]].
  destruct (isOPEN (readyState sock)); [|by intros [= <-]].
  destruct (reply ws RError hub).2 eqn:E; [done|]. intros [= <-].
  by apply valid_reply.
Qed.

Lemma valid_onMessage ws message now hub hub' :
  validHub hub -> parsedMessage message ->
  onMessage ws message now hub = Some hub' -> validHub hub'.
Proof.
  intros Hv Hp. unfold onMessage.
  destruct (infos hub !! ws) as [clientInfo|] eqn:Ei; [|by intros [= <-]].
  assert (Hprev : validSettings (info_settings clientInfo)).
  { destruct Hv as (Hi & _). by apply (Hi ws clientInfo Ei). }
  destruct message as [| |[data|trail data| | |x y data|]]; cbn zeta.
  - by intros [= <-].
  - by apply valid_onError.
  - pose proof (sanitize_valid_update data _ Hp Hprev) as Hs.
    match goal with |- context [reply ?w ?r ?h] => destruct (reply w r h).2 eqn:E end.
    + apply valid_onError. apply valid_reply; [|done]. by apply valid_storeSettings.
    + intros [= <-]. apply valid_announce; [|done].
      apply valid_reply; [|done]. by apply valid_storeSettings.
  - pose proof (sanitize_valid_update data _ Hp Hprev) as Hs.
    intros [= <-]. apply valid_announce; [|done]. by apply valid_storeSettings.
  - destruct (reply ws (RPong now) hub).2 eqn:E.
    + apply valid_onError. by apply valid_reply.
    + intros [= <-]. by apply valid_reply.
  - intros [= <-]. by apply valid_announce.
  - pose proof (sanitize_valid_update data _ Hp Hprev) as Hs.
    intros [= <-]. apply valid_announce; [|done]. by apply valid_storeSettings.
  - by intros [= <-].
Qed.

Lemma valid_snapshot clientId l acc :
  validHub acc.1 -> Forall (fun e => validSettings e.2) acc.2 ->
  validHub (foldl (snapshotOne clientId) acc l).1 /\
  Forall (fun e => validSettings e.2) (foldl (snapshotOne clientId) acc l).2.
Proof.
  revert acc. induction l as [|w l IH]; intros acc Hv Hl; [done|].
  simpl. apply IH; unfold snapshotOne.
  - destruct (clients (server acc.1) !! w) as [info|] eqn:E; [|done].
    destruct (strEq (info_id info) clientId); [done|]. cbn [fst].
    apply valid_storeSettings; [done|]. apply resanitized_valid.
    destruct Hv as (_ & [Hc _] & _). by apply (Hc w info E).
  - destruct (clients (server acc.1) !! w) as [info|] eqn:E; [|done].
    destruct (strEq (info_id info) clientId); [done|]. cbn [snd].
    apply Forall_app. split; [done|]. constructor; [|done]. cbn.
    apply resanitized_valid.
    destruct Hv as (_ & [Hc _] & _). by apply (Hc w info E).
Qed.

Lemma valid_onConnection ws throws clientId hub hub' :
  validHub hub -> onConnection ws throws clientId hub = Some hub' -> validHub hub'.
Proof.
  intros (Hi & [Hc Hs] & Hr). unfold onConnection. cbn zeta.
  rewrite newcomer_settings.
  match goal with
  | |- context [foldl (snapshotOne clientId) ?a ?l] =>
      destruct (valid_snapshot clientId l a) as [Hv Hl]
  end.
  { split; [|split; [split|]]; cbn.
    - apply map_Forall_insert_2; [apply default_valid|done].
    - apply map_Forall_insert_2; [apply default_valid|done].
    - apply map_Forall_insert_2; [done|]. by apply map_Forall_insert_2.
    - done. }
  { done. }
  match goal with |- context [reply ?w ?r ?h] => destruct (reply w r h).2 eqn:E end;
    [done|].
  intros [= <-]. apply valid_announce; [|apply default_valid].
  apply valid_reply; [done|]. split; [apply default_valid|done].
Qed.

Lemma valid_step hub i hub' :
  validHub hub -> parsedInput i -> step hub i = Some hub' -> validHub hub'.
Proof.
  intros Hv Hp. destruct i as [ws throws clientId|ws message now|ws|ws|]; simpl.
  - by apply valid_onConnection.
  - by apply valid_onMessage.
  - intros [= <-]. destruct Hv as (Hi & Hsrv & Hr).
    split; [done|]. split; [|done]. by apply valid_on_pong.
  - intros [= <-]. destruct Hv as (Hi & Hsrv & Hr).
    split; [done|]. split; [|done]. by apply valid_set_closing, valid_closeEvent.
  - intros [= <-]. destruct Hv as (Hi & Hsrv & Hr).
    split; [done|]. split; [|done]. by apply valid_heartbeat.
Qed.

Lemma run_snoc inputs i hub :
  run (inputs ++ [i]) hub = run inputs hub ≫= fun hub => step hub i.
Proof. unfold run. by rewrite foldl_app. Qed.

Lemma noHub_valid : validHub noHub.
Proof. split; [|split; [split|]]; apply map_Forall_empty. Qed.

(** X13. Whatever happens to a server that starts empty (connections,
    messages, pongs, closes, heartbeats, in any order), as long as the
    numbers of the messages are numbers [JSON.parse] can produce (any but
    NaN): every settings record the registry holds, every one a socket
    accepted from [broadcast], and every one sent in a welcome or an
    acknowledgement is in range. *)
Theorem run_valid (inputs : list Input) (hub : Hub) :
  Forall parsedInput inputs -> run inputs noHub = Some hub -> validHub hub.
Proof.
  revert hub. induction inputs as [|i inputs IH] using rev_ind; intros hub Hp.
  - intros [= <-]. apply noHub_valid.
  - apply Forall_app in Hp as [Hp Hi]. apply Forall_inv in Hi.
    rewrite run_snoc. destruct (run inputs noHub) as [mid|]; [|done]. simpl.
    apply valid_step; [|done]. by apply IH.
Qed.


Lemma run_valid_witness :
  Forall parsedInput session /\
  match run session noHub with Some hub => validHub hub | None => False end.
Proof.
  assert (Hp : Forall parsedInput session).
  { repeat constructor; simpl; congruence. }
  split; [exact Hp|].
  destruct (run session noHub) as [hub|] eqn:E.
  - exact (run_valid session hub Hp E).
  - vm_compute in E. discriminate E.
Defined.

(** *** No exception leaves a handler while the transports work *)

Lemma work_broadcast data sender st :
  allWork st -> allWork (broadcast data sender st).1.
Proof.
  intros Hw w sock'. rewrite broadcast_sockets.
  destruct (sockets st !! w) as [sock|] eqn:E; [|done]. simpl. intros [= <-].
  specialize (Hw w sock E). simpl in Hw.
  destruct (targeted _ _ _ _); [|done].
  by rewrite (proj1 (attempt_transport data sock)).
Qed.

Lemma work_heartbeatOne st w : allWork st -> allWork (heartbeatOne st w).
Proof.
  intros Hw w' sock'. rewrite (proj1 (heartbeatOne_spec st w w')).
  destruct (decide (w' = w)); [|by apply Hw].
  destruct (sockets st !! w') as [sock|] eqn:E; [|done]. simpl. intros [= <-].
  specialize (Hw w' sock E). simpl in Hw. unfold probed. by destruct (isAlive sock).
Qed.

Lemma work_heartbeat st : allWork st -> allWork (heartbeat st).
Proof.
  unfold heartbeat. generalize (tracked st). intros l. revert st.
  induction l as [|w l IH]; intros st H; [done|].
  simpl. by apply IH, work_heartbeatOne.
Qed.

Lemma work_on_pong ws st : allWork st -> allWork (on_pong ws st).
Proof.
  intros Hw w' sock'. rewrite (proj1 (on_pong_spec ws st w')).
  destruct (decide (w' = ws)); [|by apply Hw].
  destruct (sockets st !! w') as [sock|] eqn:E; [|done]. simpl. intros [= <-].
  by apply (Hw w' sock E).
Qed.

Lemma work_closeEvent st ws : allWork st -> allWork (closeEvent st ws).
Proof.
  intros Hw. unfold closeEvent, on_close. apply work_broadcast.
  unfold allWork. cbn. destruct (sockets st !! ws) as [sock|] eqn:E; [|done]. cbn.
  apply map_Forall_insert_2; [|done]. by apply (Hw ws sock E).
Qed.

Lemma reply_works ws r hub :
  allWork (server hub) ->
  (reply ws r hub).2 = false /\ server (reply ws r hub).1 = server hub.
Proof.
  intros Hw. unfold reply.
  destruct (sockets (server hub) !! ws) as [sock|] eqn:E; [|done].
  by rewrite (Hw ws sock E).
Qed.

Lemma onError_works ws hub :
  allWork (server hub) ->
  exists hub', onError ws hub = Some hub' /\ allWork (server hub').
Proof.
  intros Hw. unfold onError.
  destruct (sockets (server hub) !! ws) as [sock|]; [|by exists hub].
  destruct (isOPEN (readyState sock)); [|by exists hub].
  destruct (reply_works ws RError hub Hw) as [-> Hs].
  eexists. split; [done|]. by rewrite Hs.
Qed.

Lemma onMessage_works ws message now hub :
  allWork (server hub) ->
  exists hub', onMessage ws message now hub = Some hub' /\ allWork (server hub').
Proof.
  intros Hw. unfold onMessage.
  destruct (infos hub !! ws) as [clientInfo|]; [|by exists hub].
  destruct message as [| |[data|trail data| | |x y data|]]; cbn zeta.
  - by exists hub.
  - by apply onError_works.
  - match goal with
    | |- context [reply ?w ?r ?h] =>
        destruct (reply_works w r h) as [-> Hs]; [done|]
    end.
    eexists. split; [done|]. unfold announce, onServer. cbn [server].
    apply work_broadcast. by rewrite Hs.
  - eexists. split; [done|]. cbn. by apply work_broadcast.
  - destruct (reply_works ws (RPong now) hub Hw) as [-> Hs].
    eexists. split; [done|]. by rewrite Hs.
  - eexists. split; [done|]. cbn. by apply work_broadcast.
  - eexists. split; [done|]. cbn. by apply work_broadcast.
  - by exists hub.
Qed.

Lemma snapshot_sockets clientId l acc :
  sockets (server (foldl (snapshotOne clientId) acc l).1) = sockets (server acc.1).
Proof.
  revert acc. induction l as [|w l IH]; intros acc; [done|].
  simpl. rewrite IH. unfold snapshotOne.
  destruct (clients (server acc.1) !! w) as [info|]; [|done].
  by destruct (strEq (info_id info) clientId).
Qed.

Lemma onConnection_works ws clientId hub :
  allWork (server hub) ->
  exists hub', onConnection ws false clientId hub = Some hub' /\ allWork (server hub').
Proof.
  intros Hw. unfold onConnection. cbn zeta.
  match goal with
  | |- context [reply ?w ?r ?h] =>
      destruct (reply_works w r h) as [-> Hs]
  end.
  { unfold allWork. rewrite snapshot_sockets. cbn.
    apply map_Forall_insert_2; [done|]. by apply map_Forall_insert_2. }
  eexists. split; [done|]. unfold announce, onServer. cbn [server].
  apply work_broadcast. rewrite Hs.
  unfold allWork. rewrite snapshot_sockets. cbn.
  apply map_Forall_insert_2; [done|]. by apply map_Forall_insert_2.
Qed.

Lemma step_works hub i :
  allWork (server hub) ->
  match i with Connection _ throws _ => throws = false | _ => True end ->
  exists hub', step hub i = Some hub' /\ allWork (server hub').
Proof.
  intros Hw Hi. destruct i as [ws throws clientId|ws message now|ws|ws|]; simpl.
  - subst throws. by apply onConnection_works.
  - by apply onMessage_works.
  - eexists. split; [done|]. cbn. by apply work_on_pong.
  - eexists. split; [done|]. cbn. by apply work_closeEvent.
  - eexists. split; [done|]. cbn. by apply work_heartbeat.
Qed.

(** X14. As long as no connection comes with a transport that throws on a
    send, no exception leaves a handler, whatever the inputs: binary frames,
    texts that are not JSON, messages and closes of connections that never
    were or are gone, heartbeats. *)
Theorem run_reliable (inputs : list Input) :
  reliable inputs ->
  exists hub, run inputs noHub = Some hub /\ allWork (server hub).
Proof.
  induction inputs as [|i inputs IH] using rev_ind; intros Hr.
  - exists noHub. split; [done|]. apply map_Forall_empty.
  - apply Forall_app in Hr as [Hr Hi]. apply Forall_inv in Hi.
    destruct (IH Hr) as (mid & Hmid & Hw).
    rewrite run_snoc, Hmid. simpl. by apply step_works.
Qed.

Lemma run_reliable_witness :
  reliable session /\
  exists hub, run session noHub = Some hub /\ allWork (server hub).
Proof.
  assert (Hr : reliable session) by (repeat constructor).
  split; [exact Hr|]. exact (run_reliable session Hr).
Defined.

(** A welcome that throws is not caught. *)
Example welcome_not_guarded :
  run [Connection 1 true (str "client_a")] noHub = None.
Proof. reflexivity. Qed.

(** Nor is the error report of the [catch] block. *)
Example error_report_not_guarded :
  onMessage 1 Malformed 0
    (onServer (set_sockets {[ 1 := open_socket true true ]}) one_client) = None.
Proof. reflexivity. Qed.


(** *** What a message can touch *)

Lemma confined_refl ws hub : confined ws hub hub.
Proof. by repeat split. Qed.

Lemma confined_trans ws a b c : confined ws a b -> confined ws b c -> confined ws a c.
Proof.
  intros (A1 & A2 & A3 & A4 & A5 & A6 & A7 & A8) (B1 & B2 & B3 & B4 & B5 & B6 & B7 & B8).
  split; [|split; [|split; [|split; [|split; [|split; [|split]]]]]]; try congruence.
  - intros w Hw. destruct (A1 w Hw) as [<- <-]. by apply B1.
  - intros w info Hw H. by apply A2, B2.
Qed.

Lemma confined_storeSettings ws s hub : confined ws hub (storeSettings ws s hub).
Proof.
  split; [|split; [|split; [|split; [|split; [|split; [|split]]]]]]; try done; cbn.
  - intros w Hw. split; [done|]. by rewrite lookup_alter_ne.
  - intros w info Hw. by rewrite lookup_alter_ne.
  - rewrite lookup_alter_eq. by destruct (infos hub !! ws).
  - rewrite lookup_alter_eq. by destruct (clients (server hub) !! ws).
Qed.

Lemma confined_reply ws r hub : confined ws hub (reply ws r hub).1.
Proof.
  unfold reply. destruct (sockets (server hub) !! ws) as [sock|] eqn:E;
    [|apply confined_refl].
  destruct (sendThrows sock).
  - split; [|split; [|split; [|split; [|split; [|split; [|split]]]]]]; try done; cbn.
    by rewrite lookup_insert_eq, E.
  - split; [|split; [|split; [|split; [|split; [|split; [|split]]]]]]; try done; cbn.
    intros w Hw. split; [|done]. unfold repliesTo. cbn.
    by rewrite lookup_insert_ne.
Qed.

Lemma confined_announce data ws hub : confined ws hub (announce data ws hub).
Proof.
  split; [|split; [|split; [|split; [|split; [|split; [|split]]]]]]; try done; cbn.
  - intros w info Hw. rewrite broadcast_clients.
    destruct (sockets (server hub) !! w) as [sock|]; [|done].
    by destruct (_ && _).
  - rewrite broadcast_sockets.
    destruct (sockets (server hub) !! ws) as [sock|]; [|done]. simpl.
    unfold targeted. rewrite bool_decide_eq_false_2 by (by intros ?).
    by rewrite andb_false_r.
  - rewrite broadcast_clients.
    destruct (sockets (server hub) !! ws) as [sock|]; [|done].
    unfold targeted. rewrite bool_decide_eq_false_2 by (by intros ?).
    by rewrite andb_false_r.
  - apply (broadcast_fanned data ws (server hub)).
  - apply (broadcast_fanned data ws (server hub)).
Qed.

Lemma confined_onError ws hub hub' :
  onError ws hub = Some hub' -> confined ws hub hub'.
Proof.
  unfold onError.
  destruct (sockets (server hub) !! ws) as [sock|];
    [|intros [= <-]; apply confined_refl].
  destruct (isOPEN (readyState sock)); [|intros [= <-]; apply confined_refl].
  destruct (reply ws RError hub).2; [done|]. intros [= <-]. apply confined_reply.
Qed.

(** X15. Handling a message of [ws], whatever it is, sends no direct reply
    to another connection, changes no other connection's stored settings,
    registers nobody, delivers nothing from [broadcast] to [ws] itself, and
    leaves the identity of [ws], the order of the registry, the tracked
    connections and the pending [close] events as they were. *)
Theorem onMessage_confined (ws : conn) (message : Inbound) (now : Z) (hub hub' : Hub) :
  onMessage ws message now hub = Some hub' -> confined ws hub hub'.
Proof.
  unfold onMessage.
  destruct (infos hub !! ws) as [clientInfo|]; [|intros [= <-]; apply confined_refl].
  destruct message as [| |[data|trail data| | |x y data|]]; cbn zeta.
  - intros [= <-]. apply confined_refl.
  - apply confined_onError.
  - match goal with |- context [reply ?w ?r ?h] => destruct (reply w r h).2 eqn:E end.
    + intros H. eapply confined_trans; [apply confined_storeSettings|].
      eapply confined_trans; [apply confined_reply|]. by apply confined_onError.
    + intros [= <-]. eapply confined_trans; [apply confined_storeSettings|].
      eapply confined_trans; [apply confined_reply|]. apply confined_announce.
  - intros [= <-]. eapply confined_trans; [apply confined_storeSettings|].
    apply confined_announce.
  - destruct (reply ws (RPong now) hub).2 eqn:E.
    + intros H. eapply confined_trans; [apply confined_reply|].
      by apply confined_onError.
    + intros [= <-]. apply confined_reply.
  - intros [= <-]. apply confined_announce.
  - intros [= <-]. eapply confined_trans; [apply confined_storeSettings|].
    apply confined_announce.
  - intros [= <-]. apply confined_refl.
Qed.


Lemma onMessage_confined_witness :
  match onMessage 1 (Parsed (MsgUpdateSettings overflow_size_message)) 1000 one_client with
  | Some hub' => confined 1 one_client hub'
  | None => False
  end.
Proof.
  destruct (onMessage 1 _ 1000 one_client) as [hub'|] eqn:E.
  - exact (onMessage_confined 1 _ 1000 one_client hub' E).
  - vm_compute in E. discriminate E.
Defined.

(** *** A settings update, end to end *)

(** X16. An [updateSettings] message of a connection whose send works: the
    record sanitized against the connection's previous settings is stored,
    acknowledged to the sender alone, and fanned out as [userSettings] with
    the sender's identity to every other registered connection with an open,
    working socket; the sender's socket receives nothing from the fan-out. *)
Theorem updateSettings_round (ws : conn) (data : RawSettings) (now : Z) (hub : Hub)
    (clientInfo : ClientInfo) (sock : Socket) :
  infos hub !! ws = Some clientInfo ->
  sockets (server hub) !! ws = Some sock ->
  sendThrows sock = false ->
  let s := sanitizeSettings data (as_fallback (info_settings clientInfo)) in
  exists hub',
    onMessage ws (Parsed (MsgUpdateSettings data)) now hub = Some hub' /\
    repliesTo hub' ws = repliesTo hub ws ++ [RSettingsAck s] /\
    infos hub' !! ws = Some (withSettings s clientInfo) /\
    clients (server hub') !! ws = withSettings s <$> clients (server hub) !! ws /\
    sockets (server hub') !! ws = Some sock /\
    forall w peer,
      w <> ws -> is_Some (clients (server hub) !! w) ->
      sockets (server hub) !! w = Some peer ->
      readyState peer = OPEN -> sendThrows peer = false ->
      sockets (server hub') !! w =
        Some (accept (EvUserSettings (info_id clientInfo) s) peer) /\
      clients (server hub') !! w = clients (server hub) !! w.
Proof.
  intros Hinfo Hsock Hok s. unfold onMessage. rewrite Hinfo. cbn zeta. fold s.
  unfold reply. cbn [storeSettings server sockets set_clients].
  rewrite Hsock, Hok. cbn [fst snd].
  eexists. split; [reflexivity|].
  unfold announce, onServer, repliesTo. cbn [server infos replies].
  split; [by rewrite lookup_insert_eq|].
  split; [cbn; by rewrite lookup_alter_eq, Hinfo|].
  split; [|split].
  - rewrite broadcast_clients. cbn [sockets clients set_clients]. rewrite Hsock.
    unfold targeted. rewrite bool_decide_eq_false_2 by (by intros ?).
    rewrite andb_false_r. cbn. by rewrite lookup_alter_eq.
  - rewrite broadcast_sockets. cbn [sockets clients set_clients]. rewrite Hsock.
    simpl. unfold targeted. rewrite bool_decide_eq_false_2 by (by intros ?).
    by rewrite andb_false_r.
  - intros w peer Hne Hreg Hpeer Hopen Hworks.
    match goal with
    | |- context [broadcast ?d ?x ?st] =>
        destruct (broadcast_receiver d x st w peer) as [Hc Hs]
    end; try done.
    { cbn. by rewrite lookup_alter_ne. }
    split.
    + rewrite Hs. destruct (ws =? w) eqn:E; [|done].
      apply Nat.eqb_eq in E. congruence.
    + rewrite Hc. cbn. by rewrite lookup_alter_ne.
Qed.

Lemma updateSettings_round_witness :
  exists hub',
    onMessage 1 (Parsed (MsgUpdateSettings overflow_size_message)) 1000 one_client
      = Some hub' /\
    repliesTo hub' 1 =
      [RSettingsAck (mkSettings (str "#00ff00") (Fin 3) (Fin 1) (str "star") (str "ann"))].
Proof.
  destruct (updateSettings_round 1 overflow_size_message 1000 one_client
              (mkInfo (str "client_a")
                      (mkSettings (str "#00ff00") (Fin 2) (Fin 1) (str "star") (str "ann")))
              (open_socket true false))
    as (hub' & H1 & H2 & _); [reflexivity|reflexivity|reflexivity|].
  exists hub'. split; [exact H1|exact H2].
Defined.


(** *** A connection *)

Lemma omap_ext_in {A B} (f g : A -> option B) (l : list A) :
  (forall x, x ∈ l -> f x = g x) -> omap f l = omap g l.
Proof.
  induction l as [|a l IH]; intros H; [done|]. csimpl.
  rewrite (H a) by left. rewrite IH; [done|].
  intros x Hx. apply H. by right.
Qed.

Lemma size_alter {A} (f : A -> A) (m : gmap conn A) i :
  base.size (alter f i m) = base.size m.
Proof.
  rewrite alter_alt. destruct (m !! i) as [x|] eqn:E; [|done].
  by apply map_size_insert_Some.
Qed.

Lemma snapshotOne_spec clientId acc a :
  (forall w, clients (server (snapshotOne clientId acc a).1) !! w =
             if decide (w = a) then snapshotStored clientId <$> clients (server acc.1) !! w
             else clients (server acc.1) !! w) /\
  (snapshotOne clientId acc a).2 =
    acc.2 ++ omap (fun w => clients (server acc.1) !! w ≫= snapshotEntry clientId) [a] /\
  sockets (server (snapshotOne clientId acc a).1) = sockets (server acc.1) /\
  tracked (server (snapshotOne clientId acc a).1) = tracked (server acc.1) /\
  closing (server (snapshotOne clientId acc a).1) = closing (server acc.1) /\
  order (snapshotOne clientId acc a).1 = order acc.1 /\
  replies (snapshotOne clientId acc a).1 = replies acc.1 /\
  base.size (clients (server (snapshotOne clientId acc a).1)) =
    base.size (clients (server acc.1)).
Proof.
  unfold snapshotOne, snapshotStored, snapshotEntry. simpl.
  destruct (clients (server acc.1) !! a) as [info|] eqn:E; simpl.
  - destruct (strEq (info_id info) clientId) eqn:Eid; simpl.
    + rewrite app_nil_r. repeat split.
      intros w. destruct (decide (w = a)) as [->|Hne]; [|done].
      rewrite E. simpl. by rewrite Eid.
    + repeat split; [|apply size_alter].
      intros w. destruct (decide (w = a)) as [->|Hne].
      * rewrite lookup_alter_eq, E. simpl. by rewrite Eid.
      * by rewrite lookup_alter_ne.
  - rewrite app_nil_r. repeat split.
    intros w. destruct (decide (w = a)) as [->|Hne]; [|done]. by rewrite E.
Qed.

Lemma snapshot_loop clientId l :
  NoDup l ->
  forall acc,
    (forall w, clients (server (foldl (snapshotOne clientId) acc l).1) !! w =
               if decide (w ∈ l)
               then snapshotStored clientId <$> clients (server acc.1) !! w
               else clients (server acc.1) !! w) /\
    (foldl (snapshotOne clientId) acc l).2 =
      acc.2 ++ omap (fun w => clients (server acc.1) !! w ≫= snapshotEntry clientId) l /\
    sockets (server (foldl (snapshotOne clientId) acc l).1) = sockets (server acc.1) /\
    tracked (server (foldl (snapshotOne clientId) acc l).1) = tracked (server acc.1) /\
    closing (server (foldl (snapshotOne clientId) acc l).1) = closing (server acc.1) /\
    order (foldl (snapshotOne clientId) acc l).1 = order acc.1 /\
    replies (foldl (snapshotOne clientId) acc l).1 = replies acc.1 /\
    base.size (clients (server (foldl (snapshotOne clientId) acc l).1)) =
      base.size (clients (server acc.1)).
Proof.
  induction 1 as [|a l Ha Hnd IH]; intros acc.
  - simpl. rewrite app_nil_r. by repeat split.
  - cbn [foldl].
    destruct (snapshotOne_spec clientId acc a) as (Hc & Hl & Hs & Ht & Hcl & Ho & Hr & Hz).
    destruct (IH (snapshotOne clientId acc a)) as (Ic & Il & Is & It & Icl & Io & Ir & Iz).
    split; [|split; [|repeat split; congruence]].
    + intros w. rewrite Ic, Hc. destruct (decide (w = a)) as [->|Hne].
      * rewrite (decide_False (P := a ∈ l)) by done.
        by rewrite (decide_True (P := a ∈ a :: l)) by left.
      * destruct (decide (w ∈ l)) as [Hin|Hin].
        -- by rewrite (decide_True (P := w ∈ a :: l)) by by right.
        -- by rewrite (decide_False (P := w ∈ a :: l))
             by (intros [?|?]%elem_of_cons; done).
    + rewrite Il, Hl, <-app_assoc. f_equal.
      change (a :: l) with ([a] ++ l). rewrite omap_app. f_equal.
      apply omap_ext_in. intros w Hw. rewrite Hc.
      by destruct (decide (w = a)) as [->|?].
Qed.


(** X17. A new connection whose send works, on a registry in which no
    identity equals the new one: the newcomer is registered with the
    default settings and sent one welcome carrying its identity, the new
    registry size, the default settings and one snapshot entry for each
    registered connection, in registry order; every registered connection
    with an open, working socket receives [clientJoined] with the same
    size, and its stored settings are the ones the snapshot reports. *)
Theorem onConnection_welcome (ws : conn) (clientId : jsstring) (hub : Hub) :
  ordered hub ->
  ws ∉ order hub ->
  map_Forall (fun _ info => info_id info <> clientId) (clients (server hub)) ->
  let count := S (base.size (clients (server hub))) in
  exists hub',
    onConnection ws false clientId hub = Some hub' /\
    repliesTo hub' ws =
      repliesTo hub ws ++ [RWelcome clientId count DEFAULT_SETTINGS (snapshotOf hub)] /\
    clients (server hub') !! ws = Some (mkInfo clientId DEFAULT_SETTINGS) /\
    forall w info peer,
      clients (server hub) !! w = Some info ->
      sockets (server hub) !! w = Some peer ->
      readyState peer = OPEN -> sendThrows peer = false ->
      sockets (server hub') !! w =
        Some (accept (EvClientJoined clientId count DEFAULT_SETTINGS) peer) /\
      clients (server hub') !! w = Some (withSettings (resanitized info) info).
Proof.
  intros [Hnd Hreg] Hfresh Hids count.
  assert (Hnew : clients (server hub) !! ws = None).
  { destruct (clients (server hub) !! ws) as [info|] eqn:E; [|done].
    by destruct (Hfresh (Hreg ws info E)). }
  unfold onConnection. cbn zeta. rewrite newcomer_settings.
  cbn [order info_settings].
  set (hub0 := mkHub _ _ _ _).
  assert (Hnd' : NoDup (order hub ++ [ws])).
  { apply NoDup_app. split; [done|]. split; [|apply NoDup_singleton].
    intros x Hx ->%list_elem_of_singleton. done. }
  destruct (snapshot_loop clientId _ Hnd' (hub0, []))
    as (Lc & Ll & Ls & Lt & Lcl & Lo & Lr & Lz).
  set (loop := foldl (snapshotOne clientId) (hub0, []) (order hub ++ [ws])) in *.
  cbn [fst snd] in Lc, Ll, Ls, Lt, Lcl, Lo, Lr, Lz.
  assert (Hsize : base.size (clients (server loop.1)) = count).
  { rewrite Lz. subst hub0. cbn. by rewrite map_size_insert_None. }
  assert (Hsnap : loop.2 = snapshotOf hub).
  { rewrite Ll. cbn [app]. rewrite omap_app. unfold snapshotOf.
    replace (omap _ [ws]) with (@nil (jsstring * Settings)).
    - rewrite app_nil_r. apply omap_ext_in. intros w Hw.
      assert (w <> ws) by (by intros ->).
      subst hub0. cbn. rewrite lookup_insert_ne by done.
      destruct (clients (server hub) !! w) as [info|] eqn:E; [|done]. simpl.
      unfold snapshotEntry, strEq.
      by rewrite bool_decide_eq_false_2 by apply (Hids w info E).
    - subst hub0. cbn. rewrite lookup_insert_eq. simpl.
      unfold snapshotEntry, strEq. simpl. by rewrite bool_decide_eq_true_2. }
  rewrite Hsize, Hsnap.
  assert (Hsock : sockets (server loop.1) !! ws = Some (mkSocket OPEN true false [] 0)).
  { rewrite Ls. subst hub0. cbn. by rewrite lookup_insert_eq. }
  unfold reply. rewrite Hsock. cbn [sendThrows fst snd].
  eexists. split; [reflexivity|].
  unfold announce, onServer, repliesTo. cbn [server infos replies].
  split; [|split].
  - rewrite lookup_insert_eq. simpl. rewrite Lr. by subst hub0.
  - rewrite broadcast_clients, Hsock.
    unfold targeted. rewrite bool_decide_eq_false_2 by (by intros ?).
    rewrite andb_false_r. cbn [andb]. rewrite Lc.
    rewrite decide_True by (apply elem_of_app; right; by left).
    subst hub0. cbn. rewrite lookup_insert_eq. simpl.
    unfold snapshotStored, strEq. simpl. by rewrite bool_decide_eq_true_2.
  - intros w info peer Hinfo Hpeer Hopen Hworks.
    assert (Hne : w <> ws) by (intros ->; congruence).
    assert (Hin : w ∈ order hub ++ [ws]).
    { apply elem_of_app. left. by apply (Hreg w info). }
    assert (Hstored : clients (server loop.1) !! w =
                      Some (withSettings (resanitized info) info)).
    { rewrite Lc, decide_True by done. subst hub0. cbn.
      rewrite lookup_insert_ne by done. rewrite Hinfo. simpl.
      unfold snapshotStored, strEq.
      by rewrite bool_decide_eq_false_2 by apply (Hids w info Hinfo). }
    assert (Hpeer' : sockets (server loop.1) !! w = Some peer).
    { rewrite Ls. subst hub0. cbn. by rewrite !lookup_insert_ne. }
    match goal with
    | |- context [broadcast ?d ?x ?st] =>
        destruct (broadcast_receiver d x st w peer) as [Hc Hs];
          [by rewrite Hstored|done|done|done|]
    end.
    split.
    + rewrite Hs. destruct (ws =? w) eqn:E; [|done].
      apply Nat.eqb_eq in E. congruence.
    + by rewrite Hc.
Qed.

Lemma onConnection_welcome_witness :
  exists hub',
    onConnection 2 false (str "client_b") one_client = Some hub' /\
    repliesTo hub' 2 =
      [RWelcome (str "client_b") 2 DEFAULT_SETTINGS
         [(str "client_a",
           mkSettings (str "#00ff00") (Fin 2) (Fin 1) (str "star") (str "ann"))]].
Proof.
  destruct (onConnection_welcome 2 (str "client_b") one_client)
    as (hub' & H1 & H2 & _).
  - split; [apply (bool_decide_unpack _); vm_compute; exact I|].
    unfold one_client. cbn. apply (bool_decide_unpack _). vm_compute. exact I.
  - apply (bool_decide_unpack _). vm_compute. exact I.
  - unfold one_client. cbn. apply (bool_decide_unpack _). vm_compute. exact I.
  - exists hub'. split; [exact H1|exact H2].
Defined.

End HandlerFacts.

(** ** The server and two clients *)

Module EndToEnd.
Import JsString JsValue Server Client Protocol Handlers.
Import JsStringFacts SettingsFacts HandlerFacts.

Lemma applyLocalSettingsAck_current settings st :
  current (applyLocalSettingsAck (Some settings) st) =
  {| color := if nonEmpty (w_color settings) then w_color settings else color (current st);
     size := match w_size settings with
             | Some n => clamp n (Fin (1 # 2)) (Fin 3)
             | None => size (current st)
             end;
     glow := match w_glow settings with
             | Some n => clamp n (Fin (1 # 2)) (Fin 3)
             | None => glow (current st)
             end;
     cursorMode :=
       if strEq (w_cursorMode settings) (str "star")
          || strEq (w_cursorMode settings) (str "halo")
       then w_cursorMode settings else cursorMode (current st);
     username :=
       if nonEmpty (trim (w_username settings))
       then slice_to 18 (trim (w_username settings))
       else username (current st) |}.
Proof.
  unfold applyLocalSettingsAck. cbn zeta.
  match goal with |- context [ownId ?x] => destruct (ownId x) end; reflexivity.
Qed.

Lemma applyRemoteSettings_mirror id settings now st :
  id <> [] -> isOwnId st id = false ->
  userSettings (applyRemoteSettings id settings now st) !! id =
    Some (remoteSettings id settings).
Proof.
  intros Hid Hown. unfold applyRemoteSettings.
  apply nonEmpty_true in Hid. rewrite Hid, Hown. cbn.
  by rewrite lookup_insert_eq.
Qed.

Lemma mirror_of_valid id s :
  validSettings s -> trim (username s) <> [] ->
  forall cur,
    remoteSettings id (toWire s) =
    {| color := if nonEmpty (w_color (toWire s)) then w_color (toWire s) else color cur;
       size := match w_size (toWire s) with
               | Some n => clamp n (Fin (1 # 2)) (Fin 3)
               | None => size cur
               end;
       glow := match w_glow (toWire s) with
               | Some n => clamp n (Fin (1 # 2)) (Fin 3)
               | None => glow cur
               end;
       cursorMode :=
         if strEq (w_cursorMode (toWire s)) (str "star")
            || strEq (w_cursorMode (toWire s)) (str "halo")
         then w_cursorMode (toWire s) else cursorMode cur;
       username :=
         if nonEmpty (trim (w_username (toWire s)))
         then slice_to 18 (trim (w_username (toWire s)))
         else username cur |}.
Proof.
  intros (Hc & Hs & Hg & Hm & _) Hu cur.
  destruct s as [c sz gl m u]. cbn in *. unfold remoteSettings. cbn.
  apply nonEmpty_true in Hc. rewrite Hc.
  assert (Hu' : nonEmpty u = true).
  { apply nonEmpty_true. intros ->. apply Hu. apply trim_nil. }
  apply nonEmpty_true in Hu. rewrite Hu', Hu. cbn.
  destruct sz as [| | |q]; try done. destruct gl as [| | |q']; try done. cbn.
  by destruct Hm as [-> | ->].
Qed.

(** X18. After a settings update the sender, applying the acknowledgement,
    and a peer, applying the fanned-out [userSettings], hold the same record
    for the sender, provided the sanitized username is not empty. *)
Theorem settings_update_converges (data : RawSettings) (previous : Settings)
    (id : jsstring) (now1 now2 : Z) (sender peer : State) :
  parsedSettings data -> validSettings previous ->
  id <> [] -> isOwnId peer id = false ->
  let s := sanitizeSettings data (as_fallback previous) in
  username s <> [] ->
  exists m,
    decode (EvUserSettings id s) = Some m /\
    userSettings (handleMessage m now1 peer) !! id =
      Some (current (handleMessage (decodeReply (RSettingsAck s)) now2 sender)).
Proof.
  intros Hd Hp Hid Hown s Hu. eexists. split; [reflexivity|].
  cbn [handleMessage decodeReply]. rewrite Hown.
  rewrite applyRemoteSettings_mirror by done.
  rewrite applyLocalSettingsAck_current. f_equal.
  apply mirror_of_valid.
  - by apply sanitize_valid_update.
  - by apply sanitized_username_visible.
Qed.

Lemma settings_update_converges_witness :
  exists m,
    decode (EvUserSettings (str "client_a")
              (sanitizeSettings padded_username_message (as_fallback DEFAULT_SETTINGS)))
      = Some m /\
    userSettings (handleMessage m 10 busy) !! str "client_a" =
      Some (current
              (handleMessage
                 (decodeReply
                    (RSettingsAck
                       (sanitizeSettings padded_username_message
                                         (as_fallback DEFAULT_SETTINGS))))
                 20 fresh)).
Proof.
  apply (settings_update_converges padded_username_message DEFAULT_SETTINGS
           (str "client_a") 10 20 fresh busy).
  - split; simpl; congruence.
  - apply default_valid.
  - done.
  - reflexivity.
  - vm_compute. discriminate.
Defined.


(** *** The welcome *)

(** X19. The welcome of a new connection carries the default settings, and
    the client applies them as an acknowledgement: colour, size, glow and
    cursor mode of the user are replaced by the defaults, the username is
    kept, and on an open socket the result is sent back at once. *)
Theorem welcome_resets_settings (id : jsstring) (n : nat)
    (allSettings : list (jsstring * Settings)) (now : Z) (st : State) :
  isOpen st = true ->
  let st' := handleMessage (decodeReply (RWelcome id n DEFAULT_SETTINGS allSettings)) now st in
  current st' =
    mkSettings (color DEFAULT_SETTINGS) (size DEFAULT_SETTINGS) (glow DEFAULT_SETTINGS)
               (cursorMode DEFAULT_SETTINGS) (username (current st)) /\
  sent st' = sent st ++ [SendUpdateSettings (current st')].
Proof.
  intros Hopen st'. subst st'. cbn [handleMessage decodeReply].
  set (st1 := set_latestClientCount n _).
  assert (H1 : current st1 = current st /\ sent st1 = sent st /\ ws st1 = ws st).
  { subst st1. by destruct (nonEmpty id). }
  destruct H1 as (Hcur & Hsent & Hws).
  set (st2 := applyLocalSettingsAck (Some (toWire DEFAULT_SETTINGS)) st1).
  assert (Hcur2 : current st2 =
            mkSettings (color DEFAULT_SETTINGS) (size DEFAULT_SETTINGS)
                       (glow DEFAULT_SETTINGS) (cursorMode DEFAULT_SETTINGS)
                       (username (current st))).
  { subst st2. rewrite applyLocalSettingsAck_current, Hcur. reflexivity. }
  destruct (ClientExtra.applyLocalSettingsAck_frame (Some (toWire DEFAULT_SETTINGS)) st1)
    as (_ & _ & _ & Hsent2 & Hws2).
  fold st2 in Hsent2, Hws2.
  match goal with
  | |- context [foldl ?f st2 ?l] =>
      destruct (ClientExtra.applyRemoteSettings_all_frame l now st2)
        as (_ & Hcur3 & _ & Hsent3 & Hws3);
      set (st3 := foldl f st2 l) in *
  end.
  cbn zeta in Hcur3, Hsent3, Hws3.
  assert (Hopen3 : isOpen st3 = true).
  { unfold isOpen in *. by rewrite Hws3, Hws2, Hws. }
  destruct (ClientFacts.sendSettingsUpdate_open st3 Hopen3) as [Hs _].
  destruct (ClientExtra.sendSettingsUpdate_frame st3) as (_ & _ & Hc & _).
  rewrite Hs, Hc, Hcur3, Hsent3, Hsent2, Hsent, Hcur2. done.
Qed.

Lemma welcome_resets_settings_witness :
  current
    (handleMessage
       (decodeReply (RWelcome (str "client_a") 1 DEFAULT_SETTINGS [])) 0
       (onopen
          (set_current
             (mkSettings (str "#00ff00") (Fin 2) (Fin 1) (str "star") (str "Nova-123"))
             fresh))) =
  mkSettings (str "#ff6b6b") (Fin 1) (Fin (6 # 5)) (str "halo") (str "Nova-123").
Proof.
  refine (proj1 (welcome_resets_settings (str "client_a") 1 [] 0 _ _)).
  reflexivity.
Defined.

End EndToEnd.

(** ** The local stroke *)

Module StrokeFacts.
Import JsString JsValue Server Client Protocol.

Lemma draw_step x y now st :
  isOpen st = true ->
  exists added,
    (added = [] \/ added =
       [mkPoint x y (color (current st)) (size (current st)) (glow (current st)) now]) /\
    trailPoints (draw x y now st) = trailPoints st ++ added /\
    sent (draw x y now st) = sent st ++ map (pointMessage (current st)) added /\
    (forall id, ownId st = Some id ->
       default [] (allTrails (draw x y now st) !! id) =
       default [] (allTrails st !! id) ++ added) /\
    isOpen (draw x y now st) = true /\
    current (draw x y now st) = current st /\
    ownId (draw x y now st) = ownId st.
Proof.
  intros Hopen. unfold draw.
  destruct (negb (isDrawing st)).
  { exists []. rewrite !app_nil_r.
    repeat split; try done; try (by left); intros; by rewrite app_nil_r. }
  match goal with |- context [if ?b then st else _] => destruct b end.
  { exists []. rewrite !app_nil_r.
    repeat split; try done; try (by left); intros; by rewrite app_nil_r. }
  eexists. split; [right; reflexivity|].
  cbn zeta.
  destruct (ownId st) as [own|] eqn:Eown.
  - assert (Hown' : ownId (set_trailPoints
                       (trailPoints st ++
                        [mkPoint x y (color (current st)) (size (current st))
                                 (glow (current st)) now]) st) = Some own) by done.
    rewrite Hown'. cbn. unfold isOpen in *. cbn. rewrite Hopen. cbn.
    repeat split; try done.
    intros id [= <-]. by rewrite lookup_insert_eq.
  - assert (Hown' : ownId (set_trailPoints
                       (trailPoints st ++
                        [mkPoint x y (color (current st)) (size (current st))
                                 (glow (current st)) now]) st) = None) by done.
    rewrite Hown'. cbn. unfold isOpen in *. cbn. rewrite Hopen. cbn.
    repeat split; try done.
Qed.

(** X20. While the socket is open, the points a run of mouse moves appends
    to the local stroke are the points sent to the server, in the same
    order and with the current settings, and the points appended to the
    user's own trail in the store. *)
Theorem strokes_sent_in_order (moves : list (float * float * Z)) (st : State) :
  isOpen st = true ->
  exists added,
    trailPoints (strokes moves st) = trailPoints st ++ added /\
    sent (strokes moves st) = sent st ++ map (pointMessage (current st)) added /\
    (forall id, ownId st = Some id ->
       default [] (allTrails (strokes moves st) !! id) =
       default [] (allTrails st !! id) ++ added) /\
    length added <= length moves.
Proof.
  revert st. induction moves as [|[[x y] now] moves IH]; intros st Hopen.
  - exists []. rewrite !app_nil_r.
    repeat split; try done. intros. by rewrite app_nil_r.
  - cbn [strokes foldl fst snd].
    destruct (draw_step x y now st Hopen)
      as (a1 & Hone & Ht & Hs & Hown & Hopen' & Hcur & Hid).
    destruct (IH (draw x y now st) Hopen') as (a2 & It & Is & Iown & Ilen).
    exists (a1 ++ a2). unfold strokes in *. rewrite It, Is, Ht, Hs, Hcur.
    rewrite map_app, !app_assoc. repeat split; try done.
    + intros id Hme. rewrite Iown by by rewrite Hid. by rewrite Hown, app_assoc.
    + rewrite length_app. cbn [length].
      destruct Hone as [-> | ->]; cbn [length]; lia.
Qed.

Lemma strokes_sent_in_order_witness :
  exists added,
    trailPoints (strokes [(40%float, 40%float, 1000%Z); (80%float, 90%float, 1400%Z)]
                         (onopen drawing)) =
      trailPoints (onopen drawing) ++ added /\
    sent (strokes [(40%float, 40%float, 1000%Z); (80%float, 90%float, 1400%Z)]
                  (onopen drawing)) =
      sent (onopen drawing) ++ map (pointMessage (current (onopen drawing))) added.
Proof.
  destruct (strokes_sent_in_order
              [(40%float, 40%float, 1000%Z); (80%float, 90%float, 1400%Z)]
              (onopen drawing))
    as (added & H1 & H2 & _); [reflexivity|].
  exists added. split; [exact H1|exact H2].
Defined.

End StrokeFacts.
